(** * The lesson packager [tools/create_package.py]

    A shallow embedding of [create_package()] over a model of the file
    system it runs on, and the properties of the packaging pipeline.

    The script addresses a Windows volume ([base_dir] is a drive path), so
    [os.sep] is the backslash and text files are written with CRLF line
    ends.  Paths are kept as lists of components; [components] and
    [render] convert from and to the strings of the source. *)

From stdpp Require Import gmap strings list fin_maps pretty.
From Stdlib Require Import NArith Ascii.

Set Warnings "-register-all,-clear-no-such-hyp".

(** ** Strings *)

Module Str.

(** [s.endswith(suffix)] *)
Definition endswith (s suffix : string) : bool :=
  let n := String.length s in
  let k := String.length suffix in
  (k <=? n)%nat && String.eqb (String.substring (n - k) k s) suffix.

(** [needle in hay] *)
Fixpoint contains (needle hay : string) : bool :=
  String.prefix needle hay ||
  match hay with
  | EmptyString => false
  | String _ rest => contains needle rest
  end.

(** Position of the last [c] of [s], counted from [i]. *)
Fixpoint rindex (c : ascii) (s : string) (i : nat) (found : option nat)
  : option nat :=
  match s with
  | EmptyString => found
  | String a rest =>
      rindex c rest (S i) (if Ascii.eqb a c then Some i else found)
  end.

Fixpoint all_dots (s : string) : bool :=
  match s with
  | EmptyString => true
  | String a rest => Ascii.eqb a "."%char && all_dots rest
  end.

(** [os.path.splitext] on one path component: the extension starts at
    the last dot, unless only dots come before it. *)
Definition splitext (name : string) : string * string :=
  match rindex "."%char name 0 None with
  | Some d =>
      if all_dots (String.substring 0 d name) then (name, "")
      else (String.substring 0 d name, String.substring d (String.length name - d) name)
  | None => (name, "")
  end.

(** Cut [s] at every [c]. *)
Fixpoint split_on (c : ascii) (s : string) : list string :=
  match s with
  | EmptyString => [""]
  | String a rest =>
      if Ascii.eqb a c then "" :: split_on c rest
      else match split_on c rest with
           | [] => [String a ""]
           | w :: ws => String a w :: ws
           end
  end.

Definition LF : string := String "010"%char EmptyString.
Definition CRLF : string := String "013"%char LF.

(** What a text-mode file object writes for [s] on this platform:
    every line feed becomes [os.linesep]. *)
Fixpoint translate_newlines (s : string) : string :=
  match s with
  | EmptyString => EmptyString
  | String a rest =>
      if Ascii.eqb a "010"%char then CRLF +:+ translate_newlines rest
      else String a (translate_newlines rest)
  end.

(** [n] rounded to 53 significant bits, half to even: the integer the
    float nearest to [n] stands for.  Every [n] below 2^53 is its own
    float. *)
Definition round53 (n : N) : N :=
  let k := (N.size n - 53)%N in
  let q := N.shiftr n k in
  let r := N.land n (N.ones k) in
  let half := N.shiftl 1 (k - 1) in
  if (k =? 0)%N then n
  else N.shiftl (if ((half <? r) || ((r =? half) && N.odd q))%N
                 then (q + 1)%N else q) k.

(** [f"{n / 1024:.1f}"] for a byte count [n].  The true division gives
    the float nearest to the quotient, which for the divisor 2^10 is
    [round53 n / 1024] exactly; the format shows that value in tenths,
    rounded half to even.  (Sizes are those a file can have: the float
    range is not exceeded.) *)
Definition format_kb (n : N) : string :=
  let x := round53 n in
  let q := (10 * x / 1024)%N in
  let r := (10 * x mod 1024)%N in
  let t := if ((512 <? r) || ((r =? 512) && N.odd q))%N then (q + 1)%N else q in
  pretty (t / 10)%N +:+ "." +:+ pretty (t mod 10)%N.

End Str.

(** ** Paths *)

Abbreviation path := (list string).

Module OsPath.

Definition sep : string := "\".

(** The components of a path string. *)
Definition components (s : string) : path := Str.split_on "\"%char s.

(** The path string of a list of components, as [str(path)] shows it. *)
Definition render (p : path) : string := String.concat sep p.

(** [os.path.join(p, *names)] for relative [names]. *)
Definition join (p : path) (names : list string) : path := p ++ names.

Definition dirname (p : path) : path := removelast p.

Definition basename (p : path) : string := List.last p "".

(** [os.path.splitext(p)[0]] *)
Definition splitext_root (p : path) : path :=
  match p with
  | [] => []
  | _ => dirname p ++ [fst (Str.splitext (basename p))]
  end.

(** [p + suffix] on path strings. *)
Definition add_suffix (p : path) (suffix : string) : path :=
  match p with
  | [] => [suffix]
  | _ => dirname p ++ [basename p +:+ suffix]
  end.

(** [q] is the entry [name] of directory [d]. *)
Definition child_of (d q : path) : option string :=
  match reverse q with
  | name :: rd => if decide (reverse rd = d) then Some name else None
  | [] => None
  end.

End OsPath.

(** ** The file system *)

(** Mode bits and time of last change.  Times are counted from the
    first instant a ZIP entry can hold (the start of 1980), so every
    time of the model is one an archive member can carry. *)
Record stat := Stat { st_mode : N; st_mtime : N }.

(** A file holds raw bytes, or is a ZIP archive of [nbytes] bytes: its
    members by archive name, a directory entry carrying no body. *)
Inductive content :=
| Raw (bytes : string)
| Zip (members : list (path * option (content * stat))) (nbytes : N).

Definition member : Type := path * option (content * stat).

Inductive node :=
| Dir
| File (c : content) (m : stat).

(** [fs] maps every existing path to its node, the volume root being
    [[]]; writing a path of [denied] is refused by the system;
    [clock] stamps what is written; [stdout] is the console; [deflate]
    is the size the compressor gives an archive. *)
Record world := World {
  fs : gmap path node;
  denied : gset path;
  clock : N;
  stdout : list string;
  deflate : list member -> N
}.

Inductive oserror :=
| FileExistsError
| FileNotFoundError
| NotADirectoryError
| PermissionError
| SameFileError.

Inductive result (A : Type) :=
| Ok (a : A)
| Raise (e : oserror).
Arguments Ok {A} a.
Arguments Raise {A} e.

(** A computation runs on a world and leaves a world behind, whether it
    returns or raises: nothing is undone when an exception propagates. *)
Definition M (A : Type) : Type := world -> world * result A.

#[global] Instance M_ret : MRet M := fun A a w => (w, Ok a).

#[global] Instance M_bind : MBind M := fun A B f m w =>
  match m w with
  | (w1, Ok a) => f a w1
  | (w1, Raise e) => (w1, Raise e)
  end.

Definition raise {A} (e : oserror) : M A := fun w => (w, Raise e).

(** [try: m except OSError as e: handler e] *)
Definition catch {A} (m : M A) (handler : oserror -> M A) : M A := fun w =>
  match m w with
  | (w1, Ok a) => (w1, Ok a)
  | (w1, Raise e) => handler e w1
  end.

Fixpoint for_each {A} (l : list A) (body : A -> M unit) : M unit :=
  match l with
  | [] => mret tt
  | x :: rest => body x ;; for_each rest body
  end.

(** [print(line)], on a console that takes every character of the
    line (as a UTF-8 console does). *)
Definition print (line : string) : M unit := fun w =>
  (World (fs w) (denied w) (clock w) (stdout w ++ [line]) (deflate w), Ok tt).

(** Put node [n] at [p]; the clock moves on. *)
Definition store (p : path) (n : node) (w : world) : world :=
  World (<[p := n]> (fs w)) (denied w) (clock w + 1)%N (stdout w) (deflate w).

Definition default_mode : N := 438.

(** [stat.S_IWRITE]: a file whose mode lacks this bit is read-only. *)
Definition writable (m : stat) : bool := N.testbit (st_mode m) 7.

Module Os.

Definition path_exists (p : path) : M bool := fun w =>
  (w, Ok (bool_decide (is_Some (fs w !! p)))).

Definition path_isdir (p : path) : M bool := fun w =>
  (w, Ok (match fs w !! p with Some Dir => true | _ => false end)).

Definition mkdir (p : path) : M unit := fun w =>
  match fs w !! p with
  | Some _ => (w, Raise FileExistsError)
  | None =>
      match fs w !! OsPath.dirname p with
      | Some Dir =>
          if decide (p ∈ denied w) then (w, Raise PermissionError)
          else (store p Dir w, Ok tt)
      | Some (File _ _) => (w, Raise NotADirectoryError)
      | None => (w, Raise FileNotFoundError)
      end
  end.

(** [os.makedirs], on the reversed name so that the recursion on the
    head of the path is structural. *)
Fixpoint makedirs_rev (rname : list string) (exist_ok : bool) : M unit :=
  let name := reverse rname in
  let make_head : M unit :=
    match rname with
    | _ :: (_ :: _) as rhead =>
        head_exists ← path_exists (reverse rhead);
        if head_exists : bool then mret tt
        else catch (makedirs_rev rhead exist_ok)
               (fun e => match e with
                         | FileExistsError => mret tt
                         | _ => raise e
                         end)
    | _ => mret tt
    end in
  make_head ;;
  catch (mkdir name)
    (fun e =>
       isdir ← path_isdir name;
       if negb exist_ok || negb isdir then raise e else mret tt).

Definition makedirs (name : path) (exist_ok : bool) : M unit :=
  makedirs_rev (reverse name) exist_ok.

Definition listdir (d : path) : M (list string) := fun w =>
  match fs w !! d with
  | Some Dir => (w, Ok (omap (OsPath.child_of d) (elements (dom (fs w)))))
  | Some (File _ _) => (w, Raise NotADirectoryError)
  | None => (w, Raise FileNotFoundError)
  end.

(** [open(p, "wb")], [write(c)] and [close()]: a directory cannot be
    opened (a [PermissionError] on this platform), nor can a read-only
    file; an existing file is truncated and keeps its mode. *)
Definition write_file (p : path) (c : content) : M unit := fun w =>
  match fs w !! p with
  | Some Dir => (w, Raise PermissionError)
  | Some (File _ m) =>
      if decide (p ∈ denied w) then (w, Raise PermissionError)
      else if writable m
           then (store p (File c (Stat (st_mode m) (clock w))) w, Ok tt)
           else (w, Raise PermissionError)
  | None =>
      match fs w !! OsPath.dirname p with
      | Some Dir =>
          if decide (p ∈ denied w) then (w, Raise PermissionError)
          else (store p (File c (Stat default_mode (clock w))) w, Ok tt)
      | _ => (w, Raise FileNotFoundError)
      end
  end.

(** [open(p, "w", encoding="utf-8")] and [write(text)] *)
Definition write_text (p : path) (text : string) : M unit :=
  write_file p (Raw (Str.translate_newlines text)).

Definition content_size (c : content) : N :=
  match c with
  | Raw bytes => N.of_nat (String.length bytes)
  | Zip _ nbytes => nbytes
  end.

Definition path_getsize (p : path) : M N := fun w =>
  match fs w !! p with
  | Some (File c _) => (w, Ok (content_size c))
  | Some Dir => (w, Ok 0%N)
  | None => (w, Raise FileNotFoundError)
  end.

End Os.

(** ** [shutil] *)

Module Shutil.

(** [shutil.copyfile]: the bytes of [src] go to [dst]. *)
Definition copyfile (src dst : path) : M unit := fun w =>
  if decide (src = dst ∧ is_Some (fs w !! src)) then (w, Raise SameFileError)
  else match fs w !! src with
       | Some (File c _) => Os.write_file dst c w
       | Some Dir => (w, Raise PermissionError)
       | None => (w, Raise FileNotFoundError)
       end.

(** [shutil.copystat]: mode bits and times of [src] are set on [dst]. *)
Definition copystat (src dst : path) : M unit := fun w =>
  match fs w !! src, fs w !! dst with
  | Some (File _ m), Some (File c _) =>
      (World (<[dst := File c m]> (fs w)) (denied w) (clock w) (stdout w)
         (deflate w), Ok tt)
  | None, _ | _, None => (w, Raise FileNotFoundError)
  | _, _ => (w, Ok tt)
  end.

(** [shutil.copy2]: a [dst] that is a directory receives the file under
    the base name of [src]. *)
Definition copy2 (src dst : path) : M path :=
  isdir ← Os.path_isdir dst;
  let dst := if isdir : bool
             then OsPath.join dst [OsPath.basename src] else dst in
  copyfile src dst ;;
  copystat src dst ;;
  mret dst.

Definition member_of (root_dir : path) (entry : path * node) : member :=
  (drop (length root_dir) entry.1,
   match entry.2 with
   | Dir => None
   | File c m => Some (c, m)
   end).

(** The members the ZIP writer collects: [top] and, by [os.walk],
    everything below it, under their names relative to [root_dir]. *)
Definition zip_walk (root_dir top : path) : M (list member) := fun w =>
  match fs w !! top with
  | None => (w, Raise FileNotFoundError)
  | Some _ =>
      (w, Ok (member_of root_dir <$>
                filter (fun entry => top `prefix_of` entry.1)
                  (map_to_list (fs w))))
  end.

(** Closing the archive leaves its bytes in the file opened at [p]. *)
Definition zip_close (p : path) (members : list member) : M unit := fun w =>
  match fs w !! p with
  | Some (File _ m) =>
      (store p (File (Zip members (deflate w members))
                  (Stat (st_mode m) (clock w))) w, Ok tt)
  | _ => (w, Raise FileNotFoundError)
  end.

(** [shutil.make_archive(base_name, 'zip', root_dir, base_dir)]; the
    times of the members are ones a ZIP entry can hold (see [stat]). *)
Definition make_archive (base_name root_dir : path) (base_dir : list string)
  : M path :=
  let zip_filename := OsPath.add_suffix base_name ".zip" in
  let archive_dir := OsPath.dirname base_name in
  root_is_dir ← Os.path_isdir root_dir;
  (if root_is_dir : bool then mret tt else raise NotADirectoryError) ;;
  archive_dir_exists ← Os.path_exists archive_dir;
  (if bool_decide (archive_dir ≠ []) && negb archive_dir_exists
   then Os.makedirs archive_dir false else mret tt) ;;
  Os.write_file zip_filename (Raw "") ;;
  members ← zip_walk root_dir (OsPath.join root_dir base_dir);
  zip_close zip_filename members ;;
  mret zip_filename.

End Shutil.

(** ** [zipfile]: inflating an archive

    [ZipFile.extractall(target)], the operation an archive is checked
    with: every member is created below [target], missing upper
    directories first. *)

Module Zipfile.



End Zipfile.

(** ** [create_package] *)

Definition base_dir : path :=
  Eval vm_compute in OsPath.components "c:\Users\atchy\Streamli".

Definition package_name : string := "microbit_1st_grade_lesson_package".

Definition package_dir : path :=
  Eval vm_compute in OsPath.join base_dir [package_name].

Definition dirs : list string :=
  ["guides"; "worksheets"; "templates"; "qrcodes"; "resources"].

Definition copies : list (path * path) := Eval vm_compute in
  [ (OsPath.join base_dir ["teacher_guide_microbit_1st_grade.md"],
     OsPath.join package_dir ["guides"; "teacher_guide_microbit_1st_grade.md"]);
    (OsPath.join base_dir ["teacher_guide_microbit_1st_grade.pdf"],
     OsPath.join package_dir ["guides"; "teacher_guide_microbit_1st_grade.pdf"]);
    (OsPath.join base_dir ["student_worksheet_microbit_1st_grade.md"],
     OsPath.join package_dir
       ["worksheets"; "student_worksheet_microbit_1st_grade.md"]);
    (OsPath.join base_dir ["student_worksheet_microbit_1st_grade.pdf"],
     OsPath.join package_dir
       ["worksheets"; "student_worksheet_microbit_1st_grade.pdf"]);
    (OsPath.join base_dir ["templates"; "makecode_smile_template.ts"],
     OsPath.join package_dir ["templates"; "makecode_smile_template.ts"]);
    (OsPath.join base_dir ["templates"; "microbit_smile_template.py"],
     OsPath.join package_dir ["templates"; "microbit_smile_template.py"]);
    (OsPath.join base_dir ["templates"; "README_generate_hex.md"],
     OsPath.join package_dir ["resources"; "README_generate_hex.md"]) ].

Definition qrcodes_dir : path :=
  Eval vm_compute in OsPath.join base_dir ["qrcodes"].

Definition readme_content : string :=
"# 小学校1年生 プログラミング授業パッケージ
## タブレット＋micro:bit

### 📂 ファイル構成

- **guides/** — 教師向け完全指導案（Markdown/PDF）
- **worksheets/** — 児童用ワークシート（Markdown/PDF）
- **templates/** — MakeCode/MicroPython テンプレート
- **qrcodes/** — リソースへのQRコード（印刷用）
- **resources/** — .hex生成方法ガイド

### 🚀 使い方

1. **教師の準備**
   - `guides/teacher_guide_microbit_1st_grade.pdf` を印刷・確認
   - `templates/makecode_smile_template.ts` でMakeCode上に.hexを作成
   - `qrcodes/` のQR画像を印刷

2. **授業実施**
   - `worksheets/student_worksheet_microbit_1st_grade.pdf` を児童に配布
   - MakeCodeのQRコード（タブレット用）を提示

3. **micro:bit転送**
   - `resources/README_generate_hex.md` の手順に従う

### 📚 参考リンク（QRコード）
- MakeCode: `qrcodes/qr_makecode_new_project.png`
- micro:bit公式: `qrcodes/qr_microbit_official.png`

---

作成日：2026-01-30
".

Definition readme_path : path :=
  Eval vm_compute in OsPath.join package_dir ["README.md"].

Definition zip_path : path :=
  Eval vm_compute in OsPath.join base_dir [package_name +:+ ".zip"].

(** Create package directory, create subdirectories. *)
Definition create_directories : M unit :=
  Os.makedirs package_dir true ;;
  for_each dirs (fun d => Os.makedirs (OsPath.join package_dir [d]) true).

(** One turn of the loop over [copies]. *)
Definition copy_entry (entry : path * path) : M unit :=
  let '(src, dst) := entry in
  src_exists ← Os.path_exists src;
  if src_exists : bool
  then Shutil.copy2 src dst ;; print ("Copied: " +:+ OsPath.basename src)
  else print ("Not found: " +:+ OsPath.render src).

(** Copy files. *)
Definition copy_files : M unit := for_each copies copy_entry.

(** One turn of the loop over the entries of [qrcodes_dir]. *)
Definition copy_qr (file : string) : M unit :=
  if Str.endswith file ".png"
  then Shutil.copy2 (OsPath.join qrcodes_dir [file])
         (OsPath.join package_dir ["qrcodes"; file]) ;;
       print ("Copied QR: " +:+ file)
  else mret tt.

(** Copy QR codes. *)
Definition copy_qr_codes : M unit :=
  qr_exists ← Os.path_exists qrcodes_dir;
  if qr_exists : bool
  then files ← Os.listdir qrcodes_dir; for_each files copy_qr
  else mret tt.

(** Create README for package. *)
Definition create_readme : M unit :=
  Os.write_text readme_path readme_content ;;
  print "Created README.md".

(** Create ZIP, and the closing report. *)
Definition create_zip : M unit :=
  Shutil.make_archive (OsPath.splitext_root zip_path) base_dir [package_name] ;;
  print (Str.LF +:+ "✅ Package created: " +:+ OsPath.render zip_path) ;;
  size ← Os.path_getsize zip_path;
  print ("📦 Total size: " +:+ Str.format_kb size +:+ " KB").

Definition create_package : M unit :=
  create_directories ;;
  copy_files ;;
  copy_qr_codes ;;
  create_readme ;;
  create_zip.

(** ** Reasoning about computations *)

#[global] Arguments base_dir : simpl never.
#[global] Arguments package_dir : simpl never.
#[global] Arguments qrcodes_dir : simpl never.
#[global] Arguments readme_path : simpl never.
#[global] Arguments zip_path : simpl never.
#[global] Arguments copies : simpl never.

Section Monad.
Context {A B : Type}.

Lemma bind_unfold (m : M A) (f : A -> M B) w :
  (m ≫= f) w =
  match m w with
  | (w1, Ok a) => f a w1
  | (w1, Raise e) => (w1, Raise e)
  end.
Proof. reflexivity. Qed.

Lemma bind_ok (m : M A) (f : A -> M B) w w' b :
  (m ≫= f) w = (w', Ok b) <->
  exists w1 a, m w = (w1, Ok a) /\ f a w1 = (w', Ok b).
Proof.
  rewrite bind_unfold. destruct (m w) as [w1 [a|e]]; split.
  - intros H. by exists w1, a.
  - intros (? & ? & [= -> ->] & H). done.
  - discriminate.
  - intros (? & ? & [=] & _).
Qed.

Lemma bind_raise (m : M A) (f : A -> M B) w w' e :
  (m ≫= f) w = (w', Raise e) <->
  m w = (w', Raise e) \/
  exists w1 a, m w = (w1, Ok a) /\ f a w1 = (w', Raise e).
Proof.
  rewrite bind_unfold. destruct (m w) as [w1 [a|e1]]; split.
  - intros H. right. by exists w1, a.
  - intros [[=]|(? & ? & [= -> ->] & H)]. done.
  - intros [= -> ->]. by left.
  - intros [[= -> ->]|(? & ? & [=] & _)]. done.
Qed.

End Monad.

Lemma for_each_app {A} (l1 l2 : list A) (body : A -> M unit) w :
  for_each (l1 ++ l2) body w = (for_each l1 body ;; for_each l2 body) w.
Proof.
  revert w. induction l1 as [|x l1 IH]; intros w; simpl.
  - reflexivity.
  - rewrite !bind_unfold. destruct (body x w) as [w1 [[]|e]]; [|done].
    rewrite IH. by rewrite bind_unfold.
Qed.

(** *** What a computation may change

    [evolves T w w']: from [w] to [w'] only the paths of [T] were
    written, no node was removed or changed between file and
    directory, the console only grew, and the platform stayed as it
    was. *)

Definition same_kind (n n' : node) : Prop :=
  match n, n' with
  | Dir, Dir => True
  | File _ _, File _ _ => True
  | _, _ => False
  end.

Record evolves (T : path -> Prop) (w w' : world) : Prop := Evolves {
  ev_frame : forall q, ~ T q -> fs w' !! q = fs w !! q;
  ev_kind : forall q n, fs w !! q = Some n ->
            exists n', fs w' !! q = Some n' /\ same_kind n n';
  ev_denied : denied w' = denied w;
  ev_deflate : deflate w' = deflate w;
  ev_stdout : stdout w `prefix_of` stdout w'
}.

Lemma same_kind_refl n : same_kind n n.
Proof. by destruct n. Qed.

Lemma same_kind_trans n1 n2 n3 :
  same_kind n1 n2 -> same_kind n2 n3 -> same_kind n1 n3.
Proof. by destruct n1, n2, n3. Qed.

Lemma evolves_refl T w : evolves T w w.
Proof.
  split; try done. intros q n Hq. exists n. split; [done|apply same_kind_refl].
Qed.

Lemma evolves_trans T w1 w2 w3 :
  evolves T w1 w2 -> evolves T w2 w3 -> evolves T w1 w3.
Proof.
  intros [F1 K1 D1 Z1 S1] [F2 K2 D2 Z2 S2]. split.
  - intros q Hq. by rewrite F2, F1.
  - intros q n Hq. destruct (K1 q n Hq) as (n' & Hq' & Hk).
    destruct (K2 q n' Hq') as (n'' & Hq'' & Hk').
    exists n''. split; [done|]. by eapply same_kind_trans.
  - congruence.
  - congruence.
  - by etrans.
Qed.

Lemma evolves_weaken (T T' : path -> Prop) w w' :
  (forall q, T q -> T' q) -> evolves T w w' -> evolves T' w w'.
Proof.
  intros HT [F K D Z S]. split; try done.
  intros q Hq. apply F. intros HTq. apply Hq, HT, HTq.
Qed.

Lemma evolves_dir T w w' q :
  evolves T w w' -> fs w !! q = Some Dir -> fs w' !! q = Some Dir.
Proof.
  intros Hev Hq. destruct (ev_kind _ _ _ Hev q Dir Hq) as (n' & -> & Hk).
  by destruct n'.
Qed.

Lemma evolves_not_dir T w w' q :
  evolves T w w' -> ~ T q -> fs w !! q <> Some Dir -> fs w' !! q <> Some Dir.
Proof. intros Hev Hq Hn. by rewrite (ev_frame _ _ _ Hev q Hq). Qed.

Lemma evolves_store (T : path -> Prop) p n w :
  T p ->
  (forall n0, fs w !! p = Some n0 -> same_kind n0 n) ->
  evolves T w (store p n w).
Proof.
  intros HT Hk. split; simpl; try done.
  - intros q Hq. apply lookup_insert_ne. intros ->. done.
  - intros q n0 Hq. destruct (decide (p = q)) as [->|Hne].
    + exists n. rewrite lookup_insert_eq. split; [done|]. by apply Hk.
    + exists n0. rewrite lookup_insert_ne by done. split; [done|].
      apply same_kind_refl.
Qed.

(** [preserves R m]: running [m] takes every world to an [R]-related
    one, whether it returns or raises. *)
Definition preserves {A} (R : relation world) (m : M A) : Prop :=
  forall w, R w (m w).1.

Section Preserves.
Context {A B : Type} (R : relation world) `{!PreOrder R}.

Lemma preserves_ret (a : A) : preserves R (mret a).
Proof. intros w. simpl. reflexivity. Qed.

Lemma preserves_raise e : preserves R (@raise A e).
Proof. intros w. simpl. reflexivity. Qed.

Lemma preserves_pure (m : M A) : (forall w, (m w).1 = w) -> preserves R m.
Proof. intros Hm w. rewrite Hm. reflexivity. Qed.

Lemma preserves_bind (m : M A) (f : A -> M B) :
  preserves R m -> (forall a, preserves R (f a)) -> preserves R (m ≫= f).
Proof.
  intros Hm Hf w. rewrite bind_unfold. specialize (Hm w).
  destruct (m w) as [w1 [a|e]]; simpl in *; [|done].
  etrans; [done|]. apply Hf.
Qed.

Lemma preserves_catch (m : M A) (h : oserror -> M A) :
  preserves R m -> (forall e, preserves R (h e)) -> preserves R (catch m h).
Proof.
  intros Hm Hh w. unfold catch. specialize (Hm w).
  destruct (m w) as [w1 [a|e]]; simpl in *; [done|].
  etrans; [done|]. apply Hh.
Qed.

Lemma preserves_if (b : bool) (m1 m2 : M A) :
  preserves R m1 -> preserves R m2 -> preserves R (if b then m1 else m2).
Proof. by destruct b. Qed.

End Preserves.

Lemma preserves_for_each {A} R `{!PreOrder R} (l : list A) (body : A -> M unit) :
  (forall x, x ∈ l -> preserves R (body x)) -> preserves R (for_each l body).
Proof.
  induction l as [|x l IH]; intros Hb; simpl.
  - by apply preserves_ret.
  - apply preserves_bind; [done| |].
    + apply Hb. by left.
    + intros _. apply IH. intros y Hy. apply Hb. by right.
Qed.

Lemma preserves_weaken {A} (R R' : relation world) (m : M A) :
  (forall w w', R w w' -> R' w w') -> preserves R m -> preserves R' m.
Proof. intros HR Hm w. apply HR, Hm. Qed.

#[global] Instance evolves_preorder T : PreOrder (evolves T).
Proof.
  split.
  - intros w. apply evolves_refl.
  - intros w1 w2 w3. apply evolves_trans.
Qed.

Lemma respects_weaken {A} (T T' : path -> Prop) (m : M A) :
  (forall q, T q -> T' q) -> preserves (evolves T) m -> preserves (evolves T') m.
Proof. intros HT. apply preserves_weaken. intros w w'. by apply evolves_weaken. Qed.

Lemma print_evolves T line w : evolves T w (print line w).1.
Proof.
  split; simpl; try done.
  - intros q n Hq. exists n. split; [done|apply same_kind_refl].
  - by apply prefix_app_r.
Qed.

(** Reads leave the world as it is. *)
Lemma path_exists_pure p w : (Os.path_exists p w).1 = w.
Proof. reflexivity. Qed.

Lemma path_isdir_pure p w : (Os.path_isdir p w).1 = w.
Proof. reflexivity. Qed.

Lemma listdir_pure d w : (Os.listdir d w).1 = w.
Proof. unfold Os.listdir. by destruct (fs w !! d) as [[]|]. Qed.

Lemma path_getsize_pure p w : (Os.path_getsize p w).1 = w.
Proof. unfold Os.path_getsize. by destruct (fs w !! p) as [[]|]. Qed.

Lemma zip_walk_pure r t w : (Shutil.zip_walk r t w).1 = w.
Proof. unfold Shutil.zip_walk. by destruct (fs w !! t). Qed.

(** *** Paths *)

Lemma dirname_snoc (p : path) x : OsPath.dirname (p ++ [x]) = p.
Proof. apply removelast_last. Qed.

Lemma basename_snoc (p : path) x : OsPath.basename (p ++ [x]) = x.
Proof. apply last_last. Qed.

Lemma dirname_length (p : path) : p <> [] -> S (length (OsPath.dirname p)) = length p.
Proof.
  intros Hp. destruct (exists_last Hp) as (q & x & ->).
  rewrite dirname_snoc, length_app. simpl. lia.
Qed.

Lemma dirname_ne (p : path) : p <> [] -> OsPath.dirname p <> p.
Proof. intros Hp Heq. apply dirname_length in Hp. rewrite Heq in Hp. lia. Qed.


Lemma child_of_Some d q name :
  OsPath.child_of d q = Some name <-> q = d ++ [name].
Proof.
  unfold OsPath.child_of. destruct (reverse q) as [|x rd] eqn:Hr.
  - split; [done|]. intros ->. rewrite reverse_app in Hr. done.
  - assert (q = reverse rd ++ [x]) as ->.
    { rewrite <-(reverse_involutive q), Hr. by rewrite reverse_cons. }
    case_decide as Hd; split.
    + intros [= ->]. by rewrite Hd.
    + intros Heq. apply app_inj_tail in Heq as [_ ->]. done.
    + done.
    + intros Heq. apply app_inj_tail in Heq as [? _]. done.
Qed.

(** *** [os.mkdir], [os.makedirs] *)

Lemma mkdir_ok p w w' :
  Os.mkdir p w = (w', Ok tt) ->
  w' = store p Dir w /\ fs w !! p = None /\
  fs w !! OsPath.dirname p = Some Dir /\ p ∉ denied w.
Proof.
  unfold Os.mkdir. destruct (fs w !! p); [done|].
  destruct (fs w !! OsPath.dirname p) as [[]|]; [|done..].
  case_decide; [done|]. by intros [= <-].
Qed.

Lemma mkdir_raise p w w' e : Os.mkdir p w = (w', Raise e) -> w' = w.
Proof.
  unfold Os.mkdir. destruct (fs w !! p); [by intros [= <-]|].
  destruct (fs w !! OsPath.dirname p) as [[]|]; try by intros [= <-].
  case_decide; [by intros [= <-]|done].
Qed.

Lemma mkdir_raise_exists p w w' :
  Os.mkdir p w = (w', Raise FileExistsError) -> is_Some (fs w !! p).
Proof.
  unfold Os.mkdir. destruct (fs w !! p); [eauto|].
  destruct (fs w !! OsPath.dirname p) as [[]|]; try done.
  by case_decide.
Qed.

Lemma mkdir_exists p w n :
  fs w !! p = Some n -> Os.mkdir p w = (w, Raise FileExistsError).
Proof. unfold Os.mkdir. by intros ->. Qed.

Lemma mkdir_evolves p w : evolves (fun q => q = p) w (Os.mkdir p w).1.
Proof.
  destruct (Os.mkdir p w) as [w' [[]|e]] eqn:Hm; simpl.
  - apply mkdir_ok in Hm as (-> & Hp & _). apply evolves_store; [done|].
    intros n0. by rewrite Hp.
  - apply mkdir_raise in Hm as ->. apply evolves_refl.
Qed.

(** [adds_dirs w w']: new directories, and nothing else, were made. *)
Definition adds_dirs (w w' : world) : Prop :=
  forall q, fs w' !! q = fs w !! q \/ (fs w !! q = None /\ fs w' !! q = Some Dir).

#[global] Instance adds_dirs_preorder : PreOrder adds_dirs.
Proof.
  split.
  - intros w q. by left.
  - intros w1 w2 w3 H12 H23 q.
    destruct (H12 q) as [E1|[E1 E1']], (H23 q) as [E2|[E2 E2']].
    + left. congruence.
    + right. split; congruence.
    + right. split; congruence.
    + congruence.
Qed.

Lemma mkdir_adds_dirs p : preserves adds_dirs (Os.mkdir p).
Proof.
  intros w. destruct (Os.mkdir p w) as [w' [[]|e]] eqn:Hm; simpl.
  - apply mkdir_ok in Hm as (-> & Hp & _). intros q. simpl.
    destruct (decide (p = q)) as [->|Hne].
    + right. by rewrite lookup_insert_eq.
    + left. by rewrite lookup_insert_ne.
  - apply mkdir_raise in Hm as ->. reflexivity.
Qed.

Section Makedirs.

#[local] Arguments Os.makedirs_rev : simpl never.

(** The two legs of [makedirs_rev]. *)
Definition make_head (rname : list string) (exist_ok : bool) : M unit :=
  match rname with
  | _ :: (_ :: _) as rhead =>
      head_exists ← Os.path_exists (reverse rhead);
      if head_exists : bool then mret tt
      else catch (Os.makedirs_rev rhead exist_ok)
             (fun e => match e with
                       | FileExistsError => mret tt
                       | _ => raise e
                       end)
  | _ => mret tt
  end.

Definition make_leaf (name : path) (exist_ok : bool) : M unit :=
  catch (Os.mkdir name)
    (fun e =>
       isdir ← Os.path_isdir name;
       if negb exist_ok || negb isdir then raise e else mret tt).

Lemma makedirs_rev_unfold rname ok :
  Os.makedirs_rev rname ok =
  (make_head rname ok ;; make_leaf (reverse rname) ok).
Proof. by destruct rname. Qed.

Lemma make_leaf_preserves R `{!PreOrder R} name ok :
  preserves R (Os.mkdir name) -> preserves R (make_leaf name ok).
Proof.
  intros Hm. apply preserves_catch; [done..|]. intros e.
  apply preserves_bind; [done|by apply preserves_pure|].
  intros b. apply preserves_if; [by apply preserves_raise|by apply preserves_ret].
Qed.

Lemma makedirs_rev_preserves R `{!PreOrder R} rname ok :
  (forall k, k `suffix_of` rname -> preserves R (Os.mkdir (reverse k))) ->
  preserves R (Os.makedirs_rev rname ok).
Proof.
  induction rname as [|t rhead IH]; intros Hm.
  - rewrite makedirs_rev_unfold. apply preserves_bind; [done|by apply preserves_ret|].
    intros _. apply make_leaf_preserves; [done|]. by apply Hm.
  - rewrite makedirs_rev_unfold. apply preserves_bind; [done| |].
    + destruct rhead as [|t' r']; [by apply preserves_ret|].
      simpl. apply preserves_bind; [done|by apply preserves_pure|].
      intros b. apply preserves_if; [by apply preserves_ret|].
      apply preserves_catch; [done| |].
      * apply IH. intros k Hk. apply Hm. by apply suffix_cons_r.
      * intros []; by (apply preserves_ret || apply preserves_raise).
    + intros _. apply make_leaf_preserves; [done|]. by apply Hm.
Qed.

Lemma makedirs_evolves name ok :
  preserves (evolves (fun q => q `prefix_of` name)) (Os.makedirs name ok).
Proof.
  apply makedirs_rev_preserves; [apply _|]. intros k Hk w.
  eapply evolves_weaken; [|apply mkdir_evolves].
  intros q ->. simpl. destruct Hk as [k' Hk].
  apply (f_equal reverse) in Hk. rewrite reverse_involutive, reverse_app in Hk.
  rewrite Hk. by apply prefix_app_r.
Qed.

Lemma makedirs_adds_dirs name ok : preserves adds_dirs (Os.makedirs name ok).
Proof.
  apply makedirs_rev_preserves; [apply _|]. intros k _. apply mkdir_adds_dirs.
Qed.

Lemma make_leaf_ok name ok w w' :
  make_leaf name ok w = (w', Ok tt) ->
  fs w' !! name = Some Dir /\ evolves (fun q => q = name) w w'.
Proof.
  unfold make_leaf, catch. pose proof (mkdir_evolves name w) as Hev.
  destruct (Os.mkdir name w) as [w1 [[]|e]] eqn:Hm; simpl in Hev.
  - intros [= <-]. split; [|done].
    apply mkdir_ok in Hm as (-> & _). simpl. apply lookup_insert_eq.
  - rewrite bind_unfold. simpl.
    destruct ok; simpl; [|done].
    destruct (fs w1 !! name) as [[]|] eqn:Hn; simpl; try done.
    by intros [= <-].
Qed.

Lemma make_head_not_exists rname ok w w' :
  make_head rname ok w <> (w', Raise FileExistsError).
Proof.
  destruct rname as [|t [|t' r']]; simpl; try done.
  rewrite bind_unfold. simpl. case_bool_decide; [done|].
  unfold catch. destruct (Os.makedirs_rev _ _ _) as [w1 [[]|[]]]; done.
Qed.

Lemma makedirs_rev_raise_exists rname ok w w' :
  Os.makedirs_rev rname ok w = (w', Raise FileExistsError) ->
  is_Some (fs w' !! reverse rname).
Proof.
  rewrite makedirs_rev_unfold. intros [H|(w1 & [] & _ & H)]%bind_raise.
  { by apply make_head_not_exists in H. }
  revert H. unfold make_leaf, catch.
  destruct (Os.mkdir (reverse rname) w1) as [w2 [[]|e]] eqn:Hm; [done|].
  rewrite bind_unfold. simpl.
  destruct (negb ok || _); [|done]. intros [= -> ->].
  pose proof (mkdir_raise _ _ _ _ Hm) as ->.
  by apply mkdir_raise_exists in Hm.
Qed.

Lemma makedirs_rev_ok rname ok w w' :
  Os.makedirs_rev rname ok w = (w', Ok tt) ->
  fs w' !! reverse rname = Some Dir /\
  forall t rhead, rname = t :: rhead -> rhead <> [] ->
                  is_Some (fs w' !! reverse rhead).
Proof.
  rewrite makedirs_rev_unfold. intros (w1 & [] & Hh & Hl)%bind_ok.
  apply make_leaf_ok in Hl as [Hdir Hev]. split; [done|].
  intros t rhead -> Hne.
  assert (is_Some (fs w1 !! reverse rhead)) as [n Hn].
  { destruct rhead as [|t' r']; [done|]. revert Hh. simpl.
    rewrite bind_unfold. simpl. case_bool_decide as Hex; [by intros [= <-]|].
    unfold catch.
    destruct (Os.makedirs_rev (t' :: r') ok w) as [w2 [[]|e]] eqn:Hrec.
    - intros [= <-]. rewrite makedirs_rev_unfold in Hrec.
      apply bind_ok in Hrec as (w3 & [] & _ & Hl).
      apply make_leaf_ok in Hl as [-> _]. eauto.
    - destruct e; try done. intros [= <-].
      by apply makedirs_rev_raise_exists in Hrec. }
  destruct (ev_kind _ _ _ Hev _ _ Hn) as (n' & -> & _). eauto.
Qed.

Lemma makedirs_ok name ok w w' :
  Os.makedirs name ok w = (w', Ok tt) ->
  fs w' !! name = Some Dir /\
  (2 <= length name -> is_Some (fs w' !! OsPath.dirname name)).
Proof.
  unfold Os.makedirs. intros [Hd Hh]%makedirs_rev_ok.
  rewrite reverse_involutive in Hd. split; [done|]. intros Hlen.
  destruct (reverse name) as [|t rhead] eqn:Hr.
  { apply (f_equal length) in Hr. rewrite length_reverse in Hr. simpl in Hr. lia. }
  assert (name = reverse rhead ++ [t]) as Hname.
  { rewrite <-(reverse_involutive name), Hr. by rewrite reverse_cons. }
  rewrite Hname, dirname_snoc. apply (Hh t); [done|]. intros ->.
  rewrite Hname in Hlen. simpl in Hlen. lia.
Qed.

(** Making a directory that is there already changes nothing. *)
Lemma makedirs_noop name w :
  fs w !! name = Some Dir ->
  (2 <= length name -> is_Some (fs w !! OsPath.dirname name)) ->
  Os.makedirs name true w = (w, Ok tt).
Proof.
  intros Hd Hh. unfold Os.makedirs. rewrite makedirs_rev_unfold.
  assert (make_head (reverse name) true w = (w, Ok tt)) as Hhead.
  { destruct (reverse name) as [|t [|t' r']] eqn:Hr; try done.
    assert (name = reverse (t' :: r') ++ [t]) as Hname.
    { rewrite <-(reverse_involutive name), Hr. by rewrite reverse_cons. }
    simpl. rewrite bind_unfold. simpl. rewrite bool_decide_eq_true_2; [done|].
    rewrite Hname, dirname_snoc in Hh. apply Hh.
    rewrite length_app, length_reverse. simpl. lia. }
  rewrite bind_unfold, Hhead, reverse_involutive.
  unfold make_leaf, catch. rewrite (mkdir_exists _ _ _ Hd).
  rewrite bind_unfold. simpl. by rewrite Hd.
Qed.

End Makedirs.

(** *** Writing and copying files *)

Lemma write_file_ok p c w w' :
  Os.write_file p c w = (w', Ok tt) ->
  exists m, w' = store p (File c m) w /\ (p ∉ denied w) /\
            fs w !! p <> Some Dir /\
            (is_Some (fs w !! p) \/ fs w !! OsPath.dirname p = Some Dir).
Proof.
  unfold Os.write_file. destruct (fs w !! p) as [[|c0 m0]|] eqn:Hp; [done| |].
  - case_decide; [done|]. destruct (writable m0); [|done].
    intros [= <-]. eauto 10.
  - destruct (fs w !! OsPath.dirname p) as [[]|]; [|done..].
    case_decide; [done|]. intros [= <-]. eauto 10.
Qed.

(** What is written is a file that can be written again. *)
Lemma write_file_mode p c w w' :
  Os.write_file p c w = (w', Ok tt) ->
  exists m, fs w' !! p = Some (File c m) /\ writable m = true /\
            (forall c0 m0, fs w !! p = Some (File c0 m0) -> st_mode m = st_mode m0).
Proof.
  unfold Os.write_file. destruct (fs w !! p) as [[|c0 m0]|] eqn:Hp; [done| |].
  - case_decide; [done|]. destruct (writable m0) eqn:Hm; [|done].
    intros [= <-]. eexists. cbn [store fs]. rewrite lookup_insert_eq.
    split; [done|]. split; [done|]. by intros ? ? [= _ <-].
  - destruct (fs w !! OsPath.dirname p) as [[]|]; [|done..].
    case_decide; [done|]. intros [= <-]. eexists. cbn [store fs].
    rewrite lookup_insert_eq. done.
Qed.

Lemma write_file_raise p c w w' e :
  Os.write_file p c w = (w', Raise e) -> w' = w.
Proof.
  unfold Os.write_file. destruct (fs w !! p) as [[|c0 m0]|].
  - by intros [= <-].
  - case_decide; [by intros [= <-]|]. destruct (writable m0); [done|].
    by intros [= <-].
  - destruct (fs w !! OsPath.dirname p) as [[]|]; try by intros [= <-].
    case_decide; [by intros [= <-]|done].
Qed.

Lemma write_file_over p c c0 m0 w :
  fs w !! p = Some (File c0 m0) -> p ∉ denied w -> writable m0 = true ->
  Os.write_file p c w =
  (store p (File c (Stat (st_mode m0) (clock w))) w, Ok tt).
Proof.
  intros Hp Hd Hm. unfold Os.write_file. rewrite Hp, Hm. by rewrite decide_False.
Qed.

(** A read-only file is not written. *)
Lemma write_file_locked p c c0 m0 w :
  fs w !! p = Some (File c0 m0) -> writable m0 = false ->
  Os.write_file p c w = (w, Raise PermissionError).
Proof.
  intros Hp Hm. unfold Os.write_file. rewrite Hp, Hm. by case_decide.
Qed.

Lemma write_file_evolves p c w :
  evolves (fun q => q = p) w (Os.write_file p c w).1.
Proof.
  destruct (Os.write_file p c w) as [w' [[]|e]] eqn:Hw; simpl.
  - apply write_file_ok in Hw as (m & -> & _ & Hnd & _).
    apply evolves_store; [done|]. intros [] Hn; done.
  - apply write_file_raise in Hw as ->. apply evolves_refl.
Qed.

Lemma copystat_evolves src dst w :
  evolves (fun q => q = dst) w (Shutil.copystat src dst w).1.
Proof.
  unfold Shutil.copystat.
  destruct (fs w !! src) as [[|c m]|], (fs w !! dst) as [[|c' m']|] eqn:Hd;
    simpl; try apply evolves_refl.
  split; simpl; try done.
  - intros q Hq. apply lookup_insert_ne. intros ->. done.
  - intros q n Hq. destruct (decide (dst = q)) as [->|Hne].
    + rewrite lookup_insert_eq. eexists. split; [done|].
      rewrite Hd in Hq. by injection Hq as <-.
    + rewrite lookup_insert_ne by done. exists n. split; [done|].
      apply same_kind_refl.
Qed.

(** Where [copy2] puts the file. *)
Definition copy2_dst (w : world) (src dst : path) : path :=
  match fs w !! dst with
  | Some Dir => OsPath.join dst [OsPath.basename src]
  | _ => dst
  end.

Lemma copy2_unfold src dst w :
  Shutil.copy2 src dst w =
  (let t := copy2_dst w src dst in
   Shutil.copyfile src t ;; Shutil.copystat src t ;; mret t) w.
Proof.
  unfold Shutil.copy2, copy2_dst. rewrite bind_unfold. simpl.
  by destruct (fs w !! dst) as [[]|].
Qed.

Lemma copy2_ok src dst w w' t :
  Shutil.copy2 src dst w = (w', Ok t) ->
  t = copy2_dst w src dst /\
  exists c m, fs w !! src = Some (File c m) /\
              fs w' !! src = Some (File c m) /\
              fs w' !! t = Some (File c m) /\
              (t ∉ denied w) /\ src <> t /\ fs w !! t <> Some Dir.
Proof.
  rewrite copy2_unfold. cbv zeta.
  intros (w1 & [] & Hcf & (w2 & [] & Hcs & [= -> <-])%bind_ok)%bind_ok.
  split; [done|]. set (t := copy2_dst w src dst) in *.
  revert Hcf. unfold Shutil.copyfile. case_decide as Hsame; [done|].
  destruct (fs w !! src) as [[|c m]|] eqn:Hsrc; [done| |done].
  intros (m1 & -> & Hden & Hnd & _)%write_file_ok.
  assert (src <> t) as Hne.
  { intros Heq. apply Hsame. split; [done|]. eauto. }
  revert Hcs. unfold Shutil.copystat. simpl.
  rewrite lookup_insert_ne by done. rewrite Hsrc, lookup_insert_eq.
  intros [= <-]. simpl. exists c, m.
  rewrite lookup_insert_ne by done. rewrite lookup_insert_ne by done.
  rewrite lookup_insert_eq. done.
Qed.

Lemma copyfile_evolves src t w :
  evolves (fun q => q = t) w (Shutil.copyfile src t w).1.
Proof.
  unfold Shutil.copyfile. case_decide; [apply evolves_refl|].
  destruct (fs w !! src) as [[]|]; try apply evolves_refl.
  apply write_file_evolves.
Qed.

Lemma copy2_evolves src dst w :
  evolves (fun q => q = copy2_dst w src dst) w (Shutil.copy2 src dst w).1.
Proof.
  rewrite copy2_unfold. cbv zeta. set (t := copy2_dst w src dst).
  rewrite bind_unfold. pose proof (copyfile_evolves src t w) as H1.
  destruct (Shutil.copyfile src t w) as [w1 [[]|e]]; simpl in *; [|done].
  rewrite bind_unfold. pose proof (copystat_evolves src t w1) as H2.
  destruct (Shutil.copystat src t w1) as [w2 [[]|e]]; simpl in *;
    by etrans.
Qed.

Lemma copy2_dst_cases w src dst :
  copy2_dst w src dst = dst \/
  copy2_dst w src dst = dst ++ [OsPath.basename src].
Proof. unfold copy2_dst. destruct (fs w !! dst) as [[]|]; auto. Qed.

(** *** Directory listings *)

Lemma listdir_ok d w w' names :
  Os.listdir d w = (w', Ok names) ->
  w' = w /\ fs w !! d = Some Dir /\
  names = omap (OsPath.child_of d) (elements (dom (fs w))).
Proof.
  unfold Os.listdir. destruct (fs w !! d) as [[]|]; [|done..].
  by intros [= <- <-].
Qed.

Lemma elem_of_listing (d : path) (m : gmap path node) (name : string) :
  name ∈ omap (OsPath.child_of d) (elements (dom m)) <->
  is_Some (m !! (d ++ [name])).
Proof.
  rewrite list_elem_of_omap. split.
  - intros (q & Hq & ->%child_of_Some). by apply elem_of_elements, elem_of_dom in Hq.
  - intros Hq. exists (d ++ [name]). split.
    + by apply elem_of_elements, elem_of_dom.
    + by apply child_of_Some.
Qed.

Lemma NoDup_listing (d : path) (m : gmap path node) :
  NoDup (omap (OsPath.child_of d) (elements (dom m))).
Proof.
  assert (forall l : list path, NoDup l -> NoDup (omap (OsPath.child_of d) l)) as H.
  { induction 1 as [|q l Hq Hl IH]; simpl; [constructor|].
    destruct (OsPath.child_of d q) as [name|] eqn:Hc; [|done].
    constructor; [|done]. rewrite list_elem_of_omap.
    intros (q' & Hq' & Hc'). apply child_of_Some in Hc, Hc'. congruence. }
  apply H, NoDup_elements.
Qed.

(** ** The stages of [create_package] and what each may write *)

Definition qr_package_dir : path :=
  Eval vm_compute in OsPath.join package_dir ["qrcodes"].
#[global] Arguments qr_package_dir : simpl never.

(** Where a manifest entry can land: its destination, or below it when
    the destination is a directory. *)
Definition entry_targets (entry : path * path) : list path :=
  [entry.2; entry.2 ++ [OsPath.basename entry.1]].

Definition qr_targets (file : string) : list path :=
  [qr_package_dir ++ [file]; qr_package_dir ++ [file; file]].

Definition T_dirs (q : path) : Prop :=
  Exists (fun d => q `prefix_of` package_dir ++ [d]) dirs.

Definition T_entries (l : list (path * path)) (q : path) : Prop :=
  q ∈ l ≫= entry_targets.

Definition T_qr (q : path) : Prop :=
  qr_package_dir `prefix_of` q /\ q <> qr_package_dir.

Definition T_readme (q : path) : Prop := q = readme_path.

Definition T_zip (q : path) : Prop := q `prefix_of` zip_path.

(** Everything a run may write. *)
Definition T_run (q : path) : Prop :=
  T_dirs q \/ T_entries copies q \/ T_qr q \/ T_readme q \/ T_zip q.

Ltac pres_ret := apply preserves_ret; apply _.
Ltac pres_raise := apply preserves_raise; apply _.
Ltac pres_pure :=
  apply preserves_pure;
  [apply _
  |first [done|apply listdir_pure|apply path_getsize_pure|apply zip_walk_pure]].
Ltac pres_bind := apply preserves_bind; [apply _| |intros ?].
Ltac pres_print := let w := fresh "w" in intros w; apply print_evolves.

Lemma create_directories_evolves : preserves (evolves T_dirs) create_directories.
Proof.
  pres_bind.
  - eapply respects_weaken; [|apply makedirs_evolves].
    intros q Hq. apply Exists_cons_hd. by apply prefix_app_r.
  - apply preserves_for_each; [apply _|]. intros d Hd.
    eapply respects_weaken; [|apply makedirs_evolves].
    intros q Hq. apply Exists_exists. by exists d.
Qed.

Lemma copy_entry_evolves entry w :
  evolves (fun q => q = copy2_dst w entry.1 entry.2) w (copy_entry entry w).1.
Proof.
  destruct entry as [src dst]. unfold copy_entry. rewrite bind_unfold. simpl.
  case_bool_decide; [|apply print_evolves].
  rewrite bind_unfold. pose proof (copy2_evolves src dst w) as Hc.
  destruct (Shutil.copy2 src dst w) as [w1 [t|e]]; simpl in *; [|done].
  etrans; [done|]. apply print_evolves.
Qed.

Lemma copy_entry_preserves entry :
  preserves (evolves (fun q => q ∈ entry_targets entry)) (copy_entry entry).
Proof.
  intros w. eapply evolves_weaken; [|apply copy_entry_evolves].
  intros q ->. unfold entry_targets.
  destruct (copy2_dst_cases w entry.1 entry.2) as [-> | ->]; set_solver.
Qed.

Lemma copy_entries_evolves l :
  preserves (evolves (T_entries l)) (for_each l copy_entry).
Proof.
  apply preserves_for_each; [apply _|]. intros e He.
  eapply respects_weaken; [|apply copy_entry_preserves].
  intros q Hq. unfold T_entries. apply list_elem_of_bind. by exists e.
Qed.

Lemma copy_qr_evolves file w :
  evolves (fun q => q = copy2_dst w (qrcodes_dir ++ [file]) (qr_package_dir ++ [file]))
    w (copy_qr file w).1.
Proof.
  unfold copy_qr. destruct (Str.endswith file ".png"); [|apply evolves_refl].
  rewrite bind_unfold.
  pose proof (copy2_evolves (qrcodes_dir ++ [file]) (qr_package_dir ++ [file]) w) as Hc.
  change (OsPath.join qrcodes_dir [file]) with (qrcodes_dir ++ [file]).
  change (OsPath.join package_dir ["qrcodes"; file]) with (qr_package_dir ++ [file]).
  destruct (Shutil.copy2 _ _ w) as [w1 [t|e]]; simpl in *; [|done].
  etrans; [done|]. apply print_evolves.
Qed.

Lemma copy2_dst_qr w file :
  copy2_dst w (qrcodes_dir ++ [file]) (qr_package_dir ++ [file]) ∈ qr_targets file.
Proof.
  unfold qr_targets.
  destruct (copy2_dst_cases w (qrcodes_dir ++ [file]) (qr_package_dir ++ [file]))
    as [-> | ->]; [set_solver|].
  rewrite basename_snoc, <-(assoc_L (++)). set_solver.
Qed.

Lemma qr_targets_T_qr file q : q ∈ qr_targets file -> T_qr q.
Proof.
  unfold qr_targets. intros [->|[->|[]%elem_of_nil]%elem_of_cons]%elem_of_cons.
  - split; [by exists [file]|]. intros H. by apply (f_equal length) in H.
  - split; [by exists [file; file]|]. intros H. by apply (f_equal length) in H.
Qed.

Lemma copy_qr_codes_evolves : preserves (evolves T_qr) copy_qr_codes.
Proof.
  pres_bind; [pres_pure|].
  apply preserves_if; [|pres_ret].
  pres_bind; [pres_pure|].
  apply preserves_for_each; [apply _|]. intros file _ w.
  eapply evolves_weaken; [|apply copy_qr_evolves].
  intros q ->. eapply qr_targets_T_qr, copy2_dst_qr.
Qed.

Lemma create_readme_evolves : preserves (evolves T_readme) create_readme.
Proof.
  pres_bind; [|pres_print].
  intros w. apply write_file_evolves.
Qed.

Lemma zip_close_evolves p members w :
  evolves (fun q => q = p) w (Shutil.zip_close p members w).1.
Proof.
  unfold Shutil.zip_close. destruct (fs w !! p) as [[|c m]|] eqn:Hp;
    simpl; try apply evolves_refl.
  apply evolves_store; [done|]. intros n0. rewrite Hp. by intros [= <-].
Qed.

Lemma make_archive_evolves base_name root_dir base :
  preserves (evolves (fun q => q `prefix_of` OsPath.add_suffix base_name ".zip" \/
                               q `prefix_of` OsPath.dirname base_name))
    (Shutil.make_archive base_name root_dir base).
Proof.
  unfold Shutil.make_archive.
  pres_bind; [pres_pure|].
  pres_bind; [apply preserves_if; [pres_ret|pres_raise]|].
  pres_bind; [pres_pure|].
  pres_bind.
  { apply preserves_if; [|pres_ret].
    eapply respects_weaken; [|apply makedirs_evolves]. by right. }
  pres_bind.
  { intros w. eapply evolves_weaken; [|apply write_file_evolves].
    intros q ->. by left. }
  pres_bind; [pres_pure|].
  pres_bind; [|pres_ret].
  intros w. eapply evolves_weaken; [|apply zip_close_evolves].
  intros q ->. by left.
Qed.

Lemma zip_filename_eq :
  OsPath.add_suffix (OsPath.splitext_root zip_path) ".zip" = zip_path.
Proof. reflexivity. Qed.

Lemma archive_dir_eq : OsPath.dirname (OsPath.splitext_root zip_path) = base_dir.
Proof. reflexivity. Qed.

Lemma create_zip_evolves : preserves (evolves T_zip) create_zip.
Proof.
  pres_bind.
  { eapply respects_weaken; [|apply make_archive_evolves].
    rewrite zip_filename_eq, archive_dir_eq. intros q [Hq|Hq]; [done|].
    unfold T_zip. etrans; [done|]. by exists ["microbit_1st_grade_lesson_package.zip"]. }
  pres_bind; [pres_print|].
  pres_bind; [pres_pure|pres_print].
Qed.

Lemma create_package_evolves : preserves (evolves T_run) create_package.
Proof.
  unfold create_package, T_run.
  pres_bind.
  { eapply respects_weaken; [|apply create_directories_evolves]. tauto. }
  pres_bind.
  { eapply respects_weaken; [|apply copy_entries_evolves]. tauto. }
  pres_bind.
  { eapply respects_weaken; [|apply copy_qr_codes_evolves]. tauto. }
  pres_bind.
  { eapply respects_weaken; [|apply create_readme_evolves]. tauto. }
  eapply respects_weaken; [|apply create_zip_evolves]. tauto.
Qed.

(** The stages of a run that returns. *)
Lemma create_package_ok w w' :
  create_package w = (w', Ok tt) <->
  exists w1 w2 w3 w4,
    create_directories w = (w1, Ok tt) /\
    copy_files w1 = (w2, Ok tt) /\
    copy_qr_codes w2 = (w3, Ok tt) /\
    create_readme w3 = (w4, Ok tt) /\
    create_zip w4 = (w', Ok tt).
Proof.
  unfold create_package. split.
  - intros (w1 & [] & H1 & (w2 & [] & H2 & (w3 & [] & H3 &
      (w4 & [] & H4 & H5)%bind_ok)%bind_ok)%bind_ok)%bind_ok.
    by exists w1, w2, w3, w4.
  - intros (w1 & w2 & w3 & w4 & H1 & H2 & H3 & H4 & H5).
    apply bind_ok. exists w1, tt. split; [done|].
    apply bind_ok. exists w2, tt. split; [done|].
    apply bind_ok. exists w3, tt. split; [done|].
    apply bind_ok. exists w4, tt. done.
Qed.

(** *** The named paths keep apart *)

#[global] Instance T_dirs_dec q : Decision (T_dirs q).
Proof. unfold T_dirs. apply _. Defined.
#[global] Instance T_entries_dec l q : Decision (T_entries l q).
Proof. unfold T_entries. apply _. Defined.
#[global] Instance T_qr_dec q : Decision (T_qr q).
Proof. unfold T_qr. apply _. Defined.
#[global] Instance T_readme_dec q : Decision (T_readme q).
Proof. unfold T_readme. apply _. Defined.
#[global] Instance T_zip_dec q : Decision (T_zip q).
Proof. unfold T_zip. apply _. Defined.
#[global] Instance T_run_dec q : Decision (T_run q).
Proof. unfold T_run. apply _. Defined.

(** The other entries of the manifest. *)
Definition others (entry : path * path) : list (path * path) :=
  filter (fun e => e <> entry) copies.

(** No stage writes the source of a manifest entry, and only the entry's
    own turn writes where it lands. *)
Definition entry_clear (entry : path * path) : Prop :=
  ~ T_run entry.1 /\
  Forall (fun t => ~ T_dirs t /\ ~ T_entries (others entry) t /\
                   ~ T_qr t /\ ~ T_readme t /\ ~ T_zip t)
    (entry_targets entry).

#[global] Instance entry_clear_dec e : Decision (entry_clear e).
Proof. unfold entry_clear. apply _. Defined.

Lemma copies_clear : Forall entry_clear copies.
Proof. compute_done. Qed.

Lemma copies_NoDup : NoDup copies.
Proof. compute_done. Qed.

(** *** The console *)

(** [silent w w']: nothing was printed. *)
Definition silent (w w' : world) : Prop := stdout w' = stdout w.

#[global] Instance silent_preorder : PreOrder silent.
Proof. split; [done|]. intros w1 w2 w3. unfold silent. congruence. Qed.

Lemma mkdir_silent p : preserves silent (Os.mkdir p).
Proof.
  intros w. destruct (Os.mkdir p w) as [w' [[]|e]] eqn:Hm; simpl.
  - by apply mkdir_ok in Hm as (-> & _).
  - by apply mkdir_raise in Hm as ->.
Qed.

Lemma makedirs_silent name ok : preserves silent (Os.makedirs name ok).
Proof.
  apply makedirs_rev_preserves; [apply _|]. intros k _. apply mkdir_silent.
Qed.

Lemma write_file_silent p c : preserves silent (Os.write_file p c).
Proof.
  intros w. destruct (Os.write_file p c w) as [w' [[]|e]] eqn:Hw; simpl.
  - by apply write_file_ok in Hw as (m & -> & _).
  - by apply write_file_raise in Hw as ->.
Qed.

Lemma copy2_silent src dst : preserves silent (Shutil.copy2 src dst).
Proof.
  intros w. rewrite copy2_unfold. cbv zeta.
  generalize (copy2_dst w src dst). intros t. revert w.
  change (preserves silent (Shutil.copyfile src t ;; Shutil.copystat src t ;; mret t)).
  pres_bind; [|pres_bind; [|pres_ret]].
  - intros w. unfold Shutil.copyfile. case_decide; [done|].
    destruct (fs w !! src) as [[]|]; try done. apply write_file_silent.
  - intros w. unfold Shutil.copystat.
    by destruct (fs w !! src) as [[]|], (fs w !! t) as [[]|].
Qed.

Lemma create_directories_silent : preserves silent create_directories.
Proof.
  pres_bind; [apply makedirs_silent|].
  apply preserves_for_each; [apply _|]. intros d _. apply makedirs_silent.
Qed.

Lemma make_archive_silent b r d : preserves silent (Shutil.make_archive b r d).
Proof.
  unfold Shutil.make_archive.
  pres_bind; [pres_pure|].
  pres_bind; [apply preserves_if; [pres_ret|pres_raise]|].
  pres_bind; [pres_pure|].
  pres_bind; [apply preserves_if; [apply makedirs_silent|pres_ret]|].
  pres_bind; [apply write_file_silent|].
  pres_bind; [pres_pure|].
  pres_bind; [|pres_ret].
  intros w. unfold Shutil.zip_close. by destruct (fs w !! _) as [[]|].
Qed.

(** The lines a loop prints are those of its turns. *)
Lemma for_each_split {A} (l1 l2 : list A) x (body : A -> M unit) w w' :
  for_each (l1 ++ x :: l2) body w = (w', Ok tt) ->
  exists u u', for_each l1 body w = (u, Ok tt) /\
               body x u = (u', Ok tt) /\
               for_each l2 body u' = (w', Ok tt).
Proof.
  rewrite for_each_app. intros (u & [] & H1 & H2)%bind_ok.
  simpl in H2. apply bind_ok in H2 as (u' & [] & H2 & H3). eauto.
Qed.

Lemma for_each_out {A} (l : list A) (body : A -> M unit)
    (g : A -> list string) (I : world -> Prop) w w' :
  (forall x u u', x ∈ l -> I u -> body x u = (u', Ok tt) ->
                  I u' /\ stdout u' = stdout u ++ g x) ->
  I w -> for_each l body w = (w', Ok tt) ->
  I w' /\ stdout w' = stdout w ++ (l ≫= g).
Proof.
  revert w. induction l as [|x l IH]; intros w Hb HI; simpl.
  - intros [= <-]. by rewrite app_nil_r.
  - intros (u & [] & Hx & Hl)%bind_ok.
    destruct (Hb x w u) as [HIu Hout]; [by left|done..|].
    destruct (IH u) as [HI' Hout']; [|done..|].
    { intros y v v' Hy. apply Hb. by right. }
    split; [done|]. by rewrite Hout', Hout, <-(assoc_L (++)).
Qed.

(** *** The manifest loop *)

(** The line the loop prints for an entry. *)
Definition entry_line (w : world) (entry : path * path) : string :=
  match fs w !! entry.1 with
  | Some _ => "Copied: " +:+ OsPath.basename entry.1
  | None => "Not found: " +:+ OsPath.render entry.1
  end.

(** [entry_done w v entry]: in [v] the entry has been dealt with, as the
    sources stood in [w]. *)
Definition entry_done (w v : world) (entry : path * path) : Prop :=
  fs v !! entry.1 = fs w !! entry.1 /\
  match fs w !! entry.1 with
  | None => forall t, t ∈ entry_targets entry -> fs v !! t = fs w !! t
  | Some n =>
      exists c m, n = File c m /\
        fs v !! copy2_dst w entry.1 entry.2 = Some (File c m) /\
        (copy2_dst w entry.1 entry.2 ∉ denied w) /\
        entry.1 <> copy2_dst w entry.1 entry.2
  end.

Lemma copy2_dst_target w src dst : copy2_dst w src dst ∈ entry_targets (src, dst).
Proof.
  unfold entry_targets. simpl.
  destruct (copy2_dst_cases w src dst) as [-> | ->]; set_solver.
Qed.

Lemma copy2_dst_agree w v src dst :
  fs v !! dst = fs w !! dst -> copy2_dst v src dst = copy2_dst w src dst.
Proof. unfold copy2_dst. by intros ->. Qed.

Lemma entry_done_evolves (T : path -> Prop) w v v' entry :
  entry_done w v entry -> evolves T v v' ->
  ~ T entry.1 -> (forall t, t ∈ entry_targets entry -> ~ T t) ->
  entry_done w v' entry.
Proof.
  intros [Hsrc Hd] Hev Hs Ht. split.
  { by rewrite (ev_frame _ _ _ Hev _ Hs). }
  destruct (fs w !! entry.1) as [n|].
  - destruct Hd as (c & m & -> & Hv & Hden & Hne). exists c, m.
    split; [done|]. split; [|done].
    rewrite (ev_frame _ _ _ Hev); [done|].
    apply Ht. destruct entry. apply copy2_dst_target.
  - intros t Hin. rewrite (ev_frame _ _ _ Hev); [by apply Hd|by apply Ht].
Qed.

Lemma entry_done_rebase w0 w v entry :
  entry_done w v entry -> denied w = denied w0 ->
  fs w !! entry.1 = fs w0 !! entry.1 ->
  (forall t, t ∈ entry_targets entry -> fs w !! t = fs w0 !! t) ->
  entry_done w0 v entry.
Proof.
  intros [Hsrc Hd] Hden Hs Ht. unfold entry_done. rewrite <-Hs. split; [done|].
  assert (copy2_dst w0 entry.1 entry.2 = copy2_dst w entry.1 entry.2) as ->.
  { apply copy2_dst_agree. symmetry. apply Ht. unfold entry_targets. set_solver. }
  rewrite <-Hden. destruct (fs w !! entry.1); [done|].
  intros t Hin. rewrite <-Ht by done. by apply Hd.
Qed.

Lemma others_split l1 l2 entry q :
  copies = l1 ++ entry :: l2 ->
  T_entries l1 q \/ T_entries l2 q -> T_entries (others entry) q.
Proof.
  intros Hc Hq. unfold T_entries, others in *.
  pose proof copies_NoDup as Hnd. rewrite Hc in Hnd.
  apply NoDup_app in Hnd as (_ & Hl1 & [Hl2 _]%NoDup_cons).
  apply list_elem_of_bind.
  destruct Hq as [(e & Hin & He)%list_elem_of_bind|(e & Hin & He)%list_elem_of_bind];
    exists e; (split; [done|]); apply list_elem_of_filter.
  - split; [|rewrite Hc; set_solver]. intros ->. by apply (Hl1 entry); [|left].
  - split; [|rewrite Hc; set_solver]. by intros ->.
Qed.

Lemma copy_entry_done entry u u' :
  entry.1 ∉ entry_targets entry ->
  copy_entry entry u = (u', Ok tt) ->
  entry_done u u' entry /\ stdout u' = stdout u ++ [entry_line u entry].
Proof.
  destruct entry as [src dst]. unfold copy_entry, entry_done, entry_line.
  simpl. intros Hself. rewrite bind_unfold. simpl.
  destruct (fs u !! src) as [n|] eqn:Hsrc.
  - rewrite bool_decide_eq_true_2 by eauto.
    intros (u1 & t & Hc & [= <-])%bind_ok. simpl.
    pose proof (copy2_silent src dst u) as Hs. rewrite Hc in Hs. simpl in Hs.
    rewrite Hs. apply copy2_ok in Hc as (-> & c & m & Hs1 & Hs2 & Ht & Hden & Hne & _).
    rewrite Hsrc in Hs1. injection Hs1 as ->. rewrite Hs2. eauto 10.
  - rewrite bool_decide_eq_false_2 by (by intros [? ?]).
    intros [= <-]. simpl. rewrite Hsrc. done.
Qed.

Lemma copy_files_done w1 w2 entry :
  copy_files w1 = (w2, Ok tt) -> entry ∈ copies ->
  entry_done w1 w2 entry.
Proof.
  intros Hrun Hin. pose proof copies_clear as Hclear.
  rewrite Forall_forall in Hclear. destruct (Hclear _ Hin) as [Hsrc Htgt].
  rewrite Forall_forall in Htgt.
  apply list_elem_of_split in Hin as (l1 & l2 & Hc).
  unfold copy_files in Hrun. rewrite Hc in Hrun.
  apply for_each_split in Hrun as (u & u' & H1 & Hx & H2).
  pose proof (copy_entries_evolves l1 w1) as Hev1. rewrite H1 in Hev1.
  pose proof (copy_entries_evolves l2 u') as Hev2. rewrite H2 in Hev2.
  simpl in Hev1, Hev2.
  assert (forall q, T_entries l1 q \/ T_entries l2 q -> T_entries copies q) as Hsub.
  { intros q Hq. unfold T_entries in *. rewrite Hc.
    rewrite !list_elem_of_bind in Hq. apply list_elem_of_bind.
    destruct Hq as [(e & ? & ?)|(e & ? & ?)]; exists e; set_solver. }
  assert (~ T_entries l1 entry.1 /\ ~ T_entries l2 entry.1) as [Hs1 Hs2].
  { split; intros Hq; apply Hsrc; right; left; apply Hsub; auto. }
  assert (forall t, t ∈ entry_targets entry ->
                    ~ T_entries l1 t /\ ~ T_entries l2 t) as Ht.
  { intros t Hin. destruct (Htgt t Hin) as (_ & Ho & _).
    split; intros Hq; apply Ho; eapply others_split; eauto. }
  apply copy_entry_done in Hx as [Hdone _].
  2:{ intros Hself. apply Hsrc. right. left. unfold T_entries.
      apply list_elem_of_bind. exists entry. split; [done|]. rewrite Hc. set_solver. }
  eapply entry_done_evolves in Hdone; [|exact Hev2|done|by intros t Hin; apply Ht].
  eapply entry_done_rebase; [done|apply Hev1| |].
  - by rewrite (ev_frame _ _ _ Hev1).
  - intros t Hin. rewrite (ev_frame _ _ _ Hev1); [done|by apply Ht].
Qed.

(** *** Where a run writes *)

Lemma prefix_lookup_eq {A} (l1 l2 : list A) i :
  l1 `prefix_of` l2 -> (i < length l1)%nat -> l1 !! i = l2 !! i.
Proof. intros [k ->] Hi. by rewrite lookup_app_l. Qed.

(** A run writes inside the package directory and at the archive, and
    makes the directories above them that are missing. *)
Lemma T_run_shape q :
  T_run q ->
  (length q <= 4)%nat \/ q !! 4%nat = Some package_name \/ q = zip_path.
Proof.
  assert (forall l : path, l !! 4%nat = Some package_name -> q `prefix_of` l ->
            (length q <= 4)%nat \/ q !! 4%nat = Some package_name) as Hpre.
  { intros l Hl Hq. destruct (decide (length q <= 4)%nat); [by left|right].
    rewrite (prefix_lookup_eq q l) by (done || lia). done. }
  intros [Hd|[He|[Hq|[Hr|Hz]]]].
  - apply Exists_exists in Hd as (d & _ & Hd).
    destruct (Hpre _ (eq_refl : (package_dir ++ [d]) !! 4%nat = _) Hd); auto.
  - right. left.
    assert (Forall (fun t : path => t !! 4%nat = Some package_name)
              (copies ≫= entry_targets)) as Hall by compute_done.
    rewrite Forall_forall in Hall. by apply Hall.
  - destruct Hq as [Hq _].
    right. left. destruct Hq as [k ->]. done.
  - right. left. by rewrite Hr.
  - destruct (decide (length q <= 4)%nat); [by left|]. right. right.
    destruct Hz as [k Hk]. apply (f_equal length) in Hk as Hlen.
    rewrite length_app in Hlen. simpl in Hlen.
    assert (k = []) as -> by (destruct k; [done|simpl in Hlen; lia]).
    by rewrite app_nil_r in Hk.
Qed.

(** The sources of the QR scan are outside of that. *)
Lemma qr_source_clear file : ~ T_run (qrcodes_dir ++ [file]).
Proof. intros [H|[[=]|[=]]]%T_run_shape. simpl in H. lia. Qed.

Lemma qrcodes_dir_clear : ~ T_run qrcodes_dir.
Proof. compute_done. Qed.

Lemma T_qr_length q : T_qr q -> (7 <= length q)%nat.
Proof.
  intros [[k ->] Hne]. rewrite length_app. simpl.
  destruct k; [by rewrite app_nil_r in Hne|simpl; lia].
Qed.

Lemma T_qr_not_dirs q : T_qr q -> ~ T_dirs q.
Proof.
  intros Hq%T_qr_length (d & _ & Hd%prefix_length)%Exists_exists.
  rewrite length_app in Hd. simpl in Hd. lia.
Qed.

Lemma T_qr_not_entries q : T_qr q -> ~ T_entries copies q.
Proof.
  intros [Hq _]. revert q Hq.
  assert (Forall (fun t : path => ~ qr_package_dir `prefix_of` t)
            (copies ≫= entry_targets)) as Hall by compute_done.
  rewrite Forall_forall in Hall. intros q Hq Hin. by apply (Hall q).
Qed.

Lemma T_qr_not_readme q : T_qr q -> ~ T_readme q.
Proof. intros [Hq _] ->. revert Hq. compute_done. Qed.

Lemma T_qr_not_zip q : T_qr q -> ~ T_zip q.
Proof.
  intros Hq%T_qr_length Hz%prefix_length. simpl in Hz. lia.
Qed.

Lemma evolves_any T w w' : evolves T w w' -> evolves (fun _ => True) w w'.
Proof. by apply evolves_weaken. Qed.

(** *** The directories *)

Definition package_dirs : list path :=
  Eval vm_compute in package_dir :: ((fun d => package_dir ++ [d]) <$> dirs).

Lemma create_directories_ok w w1 :
  create_directories w = (w1, Ok tt) ->
  forall p, p ∈ package_dirs -> fs w1 !! p = Some Dir.
Proof.
  intros (wa & [] & Hpkg & Hsub)%bind_ok p Hp.
  assert (forall l, preserves (evolves (fun _ => True))
            (for_each l (fun d => Os.makedirs (OsPath.join package_dir [d]) true)))
    as Hev.
  { intros l. apply preserves_for_each; [apply _|]. intros d' _.
    eapply respects_weaken; [|apply makedirs_evolves]. done. }
  change package_dirs with (package_dir :: ((fun d => package_dir ++ [d]) <$> dirs)) in Hp.
  apply elem_of_cons in Hp as [->|(d & -> & Hd)%list_elem_of_fmap].
  - apply makedirs_ok in Hpkg as [Hdir _].
    specialize (Hev dirs wa). rewrite Hsub in Hev. by eapply evolves_dir.
  - apply list_elem_of_split in Hd as (l1 & l2 & Hl). rewrite Hl in Hsub.
    apply for_each_split in Hsub as (u & u' & _ & Hx & H2).
    apply makedirs_ok in Hx as [Hdir _].
    specialize (Hev l2 u'). rewrite H2 in Hev. by eapply evolves_dir.
Qed.

(** *** The README *)

Definition readme_bytes : string :=
  Eval vm_compute in Str.translate_newlines readme_content.

Lemma create_readme_ok w3 w4 :
  create_readme w3 = (w4, Ok tt) ->
  (exists m, fs w4 !! readme_path = Some (File (Raw readme_bytes) m)) /\
  (readme_path ∉ denied w3) /\
  stdout w4 = stdout w3 ++ ["Created README.md"].
Proof.
  intros (u & [] & Hw & [= <-])%bind_ok. simpl.
  unfold Os.write_text in Hw.
  apply write_file_ok in Hw as (m & -> & Hden & _). simpl.
  rewrite lookup_insert_eq. eauto.
Qed.

(** *** The QR scan *)

(** A turn of the QR loop copies like a manifest entry whose source is
    there. *)
Definition qr_entry (file : string) : path * path :=
  (qrcodes_dir ++ [file], qr_package_dir ++ [file]).

Definition qr_lines (file : string) : list string :=
  if Str.endswith file ".png" then ["Copied QR: " +:+ file] else [].

Definition T_files (l : list string) (q : path) : Prop := q ∈ l ≫= qr_targets.

Lemma entry_targets_qr file : entry_targets (qr_entry file) = qr_targets file.
Proof.
  unfold entry_targets, qr_entry, qr_targets. cbn [fst snd].
  by rewrite basename_snoc, <-(assoc_L (++)).
Qed.

Lemma qr_targets_inj f f' t : t ∈ qr_targets f -> t ∈ qr_targets f' -> f = f'.
Proof.
  unfold qr_targets. rewrite !elem_of_cons, !elem_of_nil.
  intros [->|[->|[]]] [H|[H|[]]]; apply app_inv_head in H; congruence.
Qed.

Lemma copy_qr_files_evolves l :
  preserves (evolves (T_files l)) (for_each l copy_qr).
Proof.
  apply preserves_for_each; [apply _|]. intros file Hin w.
  eapply evolves_weaken; [|apply copy_qr_evolves].
  intros q ->. apply list_elem_of_bind. exists file. split; [|done].
  apply copy2_dst_qr.
Qed.

Lemma T_files_T_run l q : T_files l q -> T_run q.
Proof.
  intros (f & Hq & _)%list_elem_of_bind. right. right. left.
  by eapply qr_targets_T_qr.
Qed.

Lemma copy_qr_done file u u' :
  Str.endswith file ".png" = true ->
  copy_qr file u = (u', Ok tt) ->
  entry_done u u' (qr_entry file) /\
  stdout u' = stdout u ++ ["Copied QR: " +:+ file].
Proof.
  unfold copy_qr. intros ->.
  change (OsPath.join qrcodes_dir [file]) with (qrcodes_dir ++ [file]).
  change (OsPath.join package_dir ["qrcodes"; file]) with (qr_package_dir ++ [file]).
  intros (u1 & t & Hc & [= <-])%bind_ok. simpl.
  pose proof (copy2_silent (qrcodes_dir ++ [file]) (qr_package_dir ++ [file]) u) as Hs.
  rewrite Hc in Hs. simpl in Hs.
  rewrite Hs. split; [|done].
  apply copy2_ok in Hc as (-> & c & m & Hs1 & Hs2 & Ht & Hden & Hne & _).
  unfold entry_done, qr_entry. cbn [fst snd fs]. rewrite Hs1, Hs2. eauto 10.
Qed.

Lemma copy_qr_out file u u' :
  copy_qr file u = (u', Ok tt) -> stdout u' = stdout u ++ qr_lines file.
Proof.
  unfold qr_lines. destruct (Str.endswith file ".png") eqn:He.
  - intros H. by apply copy_qr_done in H as [_ ?].
  - unfold copy_qr. rewrite He. intros [= <-]. by rewrite app_nil_r.
Qed.

Lemma copy_qr_loop files w2 w3 :
  NoDup files ->
  for_each files copy_qr w2 = (w3, Ok tt) ->
  (forall file, file ∈ files -> Str.endswith file ".png" = true ->
                entry_done w2 w3 (qr_entry file)) /\
  stdout w3 = stdout w2 ++ (files ≫= qr_lines).
Proof.
  intros Hnd Hrun. split.
  - intros file Hin Hpng.
    apply list_elem_of_split in Hin as (l1 & l2 & ->).
    apply NoDup_app in Hnd as (_ & Hl1 & [Hl2 _]%NoDup_cons).
    apply for_each_split in Hrun as (u & u' & H1 & Hx & H2).
    pose proof (copy_qr_files_evolves l1 w2) as Hev1. rewrite H1 in Hev1.
    pose proof (copy_qr_files_evolves l2 u') as Hev2. rewrite H2 in Hev2.
    simpl in Hev1, Hev2.
    assert (forall l t, file ∉ l -> t ∈ qr_targets file -> ~ T_files l t) as Ht.
    { intros l t Hl Ht (f & Hf & Hfl)%list_elem_of_bind.
      by rewrite (qr_targets_inj _ _ _ Ht Hf) in Hl. }
    assert (forall l, ~ T_files l (qr_entry file).1) as Hs.
    { intros l Hq%T_files_T_run. by apply qr_source_clear in Hq. }
    apply copy_qr_done in Hx as [Hdone _]; [|done].
    eapply entry_done_evolves in Hdone; [|exact Hev2|apply Hs|].
    2:{ intros t. rewrite entry_targets_qr. by apply Ht. }
    eapply entry_done_rebase; [done|apply Hev1| |].
    + rewrite (ev_frame _ _ _ Hev1); [done|apply Hs].
    + intros t. rewrite entry_targets_qr. intros Hin.
      rewrite (ev_frame _ _ _ Hev1); [done|]. apply Ht; [|done].
      intros Hf. by apply (Hl1 file); [|left].
  - eapply (for_each_out files copy_qr qr_lines (fun _ => True)); [|done..].
    intros x u u' _ _ Hx. split; [done|]. by apply copy_qr_out.
Qed.

(** The entries of the QR directory in [w]. *)
Definition qr_listing (w : world) : list string :=
  omap (OsPath.child_of qrcodes_dir) (elements (dom (fs w))).

Lemma copy_qr_codes_ok w2 w3 :
  copy_qr_codes w2 = (w3, Ok tt) ->
  match fs w2 !! qrcodes_dir with
  | None => w3 = w2
  | Some n =>
      n = Dir /\
      (forall file, is_Some (fs w2 !! (qrcodes_dir ++ [file])) ->
                    Str.endswith file ".png" = true ->
                    entry_done w2 w3 (qr_entry file)) /\
      stdout w3 = stdout w2 ++ (qr_listing w2 ≫= qr_lines)
  end.
Proof.
  unfold copy_qr_codes. rewrite bind_unfold. simpl.
  destruct (fs w2 !! qrcodes_dir) as [n|] eqn:Hq.
  - rewrite bool_decide_eq_true_2 by eauto.
    intros (u & files & Hls & Hloop)%bind_ok.
    apply listdir_ok in Hls as (-> & Hdir & ->).
    rewrite Hq in Hdir. injection Hdir as ->. split; [done|].
    apply copy_qr_loop in Hloop as [Hdone Hout]; [|apply NoDup_listing].
    split; [|done]. intros file Hf. apply Hdone. by apply elem_of_listing.
  - rewrite bool_decide_eq_false_2 by (by intros [? ?]). by intros [= <-].
Qed.

(** *** What the completed stages leave behind *)

Definition T_after_dirs (q : path) : Prop :=
  T_entries copies q \/ T_qr q \/ T_readme q \/ T_zip q.
Definition T_after_files (q : path) : Prop := T_qr q \/ T_readme q \/ T_zip q.
Definition T_after_qr (q : path) : Prop := T_readme q \/ T_zip q.

Lemma entry_clear_of entry :
  entry ∈ copies ->
  ~ T_run entry.1 /\
  forall t, t ∈ entry_targets entry ->
            ~ T_dirs t /\ ~ T_entries (others entry) t /\
            ~ T_qr t /\ ~ T_readme t /\ ~ T_zip t.
Proof.
  intros Hin. pose proof copies_clear as Hclear.
  rewrite Forall_forall in Hclear. destruct (Hclear _ Hin) as [Hsrc Htgt].
  by rewrite Forall_forall in Htgt.
Qed.

Lemma entries_kept w w1 w2 v entry :
  create_directories w = (w1, Ok tt) ->
  copy_files w1 = (w2, Ok tt) ->
  evolves T_after_files w2 v ->
  entry ∈ copies -> entry_done w v entry.
Proof.
  intros Hd Hc Hev Hin. destruct (entry_clear_of _ Hin) as [Hsrc Htgt].
  pose proof (create_directories_evolves w) as Hev0. rewrite Hd in Hev0.
  simpl in Hev0.
  pose proof (copy_files_done _ _ _ Hc Hin) as Hdone.
  eapply entry_done_evolves in Hdone; [|exact Hev| |].
  - eapply entry_done_rebase; [done|apply Hev0| |].
    + rewrite (ev_frame _ _ _ Hev0); [done|]. intros H. apply Hsrc. by left.
    + intros t Ht. rewrite (ev_frame _ _ _ Hev0); [done|]. by apply Htgt.
  - unfold T_after_files, T_run in *. tauto.
  - intros t Ht. destruct (Htgt t Ht) as (? & ? & ? & ? & ?).
    unfold T_after_files. tauto.
Qed.

(** What the QR scan has done, as the QR directory stood in [w]. *)
Definition qr_done (w v : world) : Prop :=
  match fs w !! qrcodes_dir with
  | None => True
  | Some n =>
      n = Dir /\
      forall file, is_Some (fs w !! (qrcodes_dir ++ [file])) ->
                   Str.endswith file ".png" = true ->
                   entry_done w v (qr_entry file)
  end.

Lemma qr_kept w w1 w2 w3 v :
  create_directories w = (w1, Ok tt) ->
  copy_files w1 = (w2, Ok tt) ->
  copy_qr_codes w2 = (w3, Ok tt) ->
  evolves T_after_qr w3 v ->
  qr_done w v.
Proof.
  intros Hd Hc Hq Hev.
  assert (evolves (fun q => T_dirs q \/ T_entries copies q) w w2) as Hev0.
  { pose proof (create_directories_evolves w) as H1. rewrite Hd in H1.
    pose proof (copy_entries_evolves copies w1) as H2.
    change (for_each copies copy_entry) with copy_files in H2. rewrite Hc in H2.
    etrans; (eapply evolves_weaken; [|done]); tauto. }
  assert (forall q, ~ T_run q -> fs w2 !! q = fs w !! q) as Hsame.
  { intros q Hq'. apply (ev_frame _ _ _ Hev0). unfold T_run in Hq'. tauto. }
  apply copy_qr_codes_ok in Hq. unfold qr_done.
  rewrite (Hsame _ qrcodes_dir_clear) in Hq.
  destruct (fs w !! qrcodes_dir) as [n|]; [|done].
  destruct Hq as (-> & Hdone & _). split; [done|]. intros file Hf Hpng.
  rewrite <-(Hsame _ (qr_source_clear file)) in Hf.
  specialize (Hdone file Hf Hpng).
  assert (forall t, t ∈ entry_targets (qr_entry file) -> T_qr t) as Ht.
  { intros t. rewrite entry_targets_qr. apply qr_targets_T_qr. }
  eapply entry_done_evolves in Hdone; [|exact Hev| |].
  - eapply entry_done_rebase; [done|apply Hev0|by apply Hsame, qr_source_clear|].
    intros t Hin%Ht. apply (ev_frame _ _ _ Hev0).
    intros [H|H]; [by eapply T_qr_not_dirs|by eapply T_qr_not_entries].
  - intros H. apply (qr_source_clear file). unfold T_after_qr, T_run in *.
    cbn [qr_entry fst] in H. tauto.
  - intros t Hin%Ht [H|H]; [by eapply T_qr_not_readme|by eapply T_qr_not_zip].
Qed.

Lemma readme_kept w3 w4 v :
  create_readme w3 = (w4, Ok tt) ->
  evolves T_zip w4 v ->
  exists m, fs v !! readme_path = Some (File (Raw readme_bytes) m).
Proof.
  intros [[m Hm] _]%create_readme_ok Hev. exists m.
  rewrite (ev_frame _ _ _ Hev); [done|]. compute_done.
Qed.

Lemma stage_evolves {A} (T : path -> Prop) (m : M A) w w' r :
  preserves (evolves T) m -> m w = (w', r) -> evolves T w w'.
Proof. intros Hm Hr. specialize (Hm w). by rewrite Hr in Hm. Qed.

(** A run that returns has been through all of it. *)
Lemma run_ok_kept w w' :
  create_package w = (w', Ok tt) ->
  (forall p, p ∈ package_dirs -> fs w' !! p = Some Dir) /\
  (forall entry, entry ∈ copies -> entry_done w w' entry) /\
  qr_done w w' /\
  (exists m, fs w' !! readme_path = Some (File (Raw readme_bytes) m)).
Proof.
  intros (w1 & w2 & w3 & w4 & H1 & H2 & H3 & H4 & H5)%create_package_ok.
  pose proof (stage_evolves _ _ _ _ _ (copy_entries_evolves copies) H2) as E2.
  pose proof (stage_evolves _ _ _ _ _ copy_qr_codes_evolves H3) as E3.
  pose proof (stage_evolves _ _ _ _ _ create_readme_evolves H4) as E4.
  pose proof (stage_evolves _ _ _ _ _ create_zip_evolves H5) as E5.
  assert (evolves T_after_qr w3 w') as E35.
  { etrans; (eapply evolves_weaken; [|done]); unfold T_after_qr; tauto. }
  assert (evolves T_after_files w2 w') as E25.
  { etrans; (eapply evolves_weaken; [|done]); unfold T_after_files, T_after_qr; tauto. }
  split; [|split; [|split]].
  - intros p Hp. eapply evolves_dir; [|by eapply create_directories_ok].
    etrans; [exact (evolves_any _ _ _ E2)|exact (evolves_any _ _ _ E25)].
  - intros entry Hin. by eapply entries_kept.
  - by eapply qr_kept.
  - by eapply readme_kept.
Qed.

(** *** What a run prints *)

Lemma copy_files_out w1 w2 :
  copy_files w1 = (w2, Ok tt) ->
  stdout w2 = stdout w1 ++ (entry_line w1 <$> copies).
Proof.
  intros Hrun.
  pose proof (for_each_out copies copy_entry (fun e => [entry_line w1 e])
                (fun u => evolves (T_entries copies) w1 u) w1 w2) as H.
  destruct H as [_ ->]; [|reflexivity|exact Hrun|].
  - intros e u u' Hin Hev Hx. split.
    + etrans; [exact Hev|].
      apply (stage_evolves _ (copy_entry e) u u' (Ok tt)); [|exact Hx].
      eapply respects_weaken; [|apply copy_entry_preserves].
      intros q Hq. apply list_elem_of_bind. by exists e.
    + destruct (entry_clear_of _ Hin) as [Hsrc _].
      apply copy_entry_done in Hx as [_ ->].
      * unfold entry_line. rewrite (ev_frame _ _ _ Hev); [done|].
        intros H. apply Hsrc. right. by left.
      * intros H. apply Hsrc. right. left. apply list_elem_of_bind. by exists e.
  - reflexivity.
Qed.

Definition archive_line : string :=
  Str.LF +:+ "✅ Package created: " +:+ OsPath.render zip_path.

Definition size_line (n : N) : string :=
  "📦 Total size: " +:+ Str.format_kb n +:+ " KB".

Lemma create_zip_out w4 w' :
  create_zip w4 = (w', Ok tt) ->
  exists n, stdout w' = stdout w4 ++ [archive_line; size_line n].
Proof.
  intros (u & p & Hz & (u1 & [] & [= <-] & (u2 & n & Hn & [= <-])%bind_ok)%bind_ok)%bind_ok.
  pose proof (path_getsize_pure zip_path
    (World (fs u) (denied u) (clock u) (stdout u ++ [archive_line]) (deflate u))) as Hp.
  change (Str.LF +:+ "✅ Package created: " +:+ OsPath.render zip_path)
    with archive_line in Hn.
  rewrite Hn in Hp. cbn [fst] in Hp. subst u2. exists n. cbn [stdout].
  pose proof (make_archive_silent (OsPath.splitext_root zip_path) base_dir
                [package_name] w4) as Hs.
  rewrite Hz in Hs. cbn [fst] in Hs. unfold silent in Hs.
  rewrite Hs, <-(assoc_L (++)). done.
Qed.

(** The lines of the QR scan: one per PNG entry of the directory. *)
Definition qr_out (files : list string) : list string := files ≫= qr_lines.

Lemma run_out w w' :
  create_package w = (w', Ok tt) ->
  exists files n,
    NoDup files /\
    (forall file, file ∈ files <->
       is_Some (fs w !! qrcodes_dir) /\ is_Some (fs w !! (qrcodes_dir ++ [file]))) /\
    stdout w' = stdout w ++ (entry_line w <$> copies) ++ qr_out files ++
                ["Created README.md"; archive_line; size_line n].
Proof.
  intros (w1 & w2 & w3 & w4 & H1 & H2 & H3 & H4 & H5)%create_package_ok.
  pose proof (stage_evolves _ _ _ _ _ create_directories_evolves H1) as E1.
  pose proof (stage_evolves _ _ _ _ _ (copy_entries_evolves copies) H2) as E2.
  assert (forall q, ~ T_run q -> fs w2 !! q = fs w !! q) as Hsame.
  { intros q Hq. rewrite (ev_frame _ _ _ E2), (ev_frame _ _ _ E1); [done|..];
      unfold T_run in Hq; tauto. }
  assert (entry_line w1 <$> copies = entry_line w <$> copies) as Hlines.
  { apply list_fmap_ext. intros i e Hi%list_elem_of_lookup_2.
    destruct (entry_clear_of _ Hi) as [Hsrc _]. unfold entry_line.
    rewrite (ev_frame _ _ _ E1); [done|]. unfold T_run in Hsrc. tauto. }
  pose proof (create_directories_silent w) as S1. rewrite H1 in S1.
  cbn [fst] in S1. unfold silent in S1.
  apply copy_files_out in H2. apply copy_qr_codes_ok in H3.
  apply create_readme_ok in H4 as (_ & _ & O4).
  apply create_zip_out in H5 as (n & O5).
  rewrite (Hsame _ qrcodes_dir_clear) in H3.
  destruct (fs w !! qrcodes_dir) as [nd|] eqn:Hq.
  - destruct H3 as (_ & _ & O3). exists (qr_listing w2), n.
    split; [apply NoDup_listing|]. split.
    + intros file. unfold qr_listing. rewrite elem_of_listing.
      rewrite (Hsame _ (qr_source_clear file)). split; [|tauto]. eauto.
    + rewrite O5, O4, O3, H2, S1, Hlines. simpl.
      by rewrite <-!(assoc_L (++)).
  - subst w3. exists [], n. split; [constructor|]. split.
    + intros file. split; [by intros ?%elem_of_nil|]. by intros [[? ?] _].
    + rewrite O5, O4, H2, S1, Hlines. simpl. by rewrite <-!(assoc_L (++)).
Qed.

(** *** Well-formed volumes, and what a run printed *)

Definition is_dir (w : world) (p : path) : bool :=
  match fs w !! p with
  | Some Dir => true
  | _ => false
  end.

(** Every node but the root sits in a directory. *)
Definition wf (w : world) : Prop :=
  map_Forall (fun q _ => q <> [] -> is_dir w (OsPath.dirname q) = true) (fs w).

#[global] Instance wf_dec w : Decision (wf w).
Proof. unfold wf. apply _. Defined.

Lemma wf_parent w q n :
  wf w -> fs w !! q = Some n -> q <> [] -> fs w !! OsPath.dirname q = Some Dir.
Proof.
  intros Hwf Hq Hne. specialize (Hwf q n Hq Hne). unfold is_dir in Hwf.
  by destruct (fs w !! OsPath.dirname q) as [[]|].
Qed.

(** The lines printed between [w] and [w']. *)
Definition printed (w w' : world) : list string :=
  drop (length (stdout w)) (stdout w').

Definition count_lines (line : string) (out : list string) : nat :=
  length (filter (fun l => l = line) out).

Lemma printed_app w w' out : stdout w' = stdout w ++ out -> printed w w' = out.
Proof. unfold printed. intros ->. by rewrite drop_app_length. Qed.

Lemma count_lines_app line l1 l2 :
  count_lines line (l1 ++ l2) = (count_lines line l1 + count_lines line l2)%nat.
Proof. unfold count_lines. by rewrite filter_app, length_app. Qed.

Lemma count_lines_none line l :
  Forall (fun l' => l' <> line) l -> count_lines line l = 0%nat.
Proof.
  unfold count_lines. induction 1 as [|x l Hx Hl IH]; [done|].
  by rewrite filter_cons_False.
Qed.

(** ** Example volumes *)

Definition volume (nodes : list (path * node)) : world :=
  World (list_to_map nodes) ∅ 100 [] (fun _ => 2048%N).

Definition home : list (path * node) :=
  [([], Dir); (["c:"], Dir); (["c:"; "Users"], Dir);
   (["c:"; "Users"; "atchy"], Dir); (base_dir, Dir)].

Definition guide_src : path :=
  Eval vm_compute in base_dir ++ ["teacher_guide_microbit_1st_grade.md"].
Definition guide_dst : path :=
  Eval vm_compute in package_dir ++ ["guides"; "teacher_guide_microbit_1st_grade.md"].
Definition guide_pdf_src : path :=
  Eval vm_compute in base_dir ++ ["teacher_guide_microbit_1st_grade.pdf"].
Definition guide_pdf_dst : path :=
  Eval vm_compute in package_dir ++ ["guides"; "teacher_guide_microbit_1st_grade.pdf"].

Definition guide : node := File (Raw "# Teacher guide") (Stat 420 7).
Definition qr_a : node := File (Raw "PNG qr_a") (Stat 420 3).

(** The guide as Markdown but not yet as PDF, and one QR image. *)
Definition w_lesson : world :=
  volume (home ++ [(guide_src, guide); (qrcodes_dir, Dir);
                   (qrcodes_dir ++ ["qr_a.png"], qr_a)]).

(** The same without a QR directory. *)
Definition w_no_qr : world := volume (home ++ [(guide_src, guide)]).

(** A directory sits where the guide is to be copied. *)
Definition w_dst_dir : world :=
  volume (home ++ [(guide_src, guide); (package_dir, Dir);
                   (package_dir ++ ["guides"], Dir); (guide_dst, Dir)]).

(** A directory sits where the README is to be written. *)
Definition w_readme_dir : world :=
  volume (home ++ [(guide_src, guide); (package_dir, Dir); (readme_path, Dir)]).

(** ** The directories of the package *)

Lemma for_each_noop {A} (l : list A) (body : A -> M unit) w :
  (forall x, x ∈ l -> body x w = (w, Ok tt)) -> for_each l body w = (w, Ok tt).
Proof.
  induction l as [|x l IH]; intros Hb; simpl; [done|].
  rewrite bind_unfold, Hb by (by left). apply IH.
  intros y Hy. apply Hb. by right.
Qed.

Lemma create_directories_noop w :
  (forall p, p ∈ package_dirs -> fs w !! p = Some Dir) ->
  is_Some (fs w !! base_dir) ->
  create_directories w = (w, Ok tt).
Proof.
  intros Hdirs Hbase. unfold create_directories.
  rewrite bind_unfold, makedirs_noop; [|apply Hdirs; compute_done|done].
  apply for_each_noop. intros d Hd. apply makedirs_noop.
  - apply Hdirs. change package_dirs with
      (package_dir :: ((fun d => package_dir ++ [d]) <$> dirs)).
    right. apply list_elem_of_fmap. by exists d.
  - intros _. unfold OsPath.join. rewrite dirname_snoc.
    rewrite Hdirs; [eauto|compute_done].
Qed.

(** C4. After a run that returns, the package root and its five
    subdirectories exist as directories, whatever sources were there;
    creating them is idempotent (a second creation returns and changes
    nothing), and on a well-formed volume where they exist already the
    creation returns without touching anything. *)
Theorem directories_exist :
  (forall w w', create_package w = (w', Ok tt) ->
     forall p, p ∈ package_dir :: ((fun d => OsPath.join package_dir [d]) <$> dirs) ->
               fs w' !! p = Some Dir) /\
  (forall w w1, create_directories w = (w1, Ok tt) ->
                create_directories w1 = (w1, Ok tt)) /\
  (forall w, wf w ->
     (forall p, p ∈ package_dir :: ((fun d => OsPath.join package_dir [d]) <$> dirs) ->
                fs w !! p = Some Dir) ->
     create_directories w = (w, Ok tt)).
Proof.
  split; [|split].
  - intros w w' Hrun p Hp. by apply (run_ok_kept w w' Hrun).
  - intros w w1 Hrun. apply create_directories_noop.
    + by apply create_directories_ok with w.
    + pose proof Hrun as (wa & [] & Hpkg & Hsub)%bind_ok.
      apply makedirs_ok in Hpkg as [_ Hhead].
      destruct Hhead as [n Hn]; [vm_compute; lia|].
      change (OsPath.dirname package_dir) with base_dir in Hn.
      assert (evolves (fun _ => True) wa w1) as Hev.
      { eapply (stage_evolves _ _ wa w1 (Ok tt)); [|exact Hsub].
        apply preserves_for_each; [apply _|]. intros d' _.
        eapply respects_weaken; [|apply makedirs_evolves]. done. }
      destruct (ev_kind _ _ _ Hev _ _ Hn) as (n' & Hn' & _). by exists n'.
  - intros w Hwf Hdirs. apply create_directories_noop; [done|].
    exists Dir. apply (wf_parent w package_dir Dir Hwf); [|done].
    apply Hdirs. by left.
Qed.


Lemma returns_eq {A} (x : world * result A) a : x.2 = Ok a -> x = (x.1, Ok a).
Proof. destruct x as [w r]. simpl. by intros ->. Qed.

Lemma directories_exist_witness :
  fs (create_package w_lesson).1 !! (OsPath.join package_dir ["guides"]) = Some Dir /\
  create_directories (create_package w_lesson).1 =
    ((create_package w_lesson).1, Ok tt).
Proof.
  split.
  - refine (proj1 directories_exist w_lesson (create_package w_lesson).1 _
              (OsPath.join package_dir ["guides"]) _).
    + apply returns_eq. vm_compute. reflexivity.
    + compute_done.
  - refine (proj2 (proj2 directories_exist) (create_package w_lesson).1 _ _).
    + compute_done.
    + intros p Hp.
      refine (proj1 directories_exist w_lesson (create_package w_lesson).1 _ p Hp).
      apply returns_eq. vm_compute. reflexivity.
Defined.

(** ** The manifest *)

(** C1, as the code has it.  For a manifest entry whose source is a file,
    after a run that returns the destination holds the bytes and the
    metadata of the source, whatever file was there before, provided the
    destination was not a directory; a destination that is a directory
    stays one and receives the copy inside it, under the base name of the
    source. *)
Theorem manifest_copied w w' src dst c m :
  create_package w = (w', Ok tt) ->
  (src, dst) ∈ copies ->
  fs w !! src = Some (File c m) ->
  (fs w !! dst <> Some Dir -> fs w' !! dst = Some (File c m)) /\
  (fs w !! dst = Some Dir ->
   fs w' !! dst = Some Dir /\
   fs w' !! (OsPath.join dst [OsPath.basename src]) = Some (File c m)).
Proof.
  intros Hrun Hin Hsrc.
  destruct (run_ok_kept w w' Hrun) as (_ & Hentries & _).
  destruct (Hentries _ Hin) as [_ Hdone]. cbn [fst snd] in Hdone.
  rewrite Hsrc in Hdone. destruct Hdone as (c0 & m0 & [= <- <-] & Hdst & _).
  unfold copy2_dst in Hdst. split.
  - intros Hnd. by destruct (fs w !! dst) as [[]|].
  - intros Hd. rewrite Hd in Hdst. split; [|done].
    eapply evolves_dir; [|done].
    eapply (stage_evolves _ _ w w' (Ok tt)); [apply create_package_evolves|done].
Qed.

Lemma manifest_copied_witness :
  fs (create_package w_lesson).1 !! guide_dst = Some guide.
Proof.
  refine (proj1 (manifest_copied w_lesson (create_package w_lesson).1
                   guide_src guide_dst (Raw "# Teacher guide") (Stat 420 7) _ _ _) _).
  - apply returns_eq. vm_compute. reflexivity.
  - compute_done.
  - vm_compute. reflexivity.
  - vm_compute. discriminate.
Defined.

(** With a directory at the destination the run returns, and the
    destination is no copy of the source. *)
Lemma manifest_copied_counterexample :
  (guide_src, guide_dst) ∈ copies /\
  fs w_dst_dir !! guide_src = Some guide /\
  (create_package w_dst_dir).2 = Ok tt /\
  fs (create_package w_dst_dir).1 !! guide_dst = Some Dir /\
  fs (create_package w_dst_dir).1 !! guide_dst <> Some guide.
Proof.
  split; [compute_done|]. split; [by vm_compute|]. split; [by vm_compute|].
  split; [by vm_compute|]. vm_compute. discriminate.
Qed.

(** ** The README *)

Definition file_bytes (w : world) (p : path) : option content :=
  match fs w !! p with
  | Some (File c _) => Some c
  | _ => None
  end.

(** C9. After a run that returns, [README.md] is a file at the package
    root, whatever was there before; it holds the text of the fixed
    template, which lists each of the five subdirectories. *)
Theorem readme_written w w' :
  create_package w = (w', Ok tt) ->
  file_bytes w' (OsPath.join package_dir ["README.md"]) =
    Some (Raw (Str.translate_newlines readme_content)) /\
  Forall (fun d => Str.contains d (Str.translate_newlines readme_content) = true /\
                   Str.contains ("**" +:+ d +:+ "/**") readme_content = true) dirs.
Proof.
  intros Hrun. split; [|compute_done].
  destruct (run_ok_kept w w' Hrun) as (_ & _ & _ & m & Hm).
  unfold file_bytes. change (OsPath.join package_dir ["README.md"]) with readme_path.
  by rewrite Hm.
Qed.

Lemma readme_written_witness :
  file_bytes (create_package w_lesson).1 (OsPath.join package_dir ["README.md"]) =
    Some (Raw (Str.translate_newlines readme_content)).
Proof.
  refine (proj1 (readme_written w_lesson (create_package w_lesson).1 _)).
  apply returns_eq. vm_compute. reflexivity.
Defined.

(** C10. The bytes of the README are one constant: whenever the README
    stage returns it has written [readme_bytes], so any two runs that
    return leave the same README content, whatever their volumes held. *)
Theorem readme_constant :
  (forall u u', create_readme u = (u', Ok tt) ->
                file_bytes u' readme_path = Some (Raw readme_bytes)) /\
  (forall w1 w1' w2 w2',
     create_package w1 = (w1', Ok tt) -> create_package w2 = (w2', Ok tt) ->
     file_bytes w1' readme_path = file_bytes w2' readme_path).
Proof.
  split.
  - intros u u' [[m Hm] _]%create_readme_ok. unfold file_bytes. by rewrite Hm.
  - intros w1 w1' w2 w2' H1 H2.
    destruct (run_ok_kept _ _ H1) as (_ & _ & _ & m1 & Hm1).
    destruct (run_ok_kept _ _ H2) as (_ & _ & _ & m2 & Hm2).
    unfold file_bytes. by rewrite Hm1, Hm2.
Qed.

Lemma readme_constant_witness :
  file_bytes (create_package w_lesson).1 readme_path =
  file_bytes (create_package w_dst_dir).1 readme_path.
Proof.
  refine (proj2 readme_constant w_lesson _ w_dst_dir _ _ _);
    apply returns_eq; vm_compute; reflexivity.
Defined.

(** ** Missing sources *)

Lemma copy_entry_missing src dst u :
  fs u !! src = None ->
  copy_entry (src, dst) u = print ("Not found: " +:+ OsPath.render src) u.
Proof.
  intros Hsrc. unfold copy_entry. rewrite bind_unfold. simpl.
  rewrite bool_decide_eq_false_2; [done|]. rewrite Hsrc. by intros [? ?].
Qed.

(** The lines of the other entries differ from an entry's "Not found". *)
Definition line_apart (entry other : path * path) : Prop :=
  other = entry \/
  "Not found: " +:+ OsPath.render other.1 <> "Not found: " +:+ OsPath.render entry.1.

#[global] Instance line_apart_dec e o : Decision (line_apart e o).
Proof. unfold line_apart. apply _. Defined.

Lemma lines_apart : Forall (fun e => Forall (line_apart e) copies) copies.
Proof. compute_done. Qed.

Lemma entry_lines_count w src dst :
  (src, dst) ∈ copies -> fs w !! src = None ->
  count_lines ("Not found: " +:+ OsPath.render src) (entry_line w <$> copies) = 1%nat.
Proof.
  intros Hin Hsrc. pose proof lines_apart as Hap.
  rewrite Forall_forall in Hap. specialize (Hap _ Hin).
  rewrite Forall_forall in Hap.
  pose proof copies_NoDup as Hnd.
  apply list_elem_of_split in Hin as (l1 & l2 & Hc). rewrite Hc in Hnd, Hap |- *.
  apply NoDup_app in Hnd as (_ & Hl1 & [Hl2 _]%NoDup_cons).
  assert (forall l, (forall e, e ∈ l -> e ∈ l1 ++ (src, dst) :: l2) ->
                    (src, dst) ∉ l ->
                    count_lines ("Not found: " +:+ OsPath.render src)
                      (entry_line w <$> l) = 0%nat) as Hzero.
  { intros l Hsub Hnot. apply count_lines_none, Forall_fmap, Forall_forall.
    intros e He. simpl. unfold entry_line.
    destruct (Hap e (Hsub e He)) as [->|Hne]; [done|].
    by destruct (fs w !! e.1). }
  rewrite fmap_app, fmap_cons, count_lines_app.
  change (?x :: ?l) with ([x] ++ l). rewrite count_lines_app.
  rewrite !Hzero.
  - unfold entry_line. cbn [fst]. rewrite Hsrc. unfold count_lines.
    by rewrite filter_cons_True.
  - intros e He. set_solver.
  - done.
  - intros e He. set_solver.
  - intros H. by apply (Hl1 (src, dst)); [|left].
Qed.

Lemma qr_out_count line files :
  (forall file, "Copied QR: " +:+ file <> line) -> count_lines line (qr_out files) = 0%nat.
Proof.
  intros Hne. apply count_lines_none, Forall_forall. intros l.
  unfold qr_out. intros (f & Hl & _)%list_elem_of_bind. unfold qr_lines in Hl.
  destruct (Str.endswith f ".png"); [|by apply elem_of_nil in Hl].
  apply list_elem_of_singleton in Hl as ->. apply Hne.
Qed.

(** C3. For a manifest entry whose source is absent, the turn of the
    loop only prints its "Not found" line and returns; after a run that
    returns the destination is as it was before the run (none is
    created), and the console shows that line exactly once. *)
Theorem missing_source_skipped w w' src dst :
  create_package w = (w', Ok tt) ->
  (src, dst) ∈ copies ->
  fs w !! src = None ->
  (forall u, fs u !! src = None ->
             copy_entry (src, dst) u = print ("Not found: " +:+ OsPath.render src) u) /\
  fs w' !! dst = fs w !! dst /\
  count_lines ("Not found: " +:+ OsPath.render src) (printed w w') = 1%nat.
Proof.
  intros Hrun Hin Hsrc. split; [|split].
  - intros u. apply copy_entry_missing.
  - destruct (run_ok_kept w w' Hrun) as (_ & Hentries & _).
    destruct (Hentries _ Hin) as [_ Hdone]. cbn [fst snd] in Hdone.
    rewrite Hsrc in Hdone. apply Hdone. unfold entry_targets. set_solver.
  - destruct (run_out w w' Hrun) as (files & n & _ & _ & Hout).
    rewrite (printed_app _ _ _ Hout), !count_lines_app.
    rewrite (entry_lines_count w src dst Hin Hsrc).
    rewrite qr_out_count by done.
    rewrite count_lines_none; [done|].
    repeat constructor; discriminate.
Qed.

Lemma missing_source_skipped_witness :
  fs (create_package w_lesson).1 !! guide_pdf_dst = fs w_lesson !! guide_pdf_dst /\
  count_lines ("Not found: " +:+ OsPath.render guide_pdf_src)
    (printed w_lesson (create_package w_lesson).1) = 1%nat.
Proof.
  refine (proj2 (missing_source_skipped w_lesson (create_package w_lesson).1
                   guide_pdf_src guide_pdf_dst _ _ _)).
  - apply returns_eq. vm_compute. reflexivity.
  - compute_done.
  - vm_compute. reflexivity.
Defined.

(** ** The QR images *)





(** ** A missing QR directory *)

Lemma copy_qr_codes_absent u :
  fs u !! qrcodes_dir = None -> copy_qr_codes u = (u, Ok tt).
Proof.
  intros Hq. unfold copy_qr_codes. rewrite bind_unfold. simpl.
  rewrite bool_decide_eq_false_2; [done|]. rewrite Hq. by intros [? ?].
Qed.

(** The run without its QR stage. *)
Definition create_package_without_qr : M unit :=
  create_directories ;;
  copy_files ;;
  create_readme ;;
  create_zip.

(** C8, as the code has it.  Without a QR source directory the scan
    returns at once: it raises nothing, changes nothing and prints
    nothing, and the run is the run of the remaining stages. *)
Theorem missing_qr_dir_skipped w :
  fs w !! qrcodes_dir = None ->
  (forall u, fs u !! qrcodes_dir = None -> copy_qr_codes u = (u, Ok tt)) /\
  create_package w = create_package_without_qr w.
Proof.
  intros Hq. split; [apply copy_qr_codes_absent|].
  unfold create_package, create_package_without_qr.
  rewrite !(bind_unfold create_directories).
  pose proof (create_directories_evolves w) as E1.
  destruct (create_directories w) as [w1 [[]|e]]; [|done]. simpl in E1.
  rewrite !(bind_unfold copy_files).
  pose proof (copy_entries_evolves copies w1) as E2.
  change (for_each copies copy_entry) with copy_files in E2.
  destruct (copy_files w1) as [w2 [[]|e]]; [|done]. simpl in E2.
  rewrite (bind_unfold copy_qr_codes), copy_qr_codes_absent; [done|].
  rewrite (ev_frame _ _ _ E2), (ev_frame _ _ _ E1); [done|..];
    intros H; apply qrcodes_dir_clear; unfold T_run; tauto.
Qed.

Lemma missing_qr_dir_skipped_witness :
  copy_qr_codes w_no_qr = (w_no_qr, Ok tt) /\
  create_package w_no_qr = create_package_without_qr w_no_qr.
Proof.
  assert (fs w_no_qr !! qrcodes_dir = None) as Hq by (vm_compute; reflexivity).
  destruct (missing_qr_dir_skipped w_no_qr Hq) as [Hskip Hrun].
  split; [by apply Hskip|exact Hrun].
Defined.

(** Without a QR directory the run returns and its console has the lines
    of the manifest, of the README and of the archive: nothing tells
    of the scan that was skipped. *)
Lemma missing_qr_dir_counterexample :
  fs w_no_qr !! qrcodes_dir = None /\
  (create_package w_no_qr).2 = Ok tt /\
  printed w_no_qr (copy_qr_codes w_no_qr).1 = [] /\
  printed w_no_qr (create_package w_no_qr).1 =
    [ "Copied: teacher_guide_microbit_1st_grade.md";
      "Not found: c:\Users\atchy\Streamli\teacher_guide_microbit_1st_grade.pdf";
      "Not found: c:\Users\atchy\Streamli\student_worksheet_microbit_1st_grade.md";
      "Not found: c:\Users\atchy\Streamli\student_worksheet_microbit_1st_grade.pdf";
      "Not found: c:\Users\atchy\Streamli\templates\makecode_smile_template.ts";
      "Not found: c:\Users\atchy\Streamli\templates\microbit_smile_template.py";
      "Not found: c:\Users\atchy\Streamli\templates\README_generate_hex.md";
      "Created README.md";
      archive_line;
      size_line 2048 ].
Proof.
  split; [by vm_compute|]. split; [by vm_compute|]. split; by vm_compute.
Qed.

(** ** Failures *)






Lemma raises_eq {A} (x : world * result A) e : x.2 = Raise e -> x = (x.1, Raise e).
Proof. destruct x as [w r]. simpl. by intros ->. Qed.


(** The worlds of the run on [w_readme_dir], stage after stage. *)
Abbreviation w_readme_dir_1 := ((create_directories w_readme_dir).1).
Abbreviation w_readme_dir_2 := ((copy_files w_readme_dir_1).1).
Abbreviation w_readme_dir_3 := ((copy_qr_codes w_readme_dir_2).1).
Abbreviation w_readme_dir_4 := ((create_readme w_readme_dir_3).1).







(** ** Well-formed volumes stay well-formed *)

Definition keeps_wf (w w' : world) : Prop := wf w -> wf w'.

#[global] Instance keeps_wf_preorder : PreOrder keeps_wf.
Proof.
  split; [intros w Hw; exact Hw|].
  intros w1 w2 w3 H12 H23 Hw. by apply H23, H12.
Qed.

Lemma wf_insert w w' p n :
  fs w' = <[p := n]> (fs w) ->
  wf w ->
  (fs w !! p = Some Dir -> n = Dir) ->
  (is_Some (fs w !! p) \/ fs w !! OsPath.dirname p = Some Dir) ->
  wf w'.
Proof.
  intros Hfs Hwf Hkeep Hparent q n' Hq Hne. unfold is_dir. rewrite Hfs in Hq |- *.
  assert (forall r n0, fs w !! r = Some n0 -> r <> [] ->
            <[p := n]> (fs w) !! OsPath.dirname r = Some Dir) as Hold.
  { intros r n0 Hr Hr'. pose proof (wf_parent w r n0 Hwf Hr Hr') as Hd.
    destruct (decide (p = OsPath.dirname r)) as [->|Hp].
    - rewrite lookup_insert_eq. f_equal. by apply Hkeep.
    - by rewrite lookup_insert_ne. }
  destruct (decide (p = q)) as [->|Hpq].
  - destruct Hparent as [[n0 Hn0]|Hd].
    + by rewrite (Hold q n0).
    + rewrite lookup_insert_ne by (by apply not_eq_sym, dirname_ne). by rewrite Hd.
  - rewrite lookup_insert_ne in Hq by done. by rewrite (Hold q n').
Qed.

Lemma mkdir_keeps_wf p : preserves keeps_wf (Os.mkdir p).
Proof.
  intros w. destruct (Os.mkdir p w) as [w' [[]|e]] eqn:Hm; simpl.
  - apply mkdir_ok in Hm as (-> & Hp & Hd & _). intros Hwf.
    eapply (wf_insert w _ p Dir); [done|done|done|by right].
  - apply mkdir_raise in Hm as ->. reflexivity.
Qed.

Lemma makedirs_keeps_wf name ok : preserves keeps_wf (Os.makedirs name ok).
Proof.
  apply makedirs_rev_preserves; [apply _|]. intros k _. apply mkdir_keeps_wf.
Qed.

Lemma write_file_keeps_wf p c : preserves keeps_wf (Os.write_file p c).
Proof.
  intros w. destruct (Os.write_file p c w) as [w' [[]|e]] eqn:Hw; simpl.
  - apply write_file_ok in Hw as (m & -> & _ & Hnd & Hpar). intros Hwf.
    eapply (wf_insert w _ p); [done|done|done|done].
  - apply write_file_raise in Hw as ->. reflexivity.
Qed.

Lemma copystat_keeps_wf src dst : preserves keeps_wf (Shutil.copystat src dst).
Proof.
  intros w. unfold Shutil.copystat.
  destruct (fs w !! src) as [[|c m]|], (fs w !! dst) as [[|c' m']|] eqn:Hd;
    simpl; try reflexivity.
  intros Hwf. eapply (wf_insert w _ dst); [done|done| |].
  - by rewrite Hd.
  - left. by rewrite Hd.
Qed.

Lemma copy2_keeps_wf src dst : preserves keeps_wf (Shutil.copy2 src dst).
Proof.
  intros w. rewrite copy2_unfold. cbv zeta.
  generalize (copy2_dst w src dst). intros t. revert w.
  change (preserves keeps_wf (Shutil.copyfile src t ;; Shutil.copystat src t ;; mret t)).
  pres_bind; [|pres_bind; [apply copystat_keeps_wf|pres_ret]].
  intros w. unfold Shutil.copyfile. case_decide; [reflexivity|].
  destruct (fs w !! src) as [[]|]; try reflexivity. apply write_file_keeps_wf.
Qed.

Lemma print_keeps_wf line : preserves keeps_wf (print line).
Proof. intros w Hw. exact Hw. Qed.

Lemma zip_close_keeps_wf p ms : preserves keeps_wf (Shutil.zip_close p ms).
Proof.
  intros w. unfold Shutil.zip_close.
  destruct (fs w !! p) as [[|c m]|] eqn:Hp; simpl; try reflexivity.
  intros Hwf. eapply (wf_insert w _ p); [done|done| |].
  - by rewrite Hp.
  - left. by rewrite Hp.
Qed.

Lemma create_directories_keeps_wf : preserves keeps_wf create_directories.
Proof.
  pres_bind; [apply makedirs_keeps_wf|].
  apply preserves_for_each; [apply _|]. intros d _. apply makedirs_keeps_wf.
Qed.

Lemma copy_files_keeps_wf : preserves keeps_wf copy_files.
Proof.
  apply preserves_for_each; [apply _|]. intros [src dst] _. unfold copy_entry.
  pres_bind; [pres_pure|].
  apply preserves_if; [|apply print_keeps_wf].
  pres_bind; [apply copy2_keeps_wf|apply print_keeps_wf].
Qed.

Lemma copy_qr_codes_keeps_wf : preserves keeps_wf copy_qr_codes.
Proof.
  pres_bind; [pres_pure|].
  apply preserves_if; [|pres_ret].
  pres_bind; [pres_pure|].
  apply preserves_for_each; [apply _|]. intros file _. unfold copy_qr.
  apply preserves_if; [|pres_ret].
  pres_bind; [apply copy2_keeps_wf|apply print_keeps_wf].
Qed.

Lemma create_readme_keeps_wf : preserves keeps_wf create_readme.
Proof. pres_bind; [apply write_file_keeps_wf|apply print_keeps_wf]. Qed.



(** ** The archive *)



(** What is archived: the package directory and everything below it. *)
Definition archive_members (w : world) : list member :=
  Shutil.member_of base_dir <$>
    filter (fun entry => package_dir `prefix_of` entry.1) (map_to_list (fs w)).

Lemma make_archive_ok w4 u p :
  Shutil.make_archive (OsPath.splitext_root zip_path) base_dir [package_name] w4 =
    (u, Ok p) ->
  exists wa m,
    fs w4 !! base_dir = Some Dir /\
    Os.write_file zip_path (Raw "") w4 = (wa, Ok tt) /\
    u = store zip_path (File (Zip (archive_members wa) (deflate wa (archive_members wa))) m) wa.
Proof.
  unfold Shutil.make_archive. rewrite zip_filename_eq, archive_dir_eq.
  intros (u1 & b & [= <- <-] & H)%bind_ok.
  apply bind_ok in H as (u1 & [] & Hroot & H).
  destruct (fs w4 !! base_dir) as [[|c0 m0]|] eqn:Hbase; try done.
  injection Hroot as <-.
  apply bind_ok in H as (u1 & b & [= <- <-] & H).
  rewrite Hbase in H. rewrite bool_decide_eq_true_2 in H by eauto.
  rewrite andb_false_r in H.
  apply bind_ok in H as (u1 & [] & [= <-] & H).
  apply bind_ok in H as (wa & [] & Hw & H).
  apply bind_ok in H as (u2 & ms & Hwalk & H).
  apply bind_ok in H as (u3 & [] & Hclose & [= <- <-]).
  exists wa. unfold Shutil.zip_walk in Hwalk.
  change (OsPath.join base_dir [package_name]) with package_dir in Hwalk.
  destruct (fs wa !! package_dir); [|done]. injection Hwalk as <- <-.
  apply write_file_ok in Hw as Hw'. destruct Hw' as (m1 & Hwa & _).
  assert (fs wa !! zip_path = Some (File (Raw "") m1)) as Hz.
  { rewrite Hwa. apply lookup_insert_eq. }
  unfold Shutil.zip_close in Hclose. rewrite Hz in Hclose.
  injection Hclose as <-. eauto 10.
Qed.

Lemma create_zip_ok w4 w' :
  create_zip w4 = (w', Ok tt) ->
  exists wa m,
    fs w4 !! base_dir = Some Dir /\
    Os.write_file zip_path (Raw "") w4 = (wa, Ok tt) /\
    fs w' = <[zip_path := File (Zip (archive_members wa)
                                  (deflate wa (archive_members wa))) m]> (fs wa).
Proof.
  intros (u & p & Hz & (u1 & [] & [= <-] & (u2 & n & Hn & [= <-])%bind_ok)%bind_ok)%bind_ok.
  apply make_archive_ok in Hz as (wa & m & Hbase & Hw & ->). exists wa, m.
  split; [done|]. split; [done|].
  pose proof (path_getsize_pure zip_path
    (print (Str.LF +:+ "✅ Package created: " +:+ OsPath.render zip_path)
       (store zip_path (File (Zip (archive_members wa)
                                (deflate wa (archive_members wa))) m) wa)).1) as Hp.
  cbn [print fst] in Hp. rewrite Hn in Hp. cbn [fst] in Hp. by subst u2.
Qed.

(** *** Inflating it *)

(** What a node is, its metadata apart: a directory, or a file and its
    bytes. *)
Definition shape (n : node) : option content :=
  match n with
  | Dir => None
  | File c _ => Some c
  end.






(** Every file can be written again. *)
Definition all_writable (e : world) : Prop :=
  forall q c m, fs e !! q = Some (File c m) -> writable m = true.

Definition keeps_writable (e e' : world) : Prop := all_writable e -> all_writable e'.

#[global] Instance keeps_writable_preorder : PreOrder keeps_writable.
Proof.
  split; [intros e He; exact He|].
  intros e1 e2 e3 H12 H23 He. by apply H23, H12.
Qed.












(** ** A second run *)

(** What a path shows when timestamps and the bytes of the archive file
    are left out: a file's bytes and its mode. *)
Definition blank (q : path) (c : content) : content :=
  if decide (q = zip_path) then Raw "" else c.

Definition view (w : world) (q : path) : option (option (content * N)) :=
  (fun n => match n with
            | Dir => None
            | File c m => Some (blank q c, st_mode m)
            end) <$> fs w !! q.

(** [similar v u]: the same tree with the same bytes and the same mode
    in every file (the bytes of the archive apart), and the same
    refused paths. *)
Definition similar (v u : world) : Prop :=
  (forall q, view v q = view u q) /\ denied v = denied u.

#[global] Instance similar_equiv : Equivalence similar.
Proof.
  split.
  - by intros w.
  - intros v u [Hv Hd]. split; [by intros q|done].
  - intros w1 w2 w3 [H1 D1] [H2 D2]. split; [intros q|]; congruence.
Qed.

Lemma similar_none v u q : similar v u -> fs u !! q = None -> fs v !! q = None.
Proof.
  intros [Hv _] Hq. specialize (Hv q). unfold view in Hv. rewrite Hq in Hv.
  by destruct (fs v !! q).
Qed.

Lemma similar_dir v u q : similar v u -> fs u !! q = Some Dir -> fs v !! q = Some Dir.
Proof.
  intros [Hv _] Hq. specialize (Hv q). unfold view in Hv. rewrite Hq in Hv.
  by destruct (fs v !! q) as [[]|].
Qed.

Lemma similar_file v u q c m :
  similar v u -> fs u !! q = Some (File c m) ->
  exists c' m', fs v !! q = Some (File c' m') /\ st_mode m' = st_mode m /\
                (q <> zip_path -> c' = c).
Proof.
  intros [Hv _] Hq. specialize (Hv q). unfold view in Hv. rewrite Hq in Hv.
  destruct (fs v !! q) as [[|c' m']|]; try done. exists c', m'. split; [done|].
  cbn [fmap option_fmap option_map] in Hv. injection Hv as Hc Hm. split; [done|].
  intros Hne. unfold blank in Hc. by rewrite !decide_False in Hc by done.
Qed.

Lemma similar_writable v u q c m c' m' :
  similar v u -> fs u !! q = Some (File c m) -> fs v !! q = Some (File c' m') ->
  writable m' = writable m.
Proof.
  intros Hs Hu Hv. destruct (similar_file _ _ _ _ _ Hs Hu) as (c1 & m1 & Hv1 & Hm & _).
  rewrite Hv in Hv1. injection Hv1 as <- <-. unfold writable. by rewrite Hm.
Qed.

Lemma similar_copy2_dst v u src dst :
  similar v u -> copy2_dst v src dst = copy2_dst u src dst.
Proof.
  intros Hs. unfold copy2_dst. destruct (fs u !! dst) as [[|c m]|] eqn:Hd.
  - by rewrite (similar_dir _ _ _ Hs Hd).
  - by destruct (similar_file _ _ _ _ _ Hs Hd) as (c' & m' & -> & _).
  - by rewrite (similar_none _ _ _ Hs Hd).
Qed.

Lemma similar_dom v u : similar v u -> dom (fs v) = dom (fs u).
Proof.
  intros [Hv _]. apply set_eq. intros q. rewrite !elem_of_dom.
  specialize (Hv q). unfold view in Hv.
  destruct (fs v !! q), (fs u !! q); try done; split; eauto; by intros [? ?].
Qed.

(** Writing the bytes a file holds already, under the mode it has,
    leaves a similar world. *)
Lemma similar_rewrite v v' t c m0 m1 :
  fs v !! t = Some (File c m0) ->
  fs v' = <[t := File c m1]> (fs v) ->
  st_mode m1 = st_mode m0 ->
  denied v' = denied v ->
  similar v' v.
Proof.
  intros Ht Hfs Hm Hden. split; [|done]. intros q. unfold view. rewrite Hfs.
  destruct (decide (t = q)) as [->|Hne].
  - rewrite lookup_insert_eq, Ht. cbn. by rewrite Hm.
  - by rewrite lookup_insert_ne.
Qed.

Lemma similar_print line v : similar (print line v).1 v.
Proof. done. Qed.

(** [entry_settled u entry]: the copy the entry asks for is in place. *)
Definition entry_settled (u : world) (entry : path * path) : Prop :=
  match fs u !! entry.1 with
  | None => True
  | Some n =>
      exists c m m', n = File c m /\
        fs u !! copy2_dst u entry.1 entry.2 = Some (File c m') /\
        st_mode m' = st_mode m /\
        (copy2_dst u entry.1 entry.2 ∉ denied u) /\
        entry.1 <> copy2_dst u entry.1 entry.2
  end.

(** [entry_unlocked u entry]: the source of the entry, if a file, is not
    read-only. *)
Definition entry_unlocked (u : world) (entry : path * path) : Prop :=
  forall c m, fs u !! entry.1 = Some (File c m) -> writable m = true.

Lemma entry_done_settled w w1 entry :
  entry_done w w1 entry -> evolves T_run w w1 -> entry_settled w1 entry.
Proof.
  intros [Hsrc Hdone] Hev. unfold entry_settled. rewrite Hsrc.
  destruct (fs w !! entry.1) as [n|]; [|done].
  destruct Hdone as (c & m & -> & Hdst & Hden & Hne).
  assert (copy2_dst w1 entry.1 entry.2 = copy2_dst w entry.1 entry.2) as ->.
  { unfold copy2_dst in *. destruct (fs w !! entry.2) as [[|c0 m0]|] eqn:Hd.
    - by rewrite (evolves_dir _ _ _ _ Hev Hd).
    - by rewrite Hdst.
    - by rewrite Hdst. }
  rewrite (ev_denied _ _ _ Hev). eauto 10.
Qed.

(** Copying again what is in place: the world stays similar whether
    the copy returns or raises, and it returns unless the source is
    read-only. *)
Lemma copy2_settled u v src dst :
  similar v u -> entry_settled u (src, dst) -> is_Some (fs u !! src) ->
  src <> zip_path -> copy2_dst u src dst <> zip_path ->
  similar (Shutil.copy2 src dst v).1 u /\
  stdout (Shutil.copy2 src dst v).1 = stdout v /\
  (entry_unlocked u (src, dst) -> exists t, (Shutil.copy2 src dst v).2 = Ok t).
Proof.
  intros Hs Hset [n Hn] Hsz Htz. unfold entry_settled, entry_unlocked in *.
  cbn [fst snd] in *. rewrite Hn in Hset.
  destruct Hset as (c & m & m' & -> & Ht & Hmode & Hden & Hne).
  destruct (similar_file _ _ _ _ _ Hs Hn) as (c1 & m1 & Hsrc & Hm1 & Hc1).
  rewrite (Hc1 Hsz) in Hsrc.
  destruct (similar_file _ _ _ _ _ Hs Ht) as (c2 & m2 & Hdst & Hm2 & Hc2).
  rewrite (Hc2 Htz) in Hdst.
  rewrite copy2_unfold. cbv zeta. rewrite (similar_copy2_dst _ _ _ _ Hs).
  set (t := copy2_dst u src dst) in *.
  rewrite bind_unfold. unfold Shutil.copyfile.
  rewrite decide_False by (intros [? _]; done). rewrite Hsrc.
  assert (writable m2 = writable m) as Hw.
  { unfold writable. by rewrite Hm2, Hmode. }
  destruct (writable m) eqn:Hwm.
  - rewrite (write_file_over _ _ _ _ _ Hdst) by (done || by rewrite (proj2 Hs)).
    cbv beta iota. rewrite bind_unfold. unfold Shutil.copystat. cbn [store fs].
    rewrite lookup_insert_ne by done. rewrite Hsrc, lookup_insert_eq.
    cbv beta iota. cbn [fst snd mret M_ret]. split; [|split; [done|eauto]].
    etrans; [|exact Hs].
    eapply (similar_rewrite v _ t c m2 m1); [done| |congruence|done].
    cbn [fs]. by rewrite insert_insert_eq.
  - rewrite (write_file_locked _ _ _ _ _ Hdst Hw). cbn [fst snd].
    split; [done|]. split; [done|]. intros Hok.
    specialize (Hok c m Hn). congruence.
Qed.

Lemma copy_entry_settled u v entry :
  similar v u -> entry_settled u entry ->
  entry.1 <> zip_path -> copy2_dst u entry.1 entry.2 <> zip_path ->
  similar (copy_entry entry v).1 u /\
  (entry_unlocked u entry -> (copy_entry entry v).2 = Ok tt).
Proof.
  intros Hs Hset Hsz Htz. destruct entry as [src dst]. cbn [fst snd] in *.
  unfold copy_entry. rewrite bind_unfold. cbn [Os.path_exists].
  destruct (fs u !! src) as [n|] eqn:Hn.
  - assert (is_Some (fs v !! src)) as Hv.
    { destruct n as [|c m].
      - rewrite (similar_dir _ _ _ Hs Hn). eauto.
      - destruct (similar_file _ _ _ _ _ Hs Hn) as (? & ? & -> & _). eauto. }
    rewrite bool_decide_eq_true_2 by done.
    destruct (copy2_settled u v src dst) as (Hs' & _ & Hret);
      [done|done|eauto|done|done|].
    rewrite bind_unfold.
    destruct (Shutil.copy2 src dst v) as [v1 [t|e]]; cbn [fst snd] in *.
    + split; [|done]. etrans; [apply similar_print|done].
    + split; [done|]. intros Hok. by destruct (Hret Hok).
  - rewrite bool_decide_eq_false_2.
    2:{ rewrite (similar_none _ _ _ Hs Hn). by intros [? ?]. }
    split; [|done]. etrans; [apply similar_print|done].
Qed.

Lemma for_each_settled {A} (l : list A) (body : A -> M unit) u (ok : Prop) v :
  (forall x v, x ∈ l -> similar v u ->
               similar (body x v).1 u /\ (ok -> (body x v).2 = Ok tt)) ->
  similar v u ->
  similar (for_each l body v).1 u /\ (ok -> (for_each l body v).2 = Ok tt).
Proof.
  revert v. induction l as [|x l IH]; intros v Hb Hs.
  - done.
  - destruct (Hb x v) as (Hs1 & Hx); [by left|done|].
    cbn [for_each]. rewrite bind_unfold.
    destruct (body x v) as [v1 [[]|e]]; cbn [fst snd] in *.
    + apply IH; [|done]. intros y v0 Hy. apply Hb. by right.
    + split; [done|]. intros Hok. by specialize (Hx Hok).
Qed.

(** [settled u]: everything a run makes is in place in [u]. *)
Definition settled (u : world) : Prop :=
  (forall p, p ∈ package_dirs -> fs u !! p = Some Dir) /\
  fs u !! base_dir = Some Dir /\
  (forall entry, entry ∈ copies -> entry_settled u entry) /\
  match fs u !! qrcodes_dir with
  | None => True
  | Some n =>
      n = Dir /\
      forall file, is_Some (fs u !! (qrcodes_dir ++ [file])) ->
                   Str.endswith file ".png" = true ->
                   entry_settled u (qr_entry file)
  end /\
  (exists m, fs u !! readme_path = Some (File (Raw readme_bytes) m) /\
             writable m = true) /\
  (readme_path ∉ denied u) /\
  (exists c m, fs u !! zip_path = Some (File c m) /\ writable m = true) /\
  (zip_path ∉ denied u).

(** [unlocked u]: no source the run copies is read-only. *)
Definition unlocked (u : world) : Prop :=
  (forall entry, entry ∈ copies -> entry_unlocked u entry) /\
  (forall file, Str.endswith file ".png" = true -> entry_unlocked u (qr_entry file)).

(** The archive a run leaves can be written again. *)
Lemma create_zip_mode w4 w' :
  create_zip w4 = (w', Ok tt) ->
  exists c m, fs w' !! zip_path = Some (File c m) /\ writable m = true.
Proof.
  intros (u & p & Hz & (u1 & [] & [= <-] & (u2 & n & Hn & [= <-])%bind_ok)%bind_ok)%bind_ok.
  pose proof (path_getsize_pure zip_path
    (print (Str.LF +:+ "✅ Package created: " +:+ OsPath.render zip_path) u).1) as Hp.
  cbn [print fst] in Hp. rewrite Hn in Hp. cbn [fst] in Hp. subst u2.
  cbn [print fst fs].
  revert Hz. unfold Shutil.make_archive. rewrite zip_filename_eq, archive_dir_eq.
  intros (a1 & b & _ & H)%bind_ok.
  apply bind_ok in H as (a2 & [] & _ & H).
  apply bind_ok in H as (a3 & b' & _ & H).
  apply bind_ok in H as (a4 & [] & _ & H).
  apply bind_ok in H as (wa & [] & Hw & H).
  apply bind_ok in H as (a5 & ms & Hwalk & H).
  apply bind_ok in H as (a6 & [] & Hclose & [= <- <-]).
  pose proof (zip_walk_pure base_dir (OsPath.join base_dir [package_name]) wa) as Hpure.
  rewrite Hwalk in Hpure. cbn [fst] in Hpure. subst a5.
  apply write_file_mode in Hw as (m1 & Hz & Hm1 & _).
  unfold Shutil.zip_close in Hclose. rewrite Hz in Hclose.
  injection Hclose as <-. cbn [store fs]. rewrite lookup_insert_eq.
  eexists _, _. split; [done|]. exact Hm1.
Qed.

Lemma run_settled w w1 : create_package w = (w1, Ok tt) -> settled w1.
Proof.
  intros Hrun. pose proof (stage_evolves _ _ _ _ _ create_package_evolves Hrun) as Hev.
  destruct (run_ok_kept w w1 Hrun) as (Hdirs & Hentries & Hqr & Hreadme).
  apply create_package_ok in Hrun as (a1 & a2 & a3 & a4 & H1 & H2 & H3 & H4 & H5).
  pose proof (stage_evolves _ _ _ _ _ create_readme_evolves H4) as E4.
  pose proof (stage_evolves _ _ _ _ _ create_zip_evolves H5) as E5.
  pose proof (create_readme_ok _ _ H4) as (_ & Hrden & _).
  pose proof (create_zip_mode _ _ H5) as Hzip.
  pose proof (create_zip_ok _ _ H5) as (aa & m & Hbase & Hw & Hfs).
  apply write_file_ok in Hw as (m0 & _ & Hzden & _).
  split; [done|]. split.
  { by apply (evolves_dir _ _ _ _ E5). }
  split.
  { intros entry Hin. apply (entry_done_settled w); [by apply Hentries|done]. }
  split.
  { unfold qr_done in Hqr.
    rewrite (ev_frame _ _ _ Hev _ qrcodes_dir_clear).
    destruct (fs w !! qrcodes_dir) as [n|]; [|done].
    destruct Hqr as [-> Hqr]. split; [done|]. intros file Hf Hpng.
    rewrite (ev_frame _ _ _ Hev _ (qr_source_clear file)) in Hf.
    apply (entry_done_settled w); [by apply Hqr|done]. }
  split.
  { apply bind_ok in H4 as (b & [] & Hwr & [= <-]). unfold Os.write_text in Hwr.
    apply write_file_mode in Hwr as (mr & Hr & Hmr & _).
    exists mr. split; [|done].
    rewrite (ev_frame _ _ _ E5) by compute_done. exact Hr. }
  split.
  { by rewrite (ev_denied _ _ _ E5), (ev_denied _ _ _ E4). }
  split; [done|].
  by rewrite (ev_denied _ _ _ E5).
Qed.

Lemma zip_path_T_run : T_run zip_path.
Proof. compute_done. Qed.

Lemma create_directories_settled u v :
  settled u -> similar v u -> create_directories v = (v, Ok tt).
Proof.
  intros (Hdirs & Hbase & _) Hs. apply create_directories_noop.
  - intros p Hp. by apply (similar_dir _ _ _ Hs), Hdirs.
  - rewrite (similar_dir _ _ _ Hs Hbase). eauto.
Qed.

Lemma copy_files_settled u v :
  settled u -> similar v u ->
  similar (copy_files v).1 u /\ (unlocked u -> (copy_files v).2 = Ok tt).
Proof.
  intros (_ & _ & Hentries & _) Hs.
  destruct (for_each_settled copies copy_entry u
              (forall entry, entry ∈ copies -> entry_unlocked u entry) v)
    as [Hs' Hret]; [|done|].
  - intros entry v0 Hin Hs0. destruct (entry_clear_of _ Hin) as [Hsrc Htgt].
    destruct (copy_entry_settled u v0 entry) as [Hs1 Hret];
      [done|by apply Hentries| | |].
    + intros Heq. apply Hsrc. rewrite Heq. apply zip_path_T_run.
    + intros Heq. destruct entry as [src dst].
      destruct (Htgt _ (copy2_dst_target u src dst)) as (_ & _ & _ & _ & Hz).
      apply Hz. cbn [fst snd] in Heq. rewrite Heq. by exists [].
    + split; [done|]. intros Hok. by apply Hret, Hok.
  - split; [done|]. intros [Hok _]. by apply Hret.
Qed.

Lemma copy_qr_settled u v file :
  similar v u ->
  is_Some (fs u !! (qrcodes_dir ++ [file])) ->
  (Str.endswith file ".png" = true -> entry_settled u (qr_entry file)) ->
  similar (copy_qr file v).1 u /\
  ((Str.endswith file ".png" = true -> entry_unlocked u (qr_entry file)) ->
   (copy_qr file v).2 = Ok tt).
Proof.
  intros Hs Hf Hset. unfold copy_qr.
  destruct (Str.endswith file ".png"); [|done].
  change (OsPath.join qrcodes_dir [file]) with (qrcodes_dir ++ [file]).
  change (OsPath.join package_dir ["qrcodes"; file]) with (qr_package_dir ++ [file]).
  destruct (copy2_settled u v (qrcodes_dir ++ [file]) (qr_package_dir ++ [file]))
    as (Hs' & _ & Hret); [done|by apply Hset|done| | |].
  - intros Heq. apply (qr_source_clear file). rewrite Heq. apply zip_path_T_run.
  - intros Heq. apply (T_qr_not_zip zip_path); [|by exists []].
    rewrite <-Heq. eapply qr_targets_T_qr, copy2_dst_qr.
  - rewrite bind_unfold.
    destruct (Shutil.copy2 _ _ v) as [v1 [t|e]]; cbn [fst snd] in *.
    + split; [|done]. etrans; [apply similar_print|done].
    + split; [done|]. intros Hok. by destruct (Hret (Hok eq_refl)).
Qed.

Lemma copy_qr_codes_settled u v :
  settled u -> similar v u ->
  similar (copy_qr_codes v).1 u /\ (unlocked u -> (copy_qr_codes v).2 = Ok tt).
Proof.
  intros (_ & _ & _ & Hqr & _) Hs. unfold copy_qr_codes.
  rewrite bind_unfold. cbn [Os.path_exists].
  destruct (fs u !! qrcodes_dir) as [n|] eqn:Hq.
  - destruct Hqr as [-> Hqr]. pose proof (similar_dir _ _ _ Hs Hq) as Hv.
    rewrite bool_decide_eq_true_2 by (rewrite Hv; eauto).
    rewrite bind_unfold. unfold Os.listdir. rewrite Hv.
    destruct (for_each_settled (omap (OsPath.child_of qrcodes_dir) (elements (dom (fs v))))
                copy_qr u (unlocked u) v) as [Hs' Hret]; [|done|done].
    intros file v0 Hin Hs0. apply elem_of_listing in Hin.
    assert (is_Some (fs u !! (qrcodes_dir ++ [file]))) as Hf.
    { apply elem_of_dom. rewrite <-(similar_dom _ _ Hs). by apply elem_of_dom. }
    destruct (copy_qr_settled u v0 file) as [Hs1 Hret]; [done|done| |].
    { intros Hpng. by apply Hqr. }
    split; [done|]. intros [_ Hok]. apply Hret. intros Hpng. by apply Hok.
  - rewrite bool_decide_eq_false_2.
    2:{ rewrite (similar_none _ _ _ Hs Hq). by intros [? ?]. }
    done.
Qed.

Lemma create_readme_settled u v :
  settled u -> similar v u ->
  exists v', create_readme v = (v', Ok tt) /\ similar v' u.
Proof.
  intros (_ & _ & _ & _ & (m & Hm & Hwm) & Hden & _) Hs.
  destruct (similar_file _ _ _ _ _ Hs Hm) as (c' & m' & Hv & Hmode & Hc).
  rewrite Hc in Hv by compute_done.
  unfold create_readme, Os.write_text. rewrite bind_unfold.
  change (Str.translate_newlines readme_content) with readme_bytes.
  rewrite (write_file_over _ _ _ _ _ Hv).
  2:{ by rewrite (proj2 Hs). }
  2:{ unfold writable in *. by rewrite Hmode. }
  eexists. split; [done|]. etrans; [apply similar_print|].
  etrans; [|exact Hs]. by eapply (similar_rewrite v _ readme_path).
Qed.

(** *** The archive of the second run *)

(** A member with its metadata left out. *)
Definition member_shape (m : member) : path * option content :=
  (m.1, fst <$> m.2).

(** The archive at [zip_path]: its members, in order, without their
    metadata. *)
Definition archive_content (w : world) : option (list (path * option content)) :=
  match fs w !! zip_path with
  | Some (File (Zip members _) _) => Some (member_shape <$> members)
  | _ => None
  end.

Lemma filter_fmap_comm {A B} (f : A -> B) (P : B -> Prop)
    `{!forall x, Decision (P x)} (l : list A) :
  filter P (f <$> l) = f <$> filter (P ∘ f) l.
Proof.
  induction l as [|x l IH]; [done|]. rewrite fmap_cons.
  destruct (decide (P (f x))) as [Hp|Hp].
  - rewrite !filter_cons_True by done. by rewrite fmap_cons, IH.
  - by rewrite !filter_cons_False by done.
Qed.

Lemma archive_members_shape a b :
  shape <$> fs a = shape <$> fs b ->
  member_shape <$> archive_members a = member_shape <$> archive_members b.
Proof.
  assert (forall w, member_shape <$> archive_members w =
            (fun e : path * option content => (drop (length base_dir) e.1, e.2)) <$>
              filter (fun e => package_dir `prefix_of` e.1)
                (map_to_list (shape <$> fs w))) as Hlist.
  { intros w. unfold archive_members. rewrite map_to_list_fmap.
    rewrite (filter_fmap_comm (prod_map id shape)).
    rewrite <-!list_fmap_compose. apply list_fmap_ext.
    intros i [q [|c m]] _; reflexivity. }
  intros Heq. by rewrite !Hlist, Heq.
Qed.

Lemma create_zip_settled u v aa m :
  settled u -> similar v u ->
  fs u = <[zip_path := File (Zip (archive_members aa)
                               (deflate aa (archive_members aa))) m]> (fs aa) ->
  (exists m0, fs aa !! zip_path = Some (File (Raw "") m0)) ->
  exists v', create_zip v = (v', Ok tt) /\
             similar v' u /\
             archive_content v' = archive_content u.
Proof.
  intros (Hdirs & Hbase & _ & _ & _ & _ & (cz & mz & Hz & Hwz) & Hzden) Hs Hfs [m0 Haa].
  destruct (similar_file _ _ _ _ _ Hs Hz) as (cz' & mz' & Hvz & Hmz & _).
  assert (writable mz' = true) as Hwz'.
  { unfold writable in *. by rewrite Hmz. }
  pose proof (similar_dir _ _ _ Hs Hbase) as Hvbase.
  assert (fs v !! package_dir = Some Dir) as Hvpkg.
  { apply (similar_dir _ _ _ Hs), Hdirs. compute_done. }
  set (va := store zip_path (File (Raw "") (Stat (st_mode mz') (clock v))) v).
  set (ms := archive_members va).
  set (v1 := store zip_path
               (File (Zip ms (deflate va ms)) (Stat (st_mode mz') (clock va))) va).
  assert (Shutil.make_archive (OsPath.splitext_root zip_path) base_dir
            [package_name] v = (v1, Ok zip_path)) as Hmk.
  { unfold Shutil.make_archive. rewrite zip_filename_eq, archive_dir_eq.
    rewrite bind_unfold. cbn [Os.path_isdir]. rewrite Hvbase. cbv beta iota.
    rewrite bind_unfold. cbn [mret M_ret]. cbv beta iota.
    rewrite bind_unfold. cbn [Os.path_exists]. rewrite Hvbase.
    rewrite bool_decide_eq_true_2 by eauto. rewrite andb_false_r.
    cbv beta iota. rewrite bind_unfold. cbn [mret M_ret]. cbv beta iota.
    rewrite bind_unfold.
    rewrite (write_file_over _ _ _ _ _ Hvz) by (done || by rewrite (proj2 Hs)).
    fold va. cbv beta iota. rewrite bind_unfold. unfold Shutil.zip_walk.
    change (OsPath.join base_dir [package_name]) with package_dir.
    assert (fs va !! package_dir = Some Dir) as ->.
    { unfold va. cbn [store fs]. by rewrite lookup_insert_ne. }
    cbv beta iota. fold (archive_members va). fold ms.
    rewrite bind_unfold. unfold Shutil.zip_close.
    assert (fs va !! zip_path =
            Some (File (Raw "") (Stat (st_mode mz') (clock v)))) as ->.
    { unfold va. cbn [store fs]. by rewrite lookup_insert_eq. }
    reflexivity. }
  assert (similar v1 u) as Hs1.
  { etrans; [|exact Hs]. split; [|done]. intros q. unfold view.
    unfold v1, va. cbn [store fs]. rewrite insert_insert_eq.
    destruct (decide (zip_path = q)) as [<-|Hne].
    - rewrite lookup_insert_eq, Hvz. cbn. unfold blank.
      by rewrite !decide_True.
    - by rewrite lookup_insert_ne. }
  eexists. split.
  { unfold create_zip. rewrite bind_unfold, Hmk. cbv beta iota.
    rewrite bind_unfold. cbn [print]. cbv beta iota.
    rewrite bind_unfold. unfold Os.path_getsize. cbn [fs].
    assert (fs v1 !! zip_path =
            Some (File (Zip ms (deflate va ms)) (Stat (st_mode mz') (clock va)))) as ->.
    { unfold v1. cbn [store fs]. by rewrite lookup_insert_eq. }
    reflexivity. }
  split; [done|].
  unfold archive_content. cbn [print fst fs].
  cbn [v1 store fs]. rewrite lookup_insert_eq, Hfs, lookup_insert_eq.
  f_equal. apply archive_members_shape. apply map_eq. intros q.
  rewrite !lookup_fmap. destruct (decide (q = zip_path)) as [->|Hne].
  - rewrite Haa. unfold va. cbn [store fs]. by rewrite lookup_insert_eq.
  - unfold va. cbn [store fs]. rewrite lookup_insert_ne by done.
    destruct Hs as [Hview _]. specialize (Hview q). unfold view in Hview.
    rewrite Hfs, lookup_insert_ne in Hview by done.
    destruct (fs v !! q) as [[|c1 m1]|], (fs aa !! q) as [[|c2 m2]|];
      try done.
    cbn in Hview |- *. unfold blank in Hview.
    rewrite !decide_False in Hview by done. congruence.
Qed.

(** *** The sources a run copies *)

(** [q] is a source of the manifest, or a [.png] entry of the QR source
    directory. *)
Definition is_source (q : path) : Prop :=
  q ∈ copies.*1 \/
  match OsPath.child_of qrcodes_dir q with
  | Some file => Str.endswith file ".png" = true
  | None => False
  end.

#[global] Instance is_source_dec q : Decision (is_source q).
Proof. unfold is_source. destruct (OsPath.child_of qrcodes_dir q); apply _. Defined.

(** No file among the sources is read-only. *)
Definition sources_writable (w : world) : Prop :=
  map_Forall (fun q n => is_source q ->
                match n with
                | File _ m => writable m = true
                | Dir => True
                end) (fs w).

#[global] Instance sources_writable_dec w : Decision (sources_writable w).
Proof.
  unfold sources_writable. apply map_Forall_dec. intros q [|c m]; apply _.
Defined.

Lemma sources_unlocked w w1 :
  sources_writable w -> evolves T_run w w1 -> unlocked w1.
Proof.
  intros Hw Hev. split.
  - intros entry Hin c m Hsrc. destruct (entry_clear_of _ Hin) as [Hclear _].
    rewrite (ev_frame _ _ _ Hev _ Hclear) in Hsrc.
    apply (Hw _ _ Hsrc). left. apply list_elem_of_fmap. by exists entry.
  - intros file Hpng c m Hsrc. cbn [qr_entry fst] in Hsrc.
    rewrite (ev_frame _ _ _ Hev _ (qr_source_clear file)) in Hsrc.
    apply (Hw _ _ Hsrc). right.
    by rewrite (proj2 (child_of_Some qrcodes_dir _ file) eq_refl).
Qed.

(** Whatever the second run comes to, it leaves a similar world with
    the same archive; it returns when no source is read-only. *)
Lemma second_run w w1 :
  create_package w = (w1, Ok tt) ->
  exists v r, create_package w1 = (v, r) /\
              similar v w1 /\
              archive_content v = archive_content w1 /\
              (unlocked w1 -> r = Ok tt).
Proof.
  intros Hrun. pose proof (run_settled w w1 Hrun) as Hset.
  apply create_package_ok in Hrun as (a1 & a2 & a3 & a4 & _ & _ & _ & _ & H5).
  apply create_zip_ok in H5 as (aa & m & _ & Hw & Hfs).
  apply write_file_ok in Hw as (m0 & Haa & _).
  assert (exists m0, fs aa !! zip_path = Some (File (Raw "") m0)) as Hzaa.
  { exists m0. rewrite Haa. cbn [store fs]. by rewrite lookup_insert_eq. }
  assert (forall v : world, fs v !! zip_path = fs w1 !! zip_path ->
            archive_content v = archive_content w1) as Hsame.
  { intros v Hv. unfold archive_content. by rewrite Hv. }
  pose proof (create_directories_settled w1 w1 Hset ltac:(reflexivity)) as H1.
  unfold create_package. rewrite bind_unfold, H1. cbv beta iota.
  destruct (copy_files_settled w1 w1 Hset ltac:(reflexivity)) as [S2 R2].
  pose proof (copy_entries_evolves copies w1) as E2.
  change (for_each copies copy_entry) with copy_files in E2.
  rewrite bind_unfold.
  destruct (copy_files w1) as [b2 [[]|e2]]; cbn [fst snd] in S2, R2, E2.
  2:{ eexists _, _. split; [done|]. split; [done|]. split.
      - apply Hsame. apply (ev_frame _ _ _ E2). compute_done.
      - intros Hok. by specialize (R2 Hok). }
  assert (fs b2 !! zip_path = fs w1 !! zip_path) as Z2.
  { apply (ev_frame _ _ _ E2). compute_done. }
  destruct (copy_qr_codes_settled w1 b2 Hset S2) as [S3 R3].
  pose proof (copy_qr_codes_evolves b2) as E3.
  rewrite bind_unfold.
  destruct (copy_qr_codes b2) as [b3 [[]|e3]]; cbn [fst snd] in S3, R3, E3.
  2:{ eexists _, _. split; [done|]. split; [done|]. split.
      - apply Hsame. rewrite <-Z2. apply (ev_frame _ _ _ E3). compute_done.
      - intros Hok. by specialize (R3 Hok). }
  destruct (create_readme_settled w1 b3 Hset S3) as (b4 & H4 & S4).
  destruct (create_zip_settled w1 b4 aa m Hset S4 Hfs Hzaa) as (w2 & H5 & S5 & Hc).
  rewrite bind_unfold, H4. cbv beta iota. rewrite H5.
  by exists w2, (Ok tt).
Qed.

(** C5. After a run that returned, a second run with nothing changed in
    between leaves an archive with the same members under the same
    names with the same bytes as the archive of the first run, and the
    whole volume shows the same tree with the same bytes and the same
    mode in every file (the bytes of the archive file itself, which
    holds timestamps, apart).  The second run returns when no source it
    copies is read-only; a read-only source has made its copy
    read-only, the second run then raises on overwriting it, and the
    archive of the first run stays in place. *)
Theorem second_run_same_archive w w1 :
  create_package w = (w1, Ok tt) ->
  is_Some (archive_content w1) /\
  archive_content (create_package w1).1 = archive_content w1 /\
  similar (create_package w1).1 w1 /\
  (sources_writable w -> exists w2, create_package w1 = (w2, Ok tt)).
Proof.
  intros Hrun. destruct (second_run w w1 Hrun) as (v & r & Hsecond & Hs & Hc & Hret).
  pose proof (stage_evolves _ _ _ _ _ create_package_evolves Hrun) as Hev.
  split.
  { apply create_package_ok in Hrun as (a1 & a2 & a3 & a4 & _ & _ & _ & _ & H5).
    apply create_zip_ok in H5 as (aa & m & _ & _ & Hfs).
    unfold archive_content. rewrite Hfs, lookup_insert_eq. eauto. }
  rewrite Hsecond. cbn [fst]. split; [done|]. split; [done|].
  intros Hw. exists v. rewrite (Hret (sources_unlocked w w1 Hw Hev)). done.
Qed.

Lemma second_run_same_archive_witness :
  is_Some (archive_content (create_package w_lesson).1) /\
  archive_content (create_package (create_package w_lesson).1).1 =
    archive_content (create_package w_lesson).1 /\
  similar (create_package (create_package w_lesson).1).1 (create_package w_lesson).1 /\
  exists w2, create_package (create_package w_lesson).1 = (w2, Ok tt).
Proof.
  pose proof (second_run_same_archive w_lesson (create_package w_lesson).1) as H.
  destruct H as (H1 & H2 & H3 & H4).
  - apply returns_eq. vm_compute. reflexivity.
  - split; [exact H1|]. split; [exact H2|]. split; [exact H3|].
    apply H4. compute_done.
Defined.

(** The teacher guide is read-only. *)
Definition w_read_only : world :=
  volume (home ++ [(guide_src, File (Raw "# Teacher guide") (Stat 292 7))]).

(** With a read-only source the first run returns, the second raises
    [PermissionError], and the archive is the one of the first run. *)
Lemma second_run_read_only :
  (create_package w_read_only).2 = Ok tt /\
  (create_package (create_package w_read_only).1).2 = Raise PermissionError /\
  fs (create_package (create_package w_read_only).1).1 !! zip_path =
    fs (create_package w_read_only).1 !! zip_path.
Proof.
  split; [by vm_compute|]. split; [by vm_compute|]. by vm_compute.
Qed.

(** * Further properties of the packager *)

(** ** A run as a chain of stages *)

(** Whatever its outcome, a run is the chain of its stages; a stage that
    is not reached leaves the world as it is. *)
Lemma run_trace (R1 R2 R3 R4 R5 : relation world)
    `{!Reflexive R1, !Reflexive R2, !Reflexive R3, !Reflexive R4, !Reflexive R5} :
  (forall u, R1 u (create_directories u).1) ->
  (forall u, R2 u (copy_files u).1) ->
  (forall u, R3 u (copy_qr_codes u).1) ->
  (forall u, R4 u (create_readme u).1) ->
  (forall u, R5 u (create_zip u).1) ->
  forall w, exists w1 w2 w3 w4,
    R1 w w1 /\ R2 w1 w2 /\ R3 w2 w3 /\ R4 w3 w4 /\ R5 w4 (create_package w).1.
Proof.
  intros H1 H2 H3 H4 H5 w. unfold create_package.
  rewrite bind_unfold. specialize (H1 w).
  destruct (create_directories w) as [w1 [[]|e]]; cbn [fst] in H1.
  2:{ exists w1, w1, w1, w1. by cbn [fst]. }
  rewrite bind_unfold. specialize (H2 w1).
  destruct (copy_files w1) as [w2 [[]|e]]; cbn [fst] in H2.
  2:{ exists w1, w2, w2, w2. by cbn [fst]. }
  rewrite bind_unfold. specialize (H3 w2).
  destruct (copy_qr_codes w2) as [w3 [[]|e]]; cbn [fst] in H3.
  2:{ exists w1, w2, w3, w3. by cbn [fst]. }
  rewrite bind_unfold. specialize (H4 w3).
  destruct (create_readme w3) as [w4 [[]|e]]; cbn [fst] in H4.
  2:{ exists w1, w2, w3, w4. by cbn [fst]. }
  exists w1, w2, w3, w4. eauto 10.
Qed.

(** ** Outside the package *)

(** [new_dirs_outside T w w']: away from [T] nothing happened but new
    directories. *)
Definition new_dirs_outside (T : path -> Prop) (w w' : world) : Prop :=
  forall q, ~ T q ->
    fs w' !! q = fs w !! q \/ (fs w !! q = None /\ fs w' !! q = Some Dir).

#[global] Instance new_dirs_outside_preorder T : PreOrder (new_dirs_outside T).
Proof.
  split.
  - intros w q _. by left.
  - intros w1 w2 w3 H12 H23 q Hq.
    destruct (H12 q Hq) as [E1|[E1 E1']], (H23 q Hq) as [E2|[E2 E2']].
    + left. congruence.
    + right. split; congruence.
    + right. split; congruence.
    + congruence.
Qed.

Lemma adds_dirs_outside T w w' : adds_dirs w w' -> new_dirs_outside T w w'.
Proof. intros H q _. apply H. Qed.

Lemma evolves_outside (T T' : path -> Prop) w w' :
  (forall q, T' q -> T q) -> evolves T' w w' -> new_dirs_outside T w w'.
Proof.
  intros HT Hev q Hq. left. apply (ev_frame _ _ _ Hev). intros H. by apply Hq, HT.
Qed.

(** The files a run writes: the copies, the README and the archive. *)
Definition T_written (q : path) : Prop :=
  T_entries copies q \/ T_qr q \/ T_readme q \/ q = zip_path.

Lemma create_directories_adds_dirs : preserves adds_dirs create_directories.
Proof.
  pres_bind; [apply makedirs_adds_dirs|].
  apply preserves_for_each; [apply _|]. intros d _. apply makedirs_adds_dirs.
Qed.

Lemma make_archive_new_dirs base_name root_dir base :
  preserves (new_dirs_outside (fun q => q = OsPath.add_suffix base_name ".zip"))
    (Shutil.make_archive base_name root_dir base).
Proof.
  unfold Shutil.make_archive.
  pres_bind; [pres_pure|].
  pres_bind; [apply preserves_if; [pres_ret|pres_raise]|].
  pres_bind; [pres_pure|].
  pres_bind.
  { apply preserves_if; [|pres_ret].
    eapply preserves_weaken; [|apply makedirs_adds_dirs].
    intros w w'. apply adds_dirs_outside. }
  pres_bind.
  { intros w. eapply evolves_outside; [|apply write_file_evolves]. done. }
  pres_bind; [pres_pure|].
  pres_bind; [|pres_ret].
  intros w. eapply evolves_outside; [|apply zip_close_evolves]. done.
Qed.

Lemma print_new_dirs T line : preserves (new_dirs_outside T) (print line).
Proof. intros w q _. by left. Qed.

Lemma create_zip_new_dirs :
  preserves (new_dirs_outside (fun q => q = zip_path)) create_zip.
Proof.
  pres_bind.
  { pose proof (make_archive_new_dirs (OsPath.splitext_root zip_path) base_dir
                  [package_name]) as H.
    by rewrite zip_filename_eq in H. }
  pres_bind; [apply print_new_dirs|].
  pres_bind; [pres_pure|apply print_new_dirs].
Qed.

Lemma create_package_new_dirs : preserves (new_dirs_outside T_written) create_package.
Proof.
  unfold create_package.
  pres_bind.
  { eapply preserves_weaken; [|apply create_directories_adds_dirs].
    intros w w'. apply adds_dirs_outside. }
  pres_bind.
  { intros w. eapply evolves_outside; [|apply (copy_entries_evolves copies)].
    unfold T_written. tauto. }
  pres_bind.
  { intros w. eapply evolves_outside; [|apply copy_qr_codes_evolves].
    unfold T_written. tauto. }
  pres_bind.
  { intros w. eapply evolves_outside; [|apply create_readme_evolves].
    unfold T_written. tauto. }
  eapply preserves_weaken; [|apply create_zip_new_dirs].
  intros w w' H q Hq. apply H. unfold T_written in Hq. tauto.
Qed.

Lemma prefix_snoc_inv {A} (q l : list A) x :
  q `prefix_of` l ++ [x] -> q `prefix_of` l \/ q = l ++ [x].
Proof.
  intros [k Hk]. destruct k as [|y k _] using rev_ind.
  - right. by rewrite app_nil_r in Hk.
  - left. rewrite (assoc_L (++)) in Hk. apply app_inj_tail in Hk as [-> _].
    by apply prefix_app_r.
Qed.

Lemma T_written_package q : T_written q -> package_dir `prefix_of` q \/ q = zip_path.
Proof.
  intros [He|[[Hq _]|[-> | ->]]].
  - left.
    assert (Forall (fun t : path => package_dir `prefix_of` t)
              (copies ≫= entry_targets)) as Hall by compute_done.
    rewrite Forall_forall in Hall. by apply Hall.
  - left. etrans; [|exact Hq]. by exists ["qrcodes"].
  - left. by exists ["README.md"].
  - by right.
Qed.

Lemma T_run_package q :
  T_run q -> q `prefix_of` base_dir \/ package_dir `prefix_of` q \/ q = zip_path.
Proof.
  intros [Hd|[He|[Hq|[Hr|Hz]]]].
  - apply Exists_exists in Hd as (d & _ & [Hd| ->]%prefix_snoc_inv).
    + change package_dir with (base_dir ++ [package_name]) in Hd.
      apply prefix_snoc_inv in Hd as [Hd| ->]; [by left|by right; left].
    + right. left. by exists [d].
  - right. apply T_written_package. by left.
  - right. apply T_written_package. right. by left.
  - right. apply T_written_package. right. right. by left.
  - unfold T_zip in Hz.
    change zip_path with (base_dir ++ [package_name +:+ ".zip"]) in Hz.
    apply prefix_snoc_inv in Hz as [Hz| ->]; [by left|by right; right].
Qed.

(** X1. Outside the package directory and the archive, a run, returning
    or raising, changes nothing that is there; all it may do is make the
    missing directories on the way to the base directory. *)
Theorem run_leaves_the_rest w q :
  ~ package_dir `prefix_of` q -> q <> zip_path ->
  fs (create_package w).1 !! q = fs w !! q \/
  (q `prefix_of` base_dir /\
   fs w !! q = None /\ fs (create_package w).1 !! q = Some Dir).
Proof.
  intros Hpkg Hzip.
  destruct (create_package_new_dirs w q) as [Heq|[Hn Hd]]; [|by left|].
  { intros [?|?]%T_written_package; done. }
  right. split; [|done].
  destruct (decide (T_run q)) as [HT|HT].
  - by apply T_run_package in HT as [?|[?|?]].
  - rewrite (ev_frame _ _ _ (create_package_evolves w) q HT) in Hd. congruence.
Qed.

Lemma run_leaves_the_rest_witness :
  fs (create_package w_lesson).1 !! guide_src = fs w_lesson !! guide_src \/
  (guide_src `prefix_of` base_dir /\
   fs w_lesson !! guide_src = None /\
   fs (create_package w_lesson).1 !! guide_src = Some Dir).
Proof.
  refine (run_leaves_the_rest w_lesson guide_src _ _); compute_done.
Defined.

(** X2. A run, returning or raising, leaves its inputs as they are: the
    sources of the manifest and everything at or below the QR source
    directory hold after the run what they held before it. *)
Theorem sources_untouched w :
  Forall (fun entry : path * path =>
            fs (create_package w).1 !! entry.1 = fs w !! entry.1) copies /\
  (forall rel, fs (create_package w).1 !! (qrcodes_dir ++ rel) =
               fs w !! (qrcodes_dir ++ rel)).
Proof.
  pose proof (create_package_evolves w) as Hev. split.
  - apply Forall_forall. intros entry Hin.
    apply (ev_frame _ _ _ Hev). by apply entry_clear_of.
  - intros rel. apply (ev_frame _ _ _ Hev).
    intros [H|[[=]|H]]%T_run_shape.
    + rewrite length_app in H. simpl in H. lia.
    + apply (f_equal (fun p : path => p !! 4%nat)) in H. done.
Qed.

(** ** The console of a run *)

Lemma create_zip_report w4 w' :
  create_zip w4 = (w', Ok tt) ->
  exists c m, fs w' !! zip_path = Some (File c m) /\
    stdout w' = stdout w4 ++ [archive_line; size_line (Os.content_size c)].
Proof.
  intros (u & p & Hz & (u1 & [] & [= <-] & (u2 & n & Hn & [= <-])%bind_ok)%bind_ok)%bind_ok.
  pose proof (make_archive_silent (OsPath.splitext_root zip_path) base_dir
                [package_name] w4) as Hs.
  rewrite Hz in Hs. cbn [fst] in Hs. unfold silent in Hs.
  apply make_archive_ok in Hz as (wa & m & _ & _ & ->).
  revert Hn. unfold Os.path_getsize. cbn [print fst store fs].
  rewrite lookup_insert_eq. intros [= <- <-]. cbn [fs stdout store] in *.
  rewrite lookup_insert_eq. eexists _, _. split; [done|].
  cbn [Os.content_size]. rewrite Hs, <-(assoc_L (++)). done.
Qed.

(** X3. The console of a run that returns: one line for each manifest
    entry in manifest order ([Copied: <base name>] when the source was
    there, [Not found: <path>] when not), one [Copied QR: <file>] line
    for each entry of the QR directory whose name ends in [.png], then
    [Created README.md], the line naming the archive and the line giving
    the size of the archive the run left, and nothing else. *)
Theorem console_of_a_run w w' :
  create_package w = (w', Ok tt) ->
  exists files c m,
    NoDup files /\
    (forall file, file ∈ files <->
       is_Some (fs w !! qrcodes_dir) /\
       is_Some (fs w !! OsPath.join qrcodes_dir [file])) /\
    fs w' !! zip_path = Some (File c m) /\
    printed w w' =
      (entry_line w <$> copies) ++ (files ≫= qr_lines) ++
      ["Created README.md"; archive_line; size_line (Os.content_size c)].
Proof.
  intros Hrun. destruct (run_out w w' Hrun) as (files & n & Hnd & Hfiles & Hout).
  apply create_package_ok in Hrun as (w1 & w2 & w3 & w4 & _ & _ & _ & _ & H5).
  apply create_zip_report in H5 as (c & m & Hz & Hrep).
  exists files, c, m. split; [done|]. split; [done|]. split; [done|].
  apply printed_app.
  assert (size_line n = size_line (Os.content_size c)) as <-; [|done].
  rewrite Hrep in Hout.
  change [archive_line; size_line (Os.content_size c)]
    with ([archive_line] ++ [size_line (Os.content_size c)]) in Hout.
  change ["Created README.md"; archive_line; size_line n]
    with (["Created README.md"; archive_line] ++ [size_line n]) in Hout.
  rewrite !(assoc_L (++)) in Hout. by apply app_inj_tail in Hout as [_ ?].
Qed.

Lemma console_of_a_run_witness :
  exists files c m,
    NoDup files /\
    (forall file, file ∈ files <->
       is_Some (fs w_lesson !! qrcodes_dir) /\
       is_Some (fs w_lesson !! OsPath.join qrcodes_dir [file])) /\
    fs (create_package w_lesson).1 !! zip_path = Some (File c m) /\
    printed w_lesson (create_package w_lesson).1 =
      (entry_line w_lesson <$> copies) ++ (files ≫= qr_lines) ++
      ["Created README.md"; archive_line; size_line (Os.content_size c)].
Proof.
  refine (console_of_a_run w_lesson (create_package w_lesson).1 _).
  apply returns_eq. vm_compute. reflexivity.
Defined.

(** ** What the QR scan leaves out *)

(** The places the QR scan may write in [u]: where a [.png] entry of the
    QR directory lands. *)
Definition T_png (u : world) (q : path) : Prop :=
  exists file, is_Some (fs u !! (qrcodes_dir ++ [file])) /\
               Str.endswith file ".png" = true /\ q ∈ qr_targets file.

Lemma copy_qr_png file u :
  evolves (fun q => Str.endswith file ".png" = true /\ q ∈ qr_targets file)
    u (copy_qr file u).1.
Proof.
  pose proof (copy_qr_evolves file u) as Hev. unfold copy_qr in *.
  destruct (Str.endswith file ".png"); [|apply evolves_refl].
  eapply evolves_weaken; [|exact Hev]. intros q ->. split; [done|].
  apply copy2_dst_qr.
Qed.

Lemma copy_qr_codes_png u : evolves (T_png u) u (copy_qr_codes u).1.
Proof.
  unfold copy_qr_codes. rewrite bind_unfold. cbn [Os.path_exists].
  case_bool_decide; [|apply evolves_refl].
  rewrite bind_unfold. unfold Os.listdir.
  destruct (fs u !! qrcodes_dir) as [[|c m]|]; try apply evolves_refl.
  apply (preserves_for_each (evolves (T_png u))).
  intros file Hin%elem_of_listing v.
  eapply evolves_weaken; [|apply copy_qr_png].
  intros q [Hpng Hq]. by exists file.
Qed.

(** What the QR scan does to the world it runs in. *)
Definition qr_scanned (u u' : world) : Prop := evolves (T_png u) u u'.

#[global] Instance qr_scanned_refl : Reflexive qr_scanned.
Proof. intros u. apply evolves_refl. Qed.

(** X4. Only [.png] entries are copied: a path below [qrcodes/] of the
    package that a run, returning or raising, has changed is the
    landing place of an entry of the QR source directory whose name
    ends in [.png] (the match is on the exact suffix, lower case); other
    entries leave no trace in the package. *)
Theorem only_png_entries_copied w q :
  OsPath.join package_dir ["qrcodes"] `prefix_of` q ->
  q <> OsPath.join package_dir ["qrcodes"] ->
  fs (create_package w).1 !! q <> fs w !! q ->
  exists file,
    is_Some (fs w !! OsPath.join qrcodes_dir [file]) /\
    Str.endswith file ".png" = true /\
    (q = OsPath.join package_dir ["qrcodes"; file] \/
     q = OsPath.join package_dir ["qrcodes"; file; file]).
Proof.
  intros Hpre Hne Hchanged.
  assert (T_qr q) as Hq by done.
  destruct (run_trace (evolves T_dirs) (evolves (T_entries copies))
              qr_scanned (evolves T_readme)
              (evolves T_zip) create_directories_evolves
              (copy_entries_evolves copies) copy_qr_codes_png
              create_readme_evolves create_zip_evolves w)
    as (w1 & w2 & w3 & w4 & E1 & E2 & E3 & E4 & E5).
  assert (forall p, ~ T_run p -> fs w2 !! p = fs w !! p) as Hsame.
  { intros p Hp. rewrite (ev_frame _ _ _ E2), (ev_frame _ _ _ E1); [done|..];
      unfold T_run in Hp; tauto. }
  assert (fs w2 !! q = fs w !! q) as H12.
  { rewrite (ev_frame _ _ _ E2), (ev_frame _ _ _ E1);
      [done|by apply T_qr_not_dirs|by apply T_qr_not_entries]. }
  assert (fs (create_package w).1 !! q = fs w3 !! q) as H35.
  { rewrite (ev_frame _ _ _ E5), (ev_frame _ _ _ E4);
      [done|by apply T_qr_not_readme|by apply T_qr_not_zip]. }
  destruct Hpre as [k ->].
  destruct k as [|file k]; [by rewrite app_nil_r in Hne|].
  destruct (decide (is_Some (fs w2 !! (qrcodes_dir ++ [file])) /\
                    Str.endswith file ".png" = true /\
                    OsPath.join package_dir ["qrcodes"] ++ file :: k ∈ qr_targets file))
    as [(Hf & Hpng & Hin)|Hno].
  - exists file. rewrite (Hsame _ (qr_source_clear file)) in Hf.
    split; [done|]. split; [done|].
    unfold qr_targets in Hin. rewrite !elem_of_cons, elem_of_nil in Hin.
    destruct Hin as [Hin|[Hin|[]]]; [left|right]; exact Hin.
  - exfalso. apply Hchanged. rewrite H35, <-H12.
    apply (ev_frame _ _ _ E3). intros (file' & Hf & Hpng & Hin).
    assert (file' = file) as ->.
    { unfold qr_targets in Hin. rewrite !elem_of_cons, elem_of_nil in Hin.
      destruct Hin as [Hin|[Hin|[]]]; apply app_inv_head in Hin; congruence. }
    by apply Hno.
Qed.

Lemma only_png_entries_copied_witness :
  exists file,
    is_Some (fs w_lesson !! OsPath.join qrcodes_dir [file]) /\
    Str.endswith file ".png" = true /\
    (OsPath.join package_dir ["qrcodes"; "qr_a.png"] =
       OsPath.join package_dir ["qrcodes"; file] \/
     OsPath.join package_dir ["qrcodes"; "qr_a.png"] =
       OsPath.join package_dir ["qrcodes"; file; file]).
Proof.
  refine (only_png_entries_copied w_lesson
            (OsPath.join package_dir ["qrcodes"; "qr_a.png"]) _ _ _).
  - compute_done.
  - compute_done.
  - vm_compute. discriminate.
Defined.

(** ** What was in the package before the run *)





(** ** When a run cannot go on *)

(** The stages before the archive is made. *)
Definition prepare : M unit :=
  create_directories ;; copy_files ;; copy_qr_codes ;; create_readme.

Lemma create_package_prepare w : create_package w = (prepare ;; create_zip) w.
Proof.
  unfold create_package, prepare. rewrite !bind_unfold.
  destruct (create_directories w) as [w1 [[]|e]]; [|done].
  rewrite !bind_unfold. destruct (copy_files w1) as [w2 [[]|e]]; [|done].
  rewrite !bind_unfold. destruct (copy_qr_codes w2) as [w3 [[]|e]]; [|done].
  rewrite !bind_unfold. by destruct (create_readme w3) as [w4 [[]|e]].
Qed.

(** What these stages may write. *)
Definition T_prepare (q : path) : Prop :=
  T_dirs q \/ T_entries copies q \/ T_qr q \/ T_readme q.

#[global] Instance T_prepare_dec q : Decision (T_prepare q).
Proof. unfold T_prepare. apply _. Defined.

Lemma prepare_evolves : preserves (evolves T_prepare) prepare.
Proof.
  unfold prepare, T_prepare.
  pres_bind.
  { eapply respects_weaken; [|apply create_directories_evolves]. tauto. }
  pres_bind.
  { eapply respects_weaken; [|apply copy_entries_evolves]. tauto. }
  pres_bind.
  { eapply respects_weaken; [|apply copy_qr_codes_evolves]. tauto. }
  eapply respects_weaken; [|apply create_readme_evolves]. tauto.
Qed.

(** X6. The archive is written last: when a stage before it raises
    (making the directories, copying, writing the README), the run ends
    with that exception and whatever was at the archive path, an archive
    of an earlier run or nothing, is left as it was. *)
Theorem failure_keeps_old_archive w w' e :
  prepare w = (w', Raise e) ->
  create_package w = (w', Raise e) /\
  fs w' !! zip_path = fs w !! zip_path.
Proof.
  intros Hp. split.
  - by rewrite create_package_prepare, bind_unfold, Hp.
  - pose proof (stage_evolves _ _ _ _ _ prepare_evolves Hp) as Hev.
    apply (ev_frame _ _ _ Hev). compute_done.
Qed.

Lemma failure_keeps_old_archive_witness :
  create_package w_readme_dir = ((prepare w_readme_dir).1, Raise PermissionError) /\
  fs (prepare w_readme_dir).1 !! zip_path = fs w_readme_dir !! zip_path.
Proof.
  refine (failure_keeps_old_archive w_readme_dir (prepare w_readme_dir).1
            PermissionError _).
  apply raises_eq. vm_compute. reflexivity.
Defined.

(** X7. A file where the package directory is to be stops the run at
    once: [os.makedirs(package_dir, exist_ok=True)] raises
    [FileExistsError] (its [exist_ok] covers directories only), and
    nothing has been changed or printed. *)
Theorem package_dir_is_a_file w c m :
  fs w !! package_dir = Some (File c m) ->
  is_Some (fs w !! base_dir) ->
  create_package w = (w, Raise FileExistsError).
Proof.
  intros Hpkg Hbase. unfold create_package, create_directories.
  rewrite !bind_unfold.
  assert (Os.makedirs package_dir true w = (w, Raise FileExistsError)) as ->; [|done].
  unfold Os.makedirs. rewrite makedirs_rev_unfold, bind_unfold.
  assert (make_head (reverse package_dir) true w = (w, Ok tt)) as ->.
  { change (reverse package_dir) with (package_name :: reverse base_dir).
    change (reverse base_dir) with ["Streamli"; "atchy"; "Users"; "c:"].
    cbn [make_head]. rewrite bind_unfold. cbn [Os.path_exists].
    change (reverse ["Streamli"; "atchy"; "Users"; "c:"]) with base_dir.
    by rewrite bool_decide_eq_true_2. }
  cbv beta iota. rewrite reverse_involutive.
  unfold make_leaf, catch. rewrite (mkdir_exists _ _ _ Hpkg).
  rewrite bind_unfold. cbn [Os.path_isdir]. by rewrite Hpkg.
Qed.

Definition w_package_file : world :=
  volume (home ++ [(package_dir, File (Raw "not a directory") (Stat 420 1))]).

Lemma package_dir_is_a_file_witness :
  create_package w_package_file = (w_package_file, Raise FileExistsError).
Proof.
  refine (package_dir_is_a_file w_package_file (Raw "not a directory") (Stat 420 1) _ _).
  - vm_compute. reflexivity.
  - compute_done.
Defined.

(** X8. What a run that returns tells about the volume it started on:
    nothing but directories stood where the package directories are to
    be, no source of the manifest was a directory, the QR source
    directory was a directory if it was there and none of its [.png]
    entries was a directory, and neither [README.md] of the package nor
    the archive path was a directory.  Any of these being otherwise,
    the run raises. *)
Theorem run_returns_only_if w w' :
  create_package w = (w', Ok tt) ->
  (forall p n, p ∈ package_dir :: ((fun d => OsPath.join package_dir [d]) <$> dirs) ->
               fs w !! p = Some n -> n = Dir) /\
  Forall (fun entry : path * path => fs w !! entry.1 <> Some Dir) copies /\
  (forall n, fs w !! qrcodes_dir = Some n -> n = Dir) /\
  (forall file, is_Some (fs w !! qrcodes_dir) ->
                Str.endswith file ".png" = true ->
                fs w !! OsPath.join qrcodes_dir [file] <> Some Dir) /\
  fs w !! OsPath.join package_dir ["README.md"] <> Some Dir /\
  fs w !! zip_path <> Some Dir.
Proof.
  intros Hrun. pose proof (stage_evolves _ _ _ _ _ create_package_evolves Hrun) as Hev.
  destruct (run_ok_kept w w' Hrun) as (Hdirs & Hentries & Hqr & _).
  apply create_package_ok in Hrun as (w1 & w2 & w3 & w4 & H1 & H2 & H3 & H4 & H5).
  pose proof (stage_evolves _ _ _ _ _ create_directories_evolves H1) as E1.
  pose proof (stage_evolves _ _ _ _ _ (copy_entries_evolves copies) H2) as E2.
  pose proof (stage_evolves _ _ _ _ _ copy_qr_codes_evolves H3) as E3.
  pose proof (stage_evolves _ _ _ _ _ create_readme_evolves H4) as E4.
  split; [|split; [|split; [|split; [|split]]]].
  - intros p n Hp Hn. destruct (ev_kind _ _ _ Hev p n Hn) as (n' & Hn' & Hk).
    rewrite (Hdirs p Hp) in Hn'. injection Hn' as <-. by destruct n.
  - apply Forall_forall. intros entry Hin. destruct (Hentries entry Hin) as [_ Hd].
    destruct (fs w !! entry.1) as [n|]; [|done].
    destruct Hd as (c & m & -> & _). done.
  - intros n Hn. unfold qr_done in Hqr. rewrite Hn in Hqr. by destruct Hqr.
  - intros file [n Hn] Hpng. unfold qr_done in Hqr. rewrite Hn in Hqr.
    destruct Hqr as [_ Hqr]. intros Hd.
    change (OsPath.join qrcodes_dir [file]) with (qrcodes_dir ++ [file]) in Hd.
    destruct (Hqr file) as [_ Hdone]; [by rewrite Hd|done|].
    cbn [qr_entry fst] in Hdone. rewrite Hd in Hdone. by destruct Hdone as (c & m & [=] & _).
  - change (OsPath.join package_dir ["README.md"]) with readme_path.
    apply bind_ok in H4 as (u & [] & Hw & _).
    apply write_file_ok in Hw as (m & _ & _ & Hnd & _).
    rewrite (ev_frame _ _ _ E3), (ev_frame _ _ _ E2), (ev_frame _ _ _ E1) in Hnd;
      [done|compute_done..].
  - apply create_zip_ok in H5 as (wa & m & _ & Hw & _).
    apply write_file_ok in Hw as (m0 & _ & _ & Hnd & _).
    rewrite (ev_frame _ _ _ E4), (ev_frame _ _ _ E3), (ev_frame _ _ _ E2),
      (ev_frame _ _ _ E1) in Hnd; [done|compute_done..].
Qed.

Lemma run_returns_only_if_witness :
  (forall p n, p ∈ package_dir :: ((fun d => OsPath.join package_dir [d]) <$> dirs) ->
               fs w_lesson !! p = Some n -> n = Dir) /\
  Forall (fun entry : path * path => fs w_lesson !! entry.1 <> Some Dir) copies /\
  (forall n, fs w_lesson !! qrcodes_dir = Some n -> n = Dir) /\
  (forall file, is_Some (fs w_lesson !! qrcodes_dir) ->
                Str.endswith file ".png" = true ->
                fs w_lesson !! OsPath.join qrcodes_dir [file] <> Some Dir) /\
  fs w_lesson !! OsPath.join package_dir ["README.md"] <> Some Dir /\
  fs w_lesson !! zip_path <> Some Dir.
Proof.
  refine (run_returns_only_if w_lesson (create_package w_lesson).1 _).
  apply returns_eq. vm_compute. reflexivity.
Defined.

(** ** The volume stays a tree *)

Lemma create_zip_keeps_wf : preserves keeps_wf create_zip.
Proof.
  pres_bind.
  { unfold Shutil.make_archive.
    pres_bind; [pres_pure|].
    pres_bind; [apply preserves_if; [pres_ret|pres_raise]|].
    pres_bind; [pres_pure|].
    pres_bind; [apply preserves_if; [apply makedirs_keeps_wf|pres_ret]|].
    pres_bind; [apply write_file_keeps_wf|].
    pres_bind; [pres_pure|].
    pres_bind; [apply zip_close_keeps_wf|pres_ret]. }
  pres_bind; [apply print_keeps_wf|].
  pres_bind; [pres_pure|apply print_keeps_wf].
Qed.

(** X9. A run, returning or raising, leaves a well-formed volume
    well-formed: whatever it creates sits in a directory, and nothing is
    ever put below a file. *)
Theorem run_keeps_volume_well_formed w :
  wf w -> wf (create_package w).1.
Proof.
  revert w.
  change (preserves keeps_wf create_package). unfold create_package.
  pres_bind; [apply create_directories_keeps_wf|].
  pres_bind; [apply copy_files_keeps_wf|].
  pres_bind; [apply copy_qr_codes_keeps_wf|].
  pres_bind; [apply create_readme_keeps_wf|apply create_zip_keeps_wf].
Qed.

Lemma run_keeps_volume_well_formed_witness : wf (create_package w_lesson).1.
Proof.
  refine (run_keeps_volume_well_formed w_lesson _). compute_done.
Defined.

(** ** More on strings *)

Lemma str_app_cons a (p s : string) : String a p +:+ s = String a (p +:+ s).
Proof. reflexivity. Qed.

Lemma str_app_length (p s : string) :
  String.length (p +:+ s) = (String.length p + String.length s)%nat.
Proof. induction p as [|a p IH]; simpl; [done|]. by rewrite IH. Qed.

Lemma str_substring_all (s : string) : String.substring 0 (String.length s) s = s.
Proof. induction s as [|a s IH]; simpl; [done|]. by rewrite IH. Qed.

Lemma str_substring_skip (p s : string) n :
  String.substring (String.length p) n (p +:+ s) = String.substring 0 n s.
Proof. induction p as [|a p IH]; simpl; [done|]. by rewrite IH. Qed.

Lemma str_substring_take (p s : string) :
  String.substring 0 (String.length p) (p +:+ s) = p.
Proof.
  induction p as [|a p IH]; simpl; [by destruct s|]. by rewrite IH.
Qed.

Lemma str_substring_split (s : string) i :
  (i <= String.length s)%nat ->
  s = String.substring 0 i s +:+ String.substring i (String.length s - i) s.
Proof.
  revert i. induction s as [|a s IH]; intros i Hi; simpl in *.
  - by destruct i.
  - destruct i as [|i]; simpl.
    + by rewrite str_substring_all.
    + rewrite str_app_cons. f_equal. apply IH. lia.
Qed.

Lemma endswith_app (p suffix : string) : Str.endswith (p +:+ suffix) suffix = true.
Proof.
  unfold Str.endswith. rewrite str_app_length.
  apply andb_true_iff. split; [apply Nat.leb_le; lia|]. apply String.eqb_eq.
  replace (String.length p + String.length suffix - String.length suffix)%nat
    with (String.length p) by lia.
  by rewrite str_substring_skip, str_substring_all.
Qed.

(** X11. [s.endswith(suffix)] holds exactly when [s] is some string
    followed by [suffix]; the match is on the characters as they are,
    so case matters. *)
Theorem endswith_spec (s suffix : string) :
  Str.endswith s suffix = true <-> exists p, s = p +:+ suffix.
Proof.
  split; [|intros [p ->]; apply endswith_app].
  unfold Str.endswith. rewrite andb_true_iff, Nat.leb_le, String.eqb_eq.
  intros [Hle Heq].
  exists (String.substring 0 (String.length s - String.length suffix) s).
  pose proof (str_substring_split s (String.length s - String.length suffix)) as H.
  replace (String.length s - (String.length s - String.length suffix))%nat
    with (String.length suffix) in H by lia.
  rewrite Heq in H. apply H. lia.
Qed.

Lemma str_app_assoc (x y z : string) : x +:+ (y +:+ z) = (x +:+ y) +:+ z.
Proof. induction x as [|a x IH]; [done|]. by rewrite !str_app_cons, IH. Qed.

Lemma str_app_nil_r (s : string) : s +:+ "" = s.
Proof. induction s as [|a s IH]; [done|]. by rewrite str_app_cons, IH. Qed.

Lemma contains_char_cons c a (s : string) :
  Str.contains (String c "") (String a s) = false ->
  Ascii.eqb a c = false /\ Str.contains (String c "") s = false.
Proof.
  cbn [Str.contains String.prefix]. intros [Hp Hs]%orb_false_iff. split; [|done].
  destruct (Ascii.eqb a c) eqn:Heq; [|done].
  apply Ascii.eqb_eq in Heq as ->. destruct (ascii_dec c c); [|done].
  by destruct s.
Qed.

Lemma rindex_none c (s : string) i found :
  Str.contains (String c "") s = false -> Str.rindex c s i found = found.
Proof.
  revert i found. induction s as [|a s IH]; intros i found Hs; [done|].
  apply contains_char_cons in Hs as [Ha Hs]. cbn [Str.rindex].
  rewrite Ha. by apply IH.
Qed.

Lemma rindex_last c (p s : string) i found :
  Str.contains (String c "") s = false ->
  Str.rindex c (p +:+ String c s) i found = Some (i + String.length p)%nat.
Proof.
  intros Hs. revert i found. induction p as [|a p IH]; intros i found.
  - change ("" +:+ String c s) with (String c s). cbn [Str.rindex].
    rewrite Ascii.eqb_refl, rindex_none by done. simpl. f_equal. lia.
  - rewrite str_app_cons. cbn [Str.rindex]. rewrite IH. simpl. f_equal. lia.
Qed.

Lemma rindex_bound c (s : string) i found d :
  Str.rindex c s i found = Some d ->
  found = Some d \/ (i <= d < i + String.length s)%nat.
Proof.
  revert i found. induction s as [|a s IH]; intros i found; cbn [Str.rindex].
  - by left.
  - intros [Hf|Hd]%IH; simpl.
    + destruct (Ascii.eqb a c); [|by left]. injection Hf as <-. right. lia.
    + right. lia.
Qed.

Lemma splitext_stem (stem ext : string) :
  Str.contains "." ext = false ->
  Str.splitext (stem +:+ "." +:+ ext) =
    if Str.all_dots stem then (stem +:+ "." +:+ ext, "")
    else (stem, "." +:+ ext).
Proof.
  intros Hext. unfold Str.splitext.
  change ("." +:+ ext) with (String "." ext).
  rewrite (rindex_last "." stem ext 0 None Hext). cbn [Nat.add].
  rewrite str_substring_take. destruct (Str.all_dots stem); [done|].
  f_equal. rewrite str_app_length.
  replace (String.length stem + String.length (String "." ext) - String.length stem)%nat
    with (String.length (String "." ext)) by lia.
  by rewrite str_substring_skip, str_substring_all.
Qed.

(** X12. [os.path.splitext] cuts a name in two without losing a
    character; a name [stem.ext] whose [ext] holds no dot is cut before
    its last dot, unless the stem consists of dots only: then the name
    has no extension. *)
Theorem splitext_spec :
  (forall name, (Str.splitext name).1 +:+ (Str.splitext name).2 = name) /\
  (forall stem ext, Str.contains "." ext = false ->
     Str.splitext (stem +:+ "." +:+ ext) =
       if Str.all_dots stem then (stem +:+ "." +:+ ext, "")
       else (stem, "." +:+ ext)).
Proof.
  split; [|apply splitext_stem].
  intros name. unfold Str.splitext.
  destruct (Str.rindex "." name 0 None) as [d|] eqn:Hd; cbn [fst snd];
    [|apply str_app_nil_r].
  destruct (Str.all_dots _); cbn [fst snd]; [apply str_app_nil_r|].
  apply rindex_bound in Hd as [[=]|Hd]. symmetry. apply str_substring_split. lia.
Qed.

(** X13. Changing the extension of a path, as the archive name is made
    ([os.path.splitext(zip_path)[0]], to which [make_archive] adds
    [.zip]) and as the converter names its output
    ([os.path.splitext(md)[0] + '.pdf']): for a file [stem.ext] whose
    stem is not made of dots only and whose [ext] holds no dot, the
    result is [stem] with the new extension, in the same directory. *)
Theorem change_extension (dir : path) (stem ext new : string) :
  Str.all_dots stem = false -> Str.contains "." ext = false ->
  OsPath.add_suffix (OsPath.splitext_root (OsPath.join dir [stem +:+ "." +:+ ext])) new =
    OsPath.join dir [stem +:+ new].
Proof.
  intros Hstem Hext. unfold OsPath.join, OsPath.splitext_root.
  destruct (dir ++ [stem +:+ "." +:+ ext]) as [|x l] eqn:Hl.
  { by destruct dir. }
  rewrite <-Hl, dirname_snoc, basename_snoc.
  rewrite splitext_stem by done. rewrite Hstem. cbn [fst].
  unfold OsPath.add_suffix. destruct (dir ++ [stem]) as [|y k] eqn:Hk.
  { by destruct dir. }
  by rewrite <-Hk, dirname_snoc, basename_snoc.
Qed.

Lemma change_extension_witness :
  OsPath.add_suffix
    (OsPath.splitext_root (OsPath.join base_dir [package_name +:+ "." +:+ "zip"])) ".zip" =
    OsPath.join base_dir [package_name +:+ ".zip"].
Proof.
  refine (change_extension base_dir package_name "zip" ".zip" _ _);
    vm_compute; reflexivity.
Defined.

Lemma round53_small (n : N) : (n < 2 ^ 53)%N -> Str.round53 n = n.
Proof.
  intros Hn. unfold Str.round53.
  assert (N.size n - 53 = 0)%N as ->; [|done].
  destruct (decide (n = 0%N)) as [->|Hne]; [done|].
  rewrite N.size_log2 by done.
  assert (N.log2 n < 53)%N by (apply N.log2_lt_pow2; lia). lia.
Qed.

(** X14. The size line gives the size in KiB to one decimal: for every
    size below 2^53 bytes (where the division is exact in floating
    point) the number shown is within a twentieth of a KiB of the byte
    count divided by 1024. *)
Theorem format_kb_accuracy (n : N) :
  (n < 2 ^ 53)%N ->
  exists t : N,
    Str.format_kb n = pretty (t / 10)%N +:+ "." +:+ pretty (t mod 10)%N /\
    (1024 * t <= 10 * n + 512)%N /\ (10 * n <= 1024 * t + 512)%N.
Proof.
  intros Hn. unfold Str.format_kb. rewrite (round53_small n Hn). cbv zeta.
  pose proof (N.div_mod (10 * n) 1024 ltac:(done)) as Hdm.
  pose proof (N.mod_lt (10 * n) 1024 ltac:(done)) as Hlt.
  set (q := (10 * n / 1024)%N) in *. set (r := (10 * n mod 1024)%N) in *.
  destruct ((512 <? r)%N || ((r =? 512)%N && N.odd q)) eqn:Hup.
  - exists (q + 1)%N. split; [done|].
    apply orb_true_iff in Hup as [Hr%N.ltb_lt|[Hr%N.eqb_eq _]%andb_true_iff]; lia.
  - exists q. split; [done|].
    apply orb_false_iff in Hup as [Hr%N.ltb_ge _]. lia.
Qed.

Lemma format_kb_accuracy_witness :
  exists t : N,
    Str.format_kb 2100 = pretty (t / 10)%N +:+ "." +:+ pretty (t mod 10)%N /\
    (1024 * t <= 10 * 2100 + 512)%N /\ (10 * 2100 <= 1024 * t + 512)%N.
Proof.
  refine (format_kb_accuracy 2100 _). vm_compute. reflexivity.
Defined.

(** * The Markdown converter [tools/md_to_pdf.py] *)

Module MdToPdf.

(** Put [a] in front of the first block. *)
Definition push (a : ascii) (blocks : list string) : list string :=
  match blocks with
  | [] => [String a ""]
  | w :: ws => String a w :: ws
  end.

(** [s.split(sep)] for a separator [sep] of the two characters [c1 c2]:
    [s] is cut at every occurrence of [sep], found from the left. *)
Fixpoint split2 (c1 c2 : ascii) (s : string) : list string :=
  match s with
  | EmptyString => [""]
  | String a rest =>
      match rest with
      | String b rest' =>
          if Ascii.eqb a c1 && Ascii.eqb b c2 then "" :: split2 c1 c2 rest'
          else push a (split2 c1 c2 rest)
      | EmptyString => [String a ""]
      end
  end.

(** [s.replace(old, new)] for [old] of the one character [c]. *)
Fixpoint replace1 (c : ascii) (new s : string) : string :=
  match s with
  | EmptyString => EmptyString
  | String a rest =>
      if Ascii.eqb a c then new +:+ replace1 c new rest
      else String a (replace1 c new rest)
  end.

(** What the document is built from. *)
Inductive flowable :=
| Paragraph (html : string) (style : string)
| Spacer (width height : N).

Definition LF : ascii := "010"%char.

(** The story [md_to_pdf] hands to [doc.build]: for each block of the
    text, cut at blank lines, a paragraph and a spacer. *)
Definition story (text : string) : list flowable :=
  split2 LF LF text ≫= fun block =>
    let html := replace1 LF "<br/>" block in
    [Paragraph html "Normal"; Spacer 1 8].

End MdToPdf.

(** * The QR generator [tools/generate_qr_codes.py] *)

Module GenerateQr.

Definition URLS : list (string * string) :=
  [("makecode_new_project", "https://makecode.microbit.org");
   ("makecode_documentation", "https://makecode.microbit.org/reference");
   ("microbit_official", "https://microbit.org")].

(** [f"qr_{name}.png"] *)
Definition qr_file (name : string) : string := "qr_" +:+ name +:+ ".png".

End GenerateQr.

Lemma split2_unfold c1 c2 a b (s : string) :
  MdToPdf.split2 c1 c2 (String a (String b s)) =
  if Ascii.eqb a c1 && Ascii.eqb b c2 then "" :: MdToPdf.split2 c1 c2 s
  else MdToPdf.push a (MdToPdf.split2 c1 c2 (String b s)).
Proof. reflexivity. Qed.

Lemma push_nonempty a blocks : MdToPdf.push a blocks <> [].
Proof. by destruct blocks. Qed.

Lemma split2_nonempty c1 c2 s : MdToPdf.split2 c1 c2 s <> [].
Proof.
  destruct s as [|a [|b s]]; [done|done|]. rewrite split2_unfold.
  destruct (_ && _); [done|apply push_nonempty].
Qed.

Lemma concat_push sep a (blocks : list string) :
  blocks <> [] ->
  String.concat sep (MdToPdf.push a blocks) = String a (String.concat sep blocks).
Proof.
  destruct blocks as [|w [|w' ws]]; [done|done|]. intros _.
  cbn [MdToPdf.push String.concat]. by rewrite str_app_cons.
Qed.

(** The two-step induction [split2] calls for. *)
Lemma string_ind2 (P : string -> Prop) :
  P "" -> (forall a, P (String a "")) ->
  (forall a b s, P s -> P (String b s) -> P (String a (String b s))) ->
  forall s, P s.
Proof.
  intros H0 H1 H2. assert (forall s, P s /\ forall a, P (String a s)) as H.
  { induction s as [|b s [IH1 IH2]]; [by split|]. split; [apply IH2|].
    intros a. apply H2; [done|apply IH2]. }
  intros s. apply H.
Qed.

Lemma split2_concat c1 c2 (s : string) :
  String.concat (String c1 (String c2 "")) (MdToPdf.split2 c1 c2 s) = s.
Proof.
  induction s as [| |a b s IH1 IH2] using string_ind2; [done|done|].
  rewrite split2_unfold.
  destruct (Ascii.eqb a c1 && Ascii.eqb b c2) eqn:Hsep.
  - apply andb_true_iff in Hsep as [->%Ascii.eqb_eq ->%Ascii.eqb_eq].
    pose proof (split2_nonempty c1 c2 s) as Hne.
    destruct (MdToPdf.split2 c1 c2 s) as [|w ws] eqn:Hs; [done|].
    cbn [String.concat]. change ("" +:+ ?x) with x. cbv beta.
    rewrite !str_app_cons. change ("" +:+ ?x) with x. cbv beta.
    by rewrite <-IH1.
  - rewrite concat_push by apply split2_nonempty. by rewrite IH2.
Qed.

(** The first block starts as the text does. *)
Lemma split2_head c1 c2 (s w : string) ws x :
  MdToPdf.split2 c1 c2 s = String x w :: ws -> exists rest, s = String x rest.
Proof.
  destruct s as [|a [|b s]]; [done| |].
  - intros [= <- _ _]. eauto.
  - rewrite split2_unfold. destruct (_ && _); [done|].
    destruct (MdToPdf.split2 c1 c2 (String b s)) as [|w' ws']; intros [= <- _ _]; eauto.
Qed.

Lemma split2_no_separator c1 c2 (s : string) :
  Forall (fun block => Str.contains (String c1 (String c2 "")) block = false)
    (MdToPdf.split2 c1 c2 s).
Proof.
  induction s as [|a|a b s IH1 IH2] using string_ind2.
  - by constructor.
  - constructor; [|done]. cbn. destruct (ascii_dec c1 a); done.
  - rewrite split2_unfold. destruct (Ascii.eqb a c1 && Ascii.eqb b c2) eqn:Hsep.
    { by constructor. }
    pose proof (split2_head c1 c2 (String b s)) as Hhead.
    destruct (MdToPdf.split2 c1 c2 (String b s)) as [|w ws].
    { constructor; [|done]. cbn. destruct (ascii_dec c1 a); done. }
    apply Forall_cons in IH2 as [Hw Hws]. cbn [MdToPdf.push].
    constructor; [|done]. cbn [Str.contains]. rewrite Hw, orb_false_r.
    cbn [String.prefix]. destruct (ascii_dec c1 a) as [->|]; [|done].
    destruct w as [|x w]; [done|]. cbn [String.prefix].
    destruct (ascii_dec c2 x) as [->|]; [|done].
    destruct (Hhead w ws x eq_refl) as [rest [= ->]].
    by rewrite !Ascii.eqb_refl in Hsep.
Qed.

(** X15. Cutting the text at blank lines, as the converter does, loses
    nothing: there is at least one block (an empty text gives one empty
    block), the blocks joined by blank lines are the text again, and no
    block holds a blank line. *)
Theorem blocks_round_trip (text : string) :
  MdToPdf.split2 MdToPdf.LF MdToPdf.LF text <> [] /\
  String.concat (String MdToPdf.LF (String MdToPdf.LF ""))
    (MdToPdf.split2 MdToPdf.LF MdToPdf.LF text) = text /\
  Forall (fun block =>
            Str.contains (String MdToPdf.LF (String MdToPdf.LF "")) block = false)
    (MdToPdf.split2 MdToPdf.LF MdToPdf.LF text).
Proof.
  split; [apply split2_nonempty|]. split; [apply split2_concat|].
  apply split2_no_separator.
Qed.

Lemma contains_char_app c (x y : string) :
  Str.contains (String c "") (x +:+ y) =
  Str.contains (String c "") x || Str.contains (String c "") y.
Proof.
  induction x as [|a x IH].
  - change ("" +:+ y) with y. cbn. by destruct y.
  - rewrite str_app_cons. cbn [Str.contains String.prefix].
    rewrite IH. destruct (ascii_dec c a); [|done].
    assert (forall z, String.prefix "" z = true) as Hp by (by intros [|? ?]).
    by rewrite !Hp.
Qed.

Lemma replace1_clean c (new s : string) :
  Str.contains (String c "") new = false ->
  Str.contains (String c "") (MdToPdf.replace1 c new s) = false.
Proof.
  intros Hnew. induction s as [|a s IH]; [done|]. cbn [MdToPdf.replace1].
  destruct (Ascii.eqb a c) eqn:Ha.
  - by rewrite contains_char_app, Hnew, IH.
  - cbn [Str.contains String.prefix]. rewrite IH, orb_false_r.
    destruct (ascii_dec c a) as [->|]; [|done]. by rewrite Ascii.eqb_refl in Ha.
Qed.

(** What the converter expects of a flowable of its story. *)
Definition well_made (f : MdToPdf.flowable) : Prop :=
  match f with
  | MdToPdf.Paragraph html style =>
      Str.contains (String MdToPdf.LF "") html = false /\ style = "Normal"
  | MdToPdf.Spacer width height => width = 1%N /\ height = 8%N
  end.

(** X16. The story of the converter: two flowables for each block of
    the text, in the order of the blocks, a paragraph in the [Normal]
    style holding the block with [<br/>] for each of its line feeds,
    followed by a spacer of height 8; so there is at least one
    paragraph even for an empty text, and no paragraph holds a line
    feed. *)
Theorem story_shape (text : string) :
  length (MdToPdf.story text) =
    (2 * length (MdToPdf.split2 MdToPdf.LF MdToPdf.LF text))%nat /\
  (2 <= length (MdToPdf.story text))%nat /\
  Forall well_made (MdToPdf.story text) /\
  (forall i block,
     MdToPdf.split2 MdToPdf.LF MdToPdf.LF text !! i = Some block ->
     MdToPdf.story text !! (2 * i)%nat =
       Some (MdToPdf.Paragraph (MdToPdf.replace1 MdToPdf.LF "<br/>" block) "Normal") /\
     MdToPdf.story text !! (2 * i + 1)%nat = Some (MdToPdf.Spacer 1 8)).
Proof.
  unfold MdToPdf.story. pose proof (split2_nonempty MdToPdf.LF MdToPdf.LF text) as Hne.
  generalize dependent (MdToPdf.split2 MdToPdf.LF MdToPdf.LF text).
  intros blocks Hne.
  set (turn := fun block : string =>
    [MdToPdf.Paragraph (MdToPdf.replace1 MdToPdf.LF "<br/>" block) "Normal";
     MdToPdf.Spacer 1 8]).
  assert (forall l : list string, length (l ≫= turn) = (2 * length l)%nat) as Hlen.
  { induction l as [|b l IH]; [done|]. rewrite bind_cons, length_app, IH.
    simpl. lia. }
  split; [apply Hlen|]. split.
  { rewrite Hlen. destruct blocks; [done|]. simpl. lia. }
  split.
  { clear Hne. induction blocks as [|b l IH]; [constructor|].
    rewrite bind_cons. apply Forall_app. split; [|done].
    constructor; [|by constructor].
    split; [|done]. apply replace1_clean. vm_compute. reflexivity. }
  clear Hne. induction blocks as [|b l IH]; intros i block Hi; [done|].
  rewrite bind_cons. destruct i as [|i].
  - injection Hi as ->. done.
  - replace (2 * S i)%nat with (S (S (2 * i))) by lia.
    replace (S (S (2 * i)) + 1)%nat with (S (S (2 * i + 1))) by lia.
    by apply IH.
Qed.

Lemma story_shape_witness :
  MdToPdf.story ("# Title" +:+ String MdToPdf.LF (String MdToPdf.LF "one" +:+
                   String MdToPdf.LF "two")) !! 0%nat =
    Some (MdToPdf.Paragraph "# Title" "Normal") /\
  MdToPdf.story ("# Title" +:+ String MdToPdf.LF (String MdToPdf.LF "one" +:+
                   String MdToPdf.LF "two")) !! 2%nat =
    Some (MdToPdf.Paragraph "one<br/>two" "Normal").
Proof.
  pose proof (story_shape ("# Title" +:+ String MdToPdf.LF (String MdToPdf.LF "one" +:+
                             String MdToPdf.LF "two"))) as (_ & _ & _ & H).
  split.
  - exact (proj1 (H 0%nat "# Title" eq_refl)).
  - exact (proj1 (H 1%nat ("one" +:+ String MdToPdf.LF "two") eq_refl)).
Defined.

(** X17. The two tools fit: a file the generator names
    ([qr_<name>.png], whatever the name) passes the packager's filter;
    when it is a file of the QR source directory, a run that returns
    has copied it, bytes and metadata, to [qrcodes/] of the package and
    has printed its line. *)
Theorem generated_qr_is_packaged w w' name c m :
  create_package w = (w', Ok tt) ->
  is_Some (fs w !! qrcodes_dir) ->
  fs w !! OsPath.join qrcodes_dir [GenerateQr.qr_file name] = Some (File c m) ->
  fs w !! OsPath.join package_dir ["qrcodes"; GenerateQr.qr_file name] <> Some Dir ->
  Str.endswith (GenerateQr.qr_file name) ".png" = true /\
  fs w' !! OsPath.join package_dir ["qrcodes"; GenerateQr.qr_file name] =
    Some (File c m) /\
  "Copied QR: " +:+ GenerateQr.qr_file name ∈ printed w w'.
Proof.
  intros Hrun [n Hn] Hfile Hnd. set (file := GenerateQr.qr_file name) in *.
  assert (Str.endswith file ".png" = true) as Hpng.
  { unfold file, GenerateQr.qr_file. rewrite str_app_assoc. apply endswith_app. }
  split; [done|].
  change (OsPath.join qrcodes_dir [file]) with (qrcodes_dir ++ [file]) in *.
  change (OsPath.join package_dir ["qrcodes"; file]) with (qr_package_dir ++ [file]) in *.
  destruct (run_ok_kept w w' Hrun) as (_ & _ & Hqr & _). unfold qr_done in Hqr.
  rewrite Hn in Hqr. destruct Hqr as [-> Hqr].
  destruct (Hqr file) as [_ Hdone]; [by rewrite Hfile|done|].
  cbn [qr_entry fst snd] in Hdone. rewrite Hfile in Hdone.
  destruct Hdone as (c0 & m0 & [= <- <-] & Hdst & _). split.
  - unfold copy2_dst in Hdst.
    by destruct (fs w !! (qr_package_dir ++ [file])) as [[]|].
  - destruct (run_out w w' Hrun) as (files & k & _ & Hfiles & Hout).
    rewrite (printed_app _ _ _ Hout). apply elem_of_app. right.
    apply elem_of_app. left. apply list_elem_of_bind. exists file. split.
    + unfold qr_lines. rewrite Hpng. by left.
    + apply Hfiles. rewrite Hn, Hfile. eauto.
Qed.

(** The QR images of the generator, as it leaves them. *)
Definition w_generated : world :=
  volume (home ++ (qrcodes_dir, Dir) ::
            ((fun entry : string * string =>
                (qrcodes_dir ++ [GenerateQr.qr_file entry.1],
                 File (Raw ("PNG " +:+ entry.2)) (Stat 420 5))) <$> GenerateQr.URLS)).

Lemma generated_qr_is_packaged_witness :
  Str.endswith (GenerateQr.qr_file "microbit_official") ".png" = true /\
  fs (create_package w_generated).1
    !! OsPath.join package_dir ["qrcodes"; GenerateQr.qr_file "microbit_official"] =
    Some (File (Raw "PNG https://microbit.org") (Stat 420 5)) /\
  "Copied QR: " +:+ GenerateQr.qr_file "microbit_official"
    ∈ printed w_generated (create_package w_generated).1.
Proof.
  refine (generated_qr_is_packaged w_generated (create_package w_generated).1
            "microbit_official" (Raw "PNG https://microbit.org") (Stat 420 5) _ _ _ _).
  - apply returns_eq. vm_compute. reflexivity.
  - compute_done.
  - vm_compute. reflexivity.
  - vm_compute. discriminate.
Defined.
